(** * Ingestion pipeline: file analyzer, schema refinement loop,
      database materializer and ingestion state machine.

    Shallow embedding of
      - src/data_ingestion/file_analyzer.py   (module [FileAnalyzer])
      - src/agents/schema_agent.py            (module [SchemaAgent])
      - src/database_builder.py               (module [DatabaseBuilder])
      - src/agents/ingestion_orchestrator.py  (modules [IngestionOrchestrator],
                                               [IngestionQueries])
      - src/data_ingestion/supported_formats.py (module [SupportedFormats])
      - src/data_ingestion/file_parser.py     (module [FileParser]: [parse_file])
      - src/app.py                            (module [App]: [allowed_file])

    Python [str] is modelled by [string] (ASCII only: [lower] and [strip]
    are the ASCII ones), Python [int] counts by [nat], Python [float] by
    the IEEE binary64 primitive floats, Python [dict]s with a fixed key
    set by records, [None]-able values by [option], exceptions by the
    [result] type.  Wall-clock timestamps and console output are left out. *)

From Stdlib Require Import Floats ZArith Ascii String.
From stdpp Require Import gmap strings list pretty.

#[local] Set Warnings "-inexact-float,-register-all".
#[local] Open Scope string_scope.
#[local] Open Scope nat_scope.

(** ** Python built-ins used by the sources *)

Module Py.

(** An exception: its class and [str(e)]. *)
Record exn := Exn {
  exn_class : string;
  exn_str : string
}.

Definition KeyError (key : string) : exn := Exn "KeyError" ("'" +:+ key +:+ "'").
Definition TypeError (msg : string) : exn := Exn "TypeError" msg.
Definition AttributeError (msg : string) : exn := Exn "AttributeError" msg.
Definition IndexError : exn := Exn "IndexError" "list index out of range".
Definition NameError (var : string) : exn :=
  Exn "NameError" ("name '" +:+ var +:+ "' is not defined").
Definition ZeroDivisionError : exn :=
  Exn "ZeroDivisionError" "float division by zero".

Inductive result (A : Type) :=
| Ok (a : A)
| Raise (e : exn).
Arguments Ok {A} a.
Arguments Raise {A} e.

#[export] Instance result_ret : MRet result := λ A, Ok.
#[export] Instance result_bind : MBind result := λ A B f m,
  match m with
  | Ok a => f a
  | Raise e => Raise e
  end.


(** [c.lower()] on one ASCII character. *)
Definition ascii_lower (c : ascii) : ascii :=
  let n := nat_of_ascii c in
  if (65 <=? n)%nat && (n <=? 90)%nat then ascii_of_nat (n + 32) else c.

(** [s.lower()] *)
Fixpoint lower (s : string) : string :=
  match s with
  | EmptyString => EmptyString
  | String c r => String (ascii_lower c) (lower r)
  end.

(** [s.startswith(p)] *)
Fixpoint startswith (s p : string) : bool :=
  match p with
  | EmptyString => true
  | String c p' =>
      match s with
      | EmptyString => false
      | String d s' => Ascii.eqb d c && startswith s' p'
      end
  end.

(** [sub in s] *)
Fixpoint str_in (sub s : string) : bool :=
  startswith s sub ||
  match s with
  | EmptyString => false
  | String _ s' => str_in sub s'
  end.

(** [s.endswith(suf)] *)
Fixpoint endswith (s suf : string) : bool :=
  String.eqb s suf ||
  match s with
  | EmptyString => false
  | String _ s' => endswith s' suf
  end.

(** [sep.join(l)] *)
Fixpoint join (sep : string) (l : list string) : string :=
  match l with
  | [] => ""
  | [x] => x
  | x :: r => x +:+ sep +:+ join sep r
  end.

(** [s.split(sep)] for a non-empty separator. *)
Fixpoint split_go (sep s : string) (skip : nat) (cur : string) : list string :=
  match s with
  | EmptyString => [cur]
  | String c s' =>
      match skip with
      | S k => split_go sep s' k cur
      | O =>
          if startswith s sep
          then cur :: split_go sep s' (String.length sep - 1) ""
          else split_go sep s' 0 (cur +:+ String c "")
      end
  end.

Definition split (s sep : string) : list string := split_go sep s 0 "".

(** [l[i]] *)
Definition index {A} (l : list A) (i : nat) : result A :=
  match l !! i with
  | Some x => Ok x
  | None => Raise IndexError
  end.

(** [s.strip(chars)] with the characters given as a predicate. *)
Fixpoint lstrip_by (p : ascii → bool) (s : string) : string :=
  match s with
  | EmptyString => ""
  | String c s' => if p c then lstrip_by p s' else s
  end.

Fixpoint rstrip_by (p : ascii → bool) (s : string) : string :=
  match s with
  | EmptyString => ""
  | String c s' =>
      let r := rstrip_by p s' in
      if String.eqb r "" && p c then "" else String c r
  end.

Definition strip_by (p : ascii → bool) (s : string) : string :=
  rstrip_by p (lstrip_by p s).

(** ASCII white space as [str.strip()] sees it. *)
Definition is_space (c : ascii) : bool :=
  let n := nat_of_ascii c in
  ((9 <=? n)%nat && (n <=? 13)%nat) || ((28 <=? n)%nat && (n <=? 32)%nat).

Definition strip (s : string) : string := strip_by is_space s.

Definition nl : string := String (ascii_of_nat 10) "".

(** [max(best :: l, key=key)]: the first element with the largest key. *)
Fixpoint max_by {A} (key : A → nat) (best : A) (l : list A) : A :=
  match l with
  | [] => best
  | x :: r => max_by key (if (key best <? key x)%nat then x else best) r
  end.

(** [min(a, b)] on floats: [b] only when [b < a]. *)
Definition fmin (a b : float) : float :=
  if PrimFloat.ltb b a then b else a.

(** [float(n)] for a non-negative [int] (exact below 2^53). *)
Definition to_float (n : nat) : float :=
  PrimFloat.of_uint63 (Uint63.of_Z (Z.of_nat n)).

End Py.
Import Py.

(** ** Parsed tables (the output shape of the file parser) *)

(** A value of a parsed row.  A [datetime]/[date] is carried with its
    [isoformat()], a nested [dict]/[list] with its [json.dumps()]. *)
Inductive py_value :=
| PyNone
| PyBool (b : bool)
| PyInt (z : Z)
| PyFloat (f : float)
| PyStr (s : string)
| PyDate (isoformat : string)
| PyComposite (dumps : string).

(** A row is a Python [dict]: insertion-ordered field/value pairs. *)
Definition row := list (string * py_value).

Record column := Column {
  col_name : string;
  col_type : string;
  null_count : nat;
  unique_count : nat
}.

Record table := Table {
  tbl_name : string;
  tbl_columns : list column;
  row_count : nat;
  tbl_data : list row
}.

Record parsed_file := ParsedFile {
  filename : string;
  format : string;
  tables : list table
}.

(** ** src/data_ingestion/file_analyzer.py *)

Module FileAnalyzer.

Record table_info := TableInfo {
  source_file : string;
  the_table : table
}.

Record candidate := Candidate {
  cand_column : string;
  cand_score : nat;
  cand_reason : string
}.

Record pk_suggestion := PkSuggestion {
  pk_column : string;
  pk_confidence : string;
  pk_reason : string
}.

Record relationship := Relationship {
  from_file : string;
  from_table : string;
  from_column : string;
  to_file : string;
  to_table : string;
  to_column : string;
  confidence : string;
  reason : string
}.

(** The score that [_suggest_primary_key] gives to a qualifying column. *)
Definition pk_score (col : column) : nat :=
  let score := 100 in
  let col_name_lower := lower (col_name col) in
  let score := if str_in "id" col_name_lower then score + 50 else score in
  let score :=
    if endswith col_name_lower "_id" || String.eqb col_name_lower "id"
    then score + 25 else score in
  let score :=
    if String.eqb (col_type col) "integer" then score + 25 else score in
  score.

Definition is_pk_candidate (t : table) (col : column) : bool :=
  let is_unique := (unique_count col =? row_count t)%nat in
  let has_no_nulls := (null_count col =? 0)%nat in
  is_unique && has_no_nulls.

Definition pk_candidates (t : table) : list candidate :=
  flat_map (λ col,
    if is_pk_candidate t col
    then [ {| cand_column := col_name col;
              cand_score := pk_score col;
              cand_reason :=
                "Unique values, no nulls, type: " +:+ col_type col |} ]
    else []) (tbl_columns t).

Definition _suggest_primary_key (t : table) : option pk_suggestion :=
  if (row_count t =? 0)%nat then None
  else
    match pk_candidates t with
    | [] => None
    | c :: cs =>
        let best := max_by cand_score c cs in
        Some {| pk_column := cand_column best;
                pk_confidence :=
                  if (150 <=? cand_score best)%nat then "high" else "medium";
                pk_reason := cand_reason best |}
    end.

(** The four tests of [_calculate_column_similarity]. *)
Definition same_name (col1 col2 : column) : bool :=
  String.eqb (col_name col1) (col_name col2).

Definition similar_name (col1 col2 : column) : bool :=
  let name1_lower := lower (col_name col1) in
  let name2_lower := lower (col_name col2) in
  str_in name1_lower name2_lower || str_in name2_lower name1_lower.

Definition same_type (col1 col2 : column) : bool :=
  String.eqb (col_type col1) (col_type col2).

Definition looks_like_fk (col1 col2 : column) : bool :=
  let name1_lower := lower (col_name col1) in
  let name2_lower := lower (col_name col2) in
  (str_in "_id" name1_lower && String.eqb name2_lower "id") ||
  (str_in "_id" name2_lower && String.eqb name1_lower "id").

Definition _calculate_column_similarity (col1 col2 : column) : float :=
  let score := 0.0%float in
  let score := if same_name col1 col2 then (score + 0.5)%float else score in
  let score := if similar_name col1 col2 then (score + 0.3)%float else score in
  let score := if same_type col1 col2 then (score + 0.2)%float else score in
  let score := if looks_like_fk col1 col2 then (score + 0.4)%float else score in
  fmin score 1.0%float.

Definition _get_relationship_reason (col1 col2 : column) : string :=
  let reasons := [] in
  let reasons :=
    if String.eqb (col_name col1) (col_name col2)
    then (reasons ++ ["identical column names"])%list
    else if str_in (lower (col_name col1)) (lower (col_name col2))
            || str_in (lower (col_name col2)) (lower (col_name col1))
    then (reasons ++ ["similar column names"])%list
    else reasons in
  let reasons :=
    if String.eqb (col_type col1) (col_type col2)
    then (reasons ++ ["matching types (" +:+ col_type col1 +:+ ")"])%list
    else reasons in
  let reasons :=
    if str_in "_id" (lower (col_name col1))
       || str_in "_id" (lower (col_name col2))
    then (reasons ++ ["foreign key naming pattern"])%list
    else reasons in
  match reasons with
  | [] => "column similarity detected"
  | _ => join ", " reasons
  end.

(** The body of the two inner loops: one column pair of one table pair. *)
Definition relate (table1_info table2_info : table_info)
    (col1 col2 : column) : list relationship :=
  let similarity_score := _calculate_column_similarity col1 col2 in
  if PrimFloat.ltb 0.5 similarity_score then
    [ {| from_file := source_file table1_info;
         from_table := tbl_name (the_table table1_info);
         from_column := col_name col1;
         to_file := source_file table2_info;
         to_table := tbl_name (the_table table2_info);
         to_column := col_name col2;
         confidence :=
           if PrimFloat.ltb 0.8 similarity_score then "high" else "medium";
         reason := _get_relationship_reason col1 col2 |} ]
  else [].

Definition relate_tables (table1_info table2_info : table_info)
    : list relationship :=
  flat_map (λ col1,
    flat_map (λ col2, relate table1_info table2_info col1 col2)
      (tbl_columns (the_table table2_info)))
    (tbl_columns (the_table table1_info)).

(** [for i, t1 in enumerate(all_tables): for t2 in all_tables[i+1:]] *)
Fixpoint _detect_relationships (all_tables : list table_info)
    : list relationship :=
  match all_tables with
  | [] => []
  | table1_info :: rest =>
      (flat_map (λ table2_info, relate_tables table1_info table2_info) rest
       ++ _detect_relationships rest)%list
  end.

Section DataQuality.

(** [f"{x:.1f}"], Python's fixed-point rendering of a float. *)
Variable format_1f : float → string.

Definition null_pct (t : table) (col : column) : float :=
  if (0 <? row_count t)%nat
  then (to_float (null_count col) / to_float (row_count t) * 100)%float
  else 0%float.

Definition unique_pct (t : table) (col : column) : float :=
  (to_float (unique_count col) / to_float (row_count t) * 100)%float.

(** [issues] after the loop over the columns. *)
Definition high_null_issues (t : table) : list string :=
  flat_map (λ col,
    let null_pct := null_pct t col in
    if PrimFloat.ltb 50 null_pct
    then [ "Column '" +:+ col_name col +:+ "' has "
           +:+ format_1f null_pct +:+ "% null values" ]
    else []) (tbl_columns t).

Definition _detect_data_quality_issues (t : table) : result (list string) :=
  let issues := high_null_issues t in
  issues ←
    (if (0 <? row_count t)%nat then
       if (length (tbl_columns t) =? 0)%nat then Raise ZeroDivisionError
       else
         let avg_unique_pct :=
           (fold_left PrimFloat.add (map (unique_pct t) (tbl_columns t)) 0
            / to_float (length (tbl_columns t)))%float in
         if PrimFloat.ltb avg_unique_pct 10 && (10 <? row_count t)%nat
         then Ok (issues ++ [ "Potential duplicate rows detected (low unique value percentage)" ])%list
         else Ok issues
     else Ok issues);
  let has_unique_col :=
    existsb (λ col,
      (unique_count col =? row_count t)%nat && (null_count col =? 0)%nat)
      (tbl_columns t) in
  if negb has_unique_col && (0 <? row_count t)%nat
  then Ok (issues ++ [ "No obvious primary key candidate found" ])%list
  else Ok issues.

Record quality_issue := QualityIssue {
  issue_file : string;
  issue_table : string;
  issue : string
}.

(** The two per-table loops of [analyze_files]. *)
Definition add_pk_suggestion (keys : gmap string pk_suggestion)
    (table_info : table_info) : gmap string pk_suggestion :=
  match _suggest_primary_key (the_table table_info) with
  | Some pk_suggestion =>
      <[ source_file table_info +:+ "." +:+ tbl_name (the_table table_info)
         := pk_suggestion ]> keys
  | None => keys
  end.

Definition suggested_primary_keys (all_tables : list table_info)
    : gmap string pk_suggestion :=
  fold_left add_pk_suggestion all_tables ∅.

Fixpoint data_quality_issues (all_tables : list table_info)
    : result (list quality_issue) :=
  match all_tables with
  | [] => Ok []
  | table_info :: rest =>
      issues ← _detect_data_quality_issues (the_table table_info);
      later ← data_quality_issues rest;
      Ok (map (λ i, {| issue_file := source_file table_info;
                       issue_table := tbl_name (the_table table_info);
                       issue := i |}) issues ++ later)%list
  end.

End DataQuality.

End FileAnalyzer.

(** ** src/database_builder.py *)

Module DatabaseBuilder.

(** What the [sqlite3] module binds to a [?] placeholder. *)
Inductive sql_value :=
| SqlNull
| SqlInt (z : Z)
| SqlReal (f : float)
| SqlText (s : string).

Record build_result := BuildResult {
  success : bool;
  db_path : option string;
  tables_created : nat;
  rows_inserted : gmap string nat;
  errors : list string;
  warnings : list string
}.

Definition _convert_value (value : py_value) : sql_value :=
  match value with
  | PyNone => SqlNull
  | PyDate isoformat => SqlText isoformat
  | PyBool b => SqlInt (if b then 1 else 0)
  | PyComposite dumps => SqlText dumps
  | PyInt z => SqlInt z
  | PyFloat f => SqlReal f
  | PyStr s => SqlText s
  end.

(** [row.get(col)]: [None] for a missing key. *)
Fixpoint row_get (r : row) (col : string) : py_value :=
  match r with
  | [] => PyNone
  | (k, v) :: r' => if String.eqb k col then v else row_get r' col
  end.

(** [list(row.keys())] *)
Definition keys (r : row) : list string := map fst r.

Definition is_model_class (line : string) : bool :=
  startswith line "class " && str_in "(db.Model)" line.

Definition _extract_models_from_code (schema_code : string) : list string :=
  flat_map (λ line,
    let line := strip line in
    if is_model_class line then
      match split line "class " with
      | _ :: after :: _ =>
          match split after "(" with
          | model_name :: _ => [strip model_name]
          | [] => []
          end
      | _ => []
      end
    else []) (split schema_code nl).

Definition _parse_column_definition (line : string) : string :=
  let col_type :=
    if str_in "db.Integer" line then "INTEGER"
    else if str_in "db.String" line then "TEXT"
    else if str_in "db.Float" line then "REAL"
    else if str_in "db.Boolean" line then "INTEGER"
    else if str_in "db.Date" line then "DATE"
    else if str_in "db.DateTime" line then "DATETIME"
    else if str_in "db.Text" line then "TEXT"
    else "TEXT" in
  let constraints := [] in
  let constraints :=
    if str_in "primary_key=True" line
    then (constraints ++ ["PRIMARY KEY"])%list else constraints in
  let constraints :=
    if str_in "unique=True" line
    then (constraints ++ ["UNIQUE"])%list else constraints in
  let constraints :=
    if str_in "nullable=False" line
    then (constraints ++ ["NOT NULL"])%list else constraints in
  let constraints :=
    if str_in "autoincrement=True" line
       || (str_in "primary_key=True" line && str_in "Integer" line)
    then (constraints ++ ["AUTOINCREMENT"])%list else constraints in
  match constraints with
  | [] => col_type
  | _ => col_type +:+ " " +:+ join " " constraints
  end.

Definition _build_create_table_sql (table_name : string)
    (columns : list (string * string)) : string :=
  let col_defs := map (λ '(name, definition), name +:+ " " +:+ definition) columns in
  "CREATE TABLE IF NOT EXISTS " +:+ table_name +:+ " (" +:+ nl +:+ "  "
  +:+ join ("," +:+ nl +:+ "  ") col_defs
  +:+ nl +:+ ");".

Definition is_quote (c : ascii) : bool :=
  Ascii.eqb c "'"%char || Ascii.eqb c (ascii_of_nat 34).

(** [if table_name and columns: statements.append(...)] *)
Definition close_class (table_name : option string)
    (columns : list (string * string)) (statements : list string) : list string :=
  match table_name, columns with
  | Some table_name, _ :: _ =>
      if String.eqb table_name "" then statements
      else (statements ++ [_build_create_table_sql table_name columns])%list
  | _, _ => statements
  end.

(** The two nested [while] loops of [_generate_create_table_sql] share
    the index [i]; as one pass over the lines, [cur] is [None] in the
    outer loop and [Some (table_name, columns)] in the inner one.  The
    line that ends a class is looked at again by the outer loop. *)
Fixpoint scan_lines (lines : list string)
    (cur : option (option string * list (string * string)))
    (statements : list string) : result (list string) :=
  match lines with
  | [] =>
      match cur with
      | Some (table_name, columns) => Ok (close_class table_name columns statements)
      | None => Ok statements
      end
  | l :: rest =>
      let line := strip l in
      match cur with
      | None =>
          if is_model_class line then scan_lines rest (Some (None, [])) statements
          else scan_lines rest None statements
      | Some (table_name, columns) =>
          if startswith line "__tablename__" then
            name ← index (split line "=") 1;
            scan_lines rest
              (Some (Some (strip_by is_quote (strip name)), columns)) statements
          else if str_in "= db.Column(" line then
            col_name ← index (split line "=") 0;
            let col_name := strip col_name in
            let col_def := _parse_column_definition line in
            let columns :=
              if String.eqb col_def "" then columns
              else (columns ++ [(col_name, col_def)])%list in
            scan_lines rest (Some (table_name, columns)) statements
          else if startswith line "class "
                  || (negb (String.eqb line "") && negb (startswith line "#")
                      && negb (str_in "=" line) && negb (startswith line "def"))
          then
            let statements := close_class table_name columns statements in
            if is_model_class line then scan_lines rest (Some (None, [])) statements
            else scan_lines rest None statements
          else scan_lines rest cur statements
      end
  end.

Definition _generate_create_table_sql (schema_code : string)
    : result (list string) :=
  scan_lines (split schema_code nl) None [].

(** How [cursor.execute] ends: normally, with an exception of class
    [sqlite3.Error] (constraint violations, unknown tables or columns),
    or with another exception ([OverflowError] for an integer outside
    64 bits, for instance). *)
Inductive outcome :=
| Done
| SqliteError (msg : string)
| OtherError (e : exn).

Definition with_failure (r : build_result) (e : exn) : build_result :=
  {| success := success r; db_path := db_path r;
     tables_created := tables_created r; rows_inserted := rows_inserted r;
     errors := (errors r ++ [ "Database creation failed: " +:+ exn_str e ])%list;
     warnings := warnings r |}.

Section WithSqlite.

(** The state of the physical database behind a connection. *)
Context {conn : Type}.

(** [cursor.execute(sql, parameters)]: the database afterwards and how
    the call ended. *)
Variable execute : conn → string → list sql_value → conn * outcome.

(** [sqlite3.connect(db_path)]: opens the file, creating it if absent. *)
Variable connect : string → conn.

(** [self.db_directory], as text. *)
Variable db_directory : string.

Definition insert_sql (table_name : string) (col_names : list string) : string :=
  let placeholders := join "," (map (λ _, "?") col_names) in
  "INSERT INTO " +:+ table_name +:+ " (" +:+ join "," col_names
  +:+ ") VALUES (" +:+ placeholders +:+ ")".

Definition row_values (col_names : list string) (r : row) : list sql_value :=
  map (λ col, _convert_value (row_get r col)) col_names.

(** [for row in data: try: ... except sqlite3.Error as e: ...] *)
Fixpoint insert_rows (c : conn) (table_name insert_sql : string)
    (col_names : list string) (data : list row)
    (inserted : nat) (errors : list string)
    : conn * result (nat * list string) :=
  match data with
  | [] => (c, Ok (inserted, errors))
  | r :: rest =>
      let values := row_values col_names r in
      match execute c insert_sql values with
      | (c, Done) =>
          insert_rows c table_name insert_sql col_names rest (inserted + 1) errors
      | (c, SqliteError e) =>
          insert_rows c table_name insert_sql col_names rest inserted
            (errors ++ [ "Error inserting row into " +:+ table_name +:+ ": " +:+ e ])%list
      | (c, OtherError e) => (c, Raise e)
      end
  end.

Definition _insert_data (c : conn) (table_name : string) (data : list row)
    (columns : list column) : conn * result (nat * list string) :=
  match data with
  | [] => (c, Ok (0, []))
  | first :: _ =>
      let col_names := keys first in
      insert_rows c table_name (insert_sql table_name col_names) col_names data 0 []
  end.

(** [for table_sql in create_table_statements: try: ... except ...];
    the third component is the exception that leaves the loop, if any. *)
Fixpoint create_tables (c : conn) (statements : list string)
    (r : build_result) : conn * build_result * option exn :=
  match statements with
  | [] => (c, r, None)
  | table_sql :: rest =>
      match execute c table_sql [] with
      | (c, Done) =>
          create_tables c rest
            {| success := success r; db_path := db_path r;
               tables_created := tables_created r + 1;
               rows_inserted := rows_inserted r;
               errors := errors r; warnings := warnings r |}
      | (c, SqliteError e) =>
          create_tables c rest
            {| success := success r; db_path := db_path r;
               tables_created := tables_created r;
               rows_inserted := rows_inserted r;
               errors := (errors r ++ [ "Error creating table: " +:+ e ])%list;
               warnings := warnings r |}
      | (c, OtherError e) => (c, r, Some e)
      end
  end.

(** [for file_data in parsed_data: for table_info in file_data["tables"]] *)
Fixpoint populate (c : conn) (tables : list table) (r : build_result)
    : conn * build_result * option exn :=
  match tables with
  | [] => (c, r, None)
  | table_info :: rest =>
      let table_name := tbl_name table_info in
      match _insert_data c table_name (tbl_data table_info)
              (tbl_columns table_info) with
      | (c, Ok (inserted, errs)) =>
          populate c rest
            {| success := success r; db_path := db_path r;
               tables_created := tables_created r;
               rows_inserted := <[ table_name := inserted ]> (rows_inserted r);
               errors := errors r;
               warnings := (warnings r ++ errs)%list |}
      | (c, Raise e) => (c, r, Some e)
      end
  end.

(** Returns the result dictionary and the database as it stays on
    disk, if a connection was opened: table creation is durable as it
    runs, inserted rows are once [conn.commit()] after the loop over
    the parsed tables is reached. *)
Definition create_database_from_schema (schema_code db_name : string)
    (parsed_data : list parsed_file) : build_result * option conn :=
  let path := db_directory +:+ "/" +:+ db_name +:+ ".db" in
  let r := {| success := false; db_path := Some path; tables_created := 0;
              rows_inserted := ∅; errors := []; warnings := [] |} in
  let models := _extract_models_from_code schema_code in
  match _generate_create_table_sql schema_code with
  | Raise e => (with_failure r e, None)
  | Ok create_table_statements =>
      let c0 := connect path in
      match create_tables c0 create_table_statements r with
      | (c, r, Some e) => (with_failure r e, Some c)
      | (c1, r, None) =>
          match populate c1 (flat_map tables parsed_data) r with
          | (c, r, Some e) => (with_failure r e, Some c1)
          | (c2, r, None) =>
              ({| success := true; db_path := db_path r;
                  tables_created := tables_created r;
                  rows_inserted := rows_inserted r;
                  errors := errors r; warnings := warnings r |}, Some c2)
          end
      end
  end.

End WithSqlite.

End DatabaseBuilder.

(** A small stand-in for SQLite, enough to run the materializer on
    examples: [CREATE TABLE IF NOT EXISTS] in the shape that
    [_build_create_table_sql] prints, [INSERT INTO] in the shape that
    [_insert_data] prints, the NOT NULL check, and the refusal of
    integers outside 64 bits. *)

Module MiniSqlite.
Import DatabaseBuilder.

Record mtable := MTable {
  mt_name : string;
  mt_columns : list (string * bool);
  mt_rows : list (list sql_value)
}.

Definition db := list mtable.

Fixpoint strip_prefix (s p : string) : option string :=
  match p with
  | EmptyString => Some s
  | String c p' =>
      match s with
      | EmptyString => None
      | String d s' => if Ascii.eqb d c then strip_prefix s' p' else None
      end
  end.

Definition find_table (d : db) (name : string) : option mtable :=
  List.find (λ t, String.eqb (mt_name t) name) d.

Fixpoint bound_value (cols : list string) (params : list sql_value)
    (col : string) : sql_value :=
  match cols, params with
  | c :: cols', v :: params' =>
      if String.eqb c col then v else bound_value cols' params' col
  | _, _ => SqlNull
  end.

Definition is_null (v : sql_value) : bool :=
  match v with SqlNull => true | _ => false end.

Definition exec_create (d : db) (rest : string) : db * outcome :=
  match split rest (" (" +:+ nl +:+ "  ") with
  | name :: body :: _ =>
      match find_table d name with
      | Some _ => (d, Done)
      | None =>
          let defs := split (hd "" (split body (nl +:+ ");"))) ("," +:+ nl +:+ "  ") in
          let cols := map (λ def, (hd "" (split def " "), str_in "NOT NULL" def)) defs in
          ((d ++ [MTable name cols []])%list, Done)
      end
  | _ => (d, SqliteError "incomplete input")
  end.

Definition exec_insert (d : db) (rest : string) (params : list sql_value)
    : db * outcome :=
  match split rest " (" with
  | name :: colpart :: _ =>
      match find_table d name with
      | None => (d, SqliteError ("no such table: " +:+ name))
      | Some t =>
          let cols := split (hd "" (split colpart ")")) "," in
          let known := map fst (mt_columns t) in
          match List.find (λ c, negb (existsb (String.eqb c) known)) cols with
          | Some c =>
              (d, SqliteError ("table " +:+ name +:+ " has no column named " +:+ c))
          | None =>
              let new_row := map (bound_value cols params) known in
              match List.find (λ '(col, not_null),
                      not_null && is_null (bound_value cols params col))
                      (mt_columns t) with
              | Some (col, _) =>
                  (d, SqliteError ("NOT NULL constraint failed: " +:+ name +:+ "." +:+ col))
              | None =>
                  (map (λ t', if String.eqb (mt_name t') name
                              then MTable (mt_name t') (mt_columns t')
                                          (mt_rows t' ++ [new_row])%list
                              else t') d, Done)
              end
          end
      end
  | _ => (d, SqliteError "incomplete input")
  end.

(** An integer must fit in 64 bits to be bound to a placeholder. *)
Definition fits_int64 (v : sql_value) : bool :=
  match v with
  | SqlInt z => (- 2 ^ 63 <=? z)%Z && (z <? 2 ^ 63)%Z
  | _ => true
  end.

Definition execute (d : db) (sql : string) (params : list sql_value)
    : db * outcome :=
  if negb (forallb fits_int64 params) then
    (d, OtherError (Exn "OverflowError"
                      "Python int too large to convert to SQLite INTEGER"))
  else
    match strip_prefix sql "CREATE TABLE IF NOT EXISTS " with
    | Some rest => exec_create d rest
    | None =>
        match strip_prefix sql "INSERT INTO " with
        | Some rest => exec_insert d rest params
        | None => (d, SqliteError "syntax error")
        end
    end.

Definition connect (db_path : string) : db := [].

End MiniSqlite.

(** ** JSON values as Python sees them after [json.loads] *)

Module Json.

Inductive json :=
| JNull
| JBool (b : bool)
| JInt (z : Z)
| JFloat (f : float)
| JStr (s : string)
| JList (l : list json)
| JDict (d : list (string * json)).

(** [bool(v)] *)
Definition truthy (v : json) : bool :=
  match v with
  | JNull => false
  | JBool b => b
  | JInt z => negb (z =? 0)%Z
  | JFloat f => negb (PrimFloat.eqb f 0)
  | JStr s => negb (String.eqb s "")
  | JList l => match l with [] => false | _ => true end
  | JDict d => match d with [] => false | _ => true end
  end.

Fixpoint assoc (d : list (string * json)) (key : string) : option json :=
  match d with
  | [] => None
  | (k, v) :: d' => if String.eqb k key then Some v else assoc d' key
  end.

Fixpoint assoc_set (d : list (string * json)) (key : string) (x : json)
    : list (string * json) :=
  match d with
  | [] => [(key, x)]
  | (k, v) :: d' =>
      if String.eqb k key then (k, x) :: d' else (k, v) :: assoc_set d' key x
  end.

(** [v.get(key, default)] *)
Definition get (v : json) (key : string) (default : json) : result json :=
  match v with
  | JDict d => Ok (match assoc d key with Some x => x | None => default end)
  | _ => Raise (AttributeError "object has no attribute 'get'")
  end.

(** [v[key]] for a string key *)
Definition getitem (v : json) (key : string) : result json :=
  match v with
  | JDict d =>
      match assoc d key with
      | Some x => Ok x
      | None => Raise (KeyError key)
      end
  | JList _ | JStr _ => Raise (TypeError "indices must be integers")
  | _ => Raise (TypeError "object is not subscriptable")
  end.

(** [v[key] = x] for a string key *)
Definition setitem (v : json) (key : string) (x : json) : result json :=
  match v with
  | JDict d => Ok (JDict (assoc_set d key x))
  | JList _ => Raise (TypeError "list indices must be integers")
  | _ => Raise (TypeError "object does not support item assignment")
  end.

Fixpoint chars (s : string) : list json :=
  match s with
  | EmptyString => []
  | String c s' => JStr (String c "") :: chars s'
  end.

(** [for i in v] *)
Definition iter (v : json) : result (list json) :=
  match v with
  | JList l => Ok l
  | JDict d => Ok (map (λ kv, JStr (fst kv)) d)
  | JStr s => Ok (chars s)
  | _ => Raise (TypeError "object is not iterable")
  end.

(** [len(v)] *)
Definition len (v : json) : result nat :=
  match v with
  | JList l => Ok (length l)
  | JDict d => Ok (length d)
  | JStr s => Ok (String.length s)
  | _ => Raise (TypeError "object has no len()")
  end.

(** [v == s] for a string literal [s] *)
Definition eq_str (v : json) (s : string) : bool :=
  match v with
  | JStr t => String.eqb t s
  | _ => false
  end.

End Json.

(** ** src/agents/schema_agent.py *)

Module SchemaAgent.
Import Json.

Record action := Action {
  action_type : string;
  action_reason : string
}.

Record round_record := RoundRecord {
  rr_round : nat;
  rr_plan : json;
  rr_verification : option json;
  rr_action : option action
}.

Record progress_info := ProgressInfo {
  pi_round : nat;
  pi_max_rounds : nat;
  pi_stage : string;
  pi_message : string
}.

Record schema_result := SchemaResult {
  schema_code : string;
  schema_description : string;
  verification_status : json;
  sr_warnings : json;
  relationships_detected : json;
  refinement_history : list round_record;
  rounds_taken : nat
}.

(** What the file analyzer hands over; only the narrative is read, and
    only to build prompts. *)
Record file_analysis := FileAnalysis {
  natural_language_summary : string
}.

(** The world the agent acts on: how many requests the synthesis
    service has received, and what the progress callback was told. *)
Record world := World {
  calls : nat;
  progress : list progress_info
}.

Definition M (A : Type) : Type := world → result A * world.

#[export] Instance M_ret : MRet M := λ A a w, (Ok a, w).
#[export] Instance M_bind : MBind M := λ A B f m w,
  match m w with
  | (Ok a, w) => f a w
  | (Raise e, w) => (Raise e, w)
  end.

Definition lift {A} (r : result A) : M A := λ w, (r, w).

(** [[i for i in issues if i.get("severity") == severity]] *)
Fixpoint with_severity (severity : string) (issues : list json)
    : result (list json) :=
  match issues with
  | [] => Ok []
  | i :: rest =>
      s ← get i "severity" JNull;
      kept ← with_severity severity rest;
      Ok (if eq_str s severity then i :: kept else kept)
  end.

(** The end of [_verify_schema], after [json.loads]. *)
Definition force_sufficient (verification : json) : result json :=
  flag ← get verification "is_sufficient" JNull;
  if negb (truthy flag) then
    issues ← get verification "issues" (JList []);
    issues ← iter issues;
    critical_issues ← with_severity "critical" issues;
    setitem verification "is_sufficient"
      (JBool (length critical_issues =? 0)%nat)
  else Ok verification.

Section WithService.

(** [self.client.chat.completions.create(...)], request number [n]
    (from 0): the content of the reply, or the exception raised.  The
    prompt is left out: the service may answer anything. *)
Variable chat : nat → result string.

(** [json.loads] *)
Variable json_loads : string → result json.

(** [str(v)], as an f-string renders a value. *)
Variable py_str : json → string.

Variable max_rounds : nat.

(** Whether a [progress_callback] was passed. *)
Variable progress_callback : bool.

Definition chat_completion : M string := λ w,
  (chat (calls w), {| calls := S (calls w); progress := progress w |}).

Definition notify (info : progress_info) : M unit := λ w,
  if progress_callback
  then (Ok (), {| calls := calls w; progress := (progress w ++ [info])%list |})
  else (Ok (), w).

Definition _create_initial_plan (fa : file_analysis) (requirements : string)
    : M json :=
  content ← chat_completion;
  lift (json_loads content).

Definition _refine_plan (current_plan verification_feedback : json)
    (fa : file_analysis) (requirements : string) : M json :=
  content ← chat_completion;
  lift (json_loads content).

Definition fence : string := "```".

Definition _generate_code (plan : json) (fa : file_analysis) : M string :=
  code ← chat_completion;
  if startswith code (fence +:+ "python") then
    part ← lift (index (split code (fence +:+ "python")) 1);
    part ← lift (index (split part fence) 0);
    mret (strip part)
  else if startswith code fence then
    part ← lift (index (split code fence) 1);
    part ← lift (index (split part fence) 0);
    mret (strip part)
  else mret code.

Definition _verify_schema (schema_code : string) (plan : json)
    (fa : file_analysis) (requirements : string) : M json :=
  content ← chat_completion;
  verification ← lift (json_loads content);
  lift (force_sufficient verification).

Definition _route_next_action (verification : json) : result action :=
  issues ← get verification "issues" (JList []);
  if negb (truthy issues) then Ok (Action "complete" "No issues found")
  else
    items ← iter issues;
    critical ← with_severity "critical" items;
    match critical with
    | first :: _ =>
        description ← getitem first "description";
        Ok (Action "refine" ("Fix critical issue: " +:+ py_str description))
    | [] =>
        warnings ← with_severity "warning" items;
        match warnings with
        | first :: _ =>
            description ← getitem first "description";
            Ok (Action "refine" ("Address warning: " +:+ py_str description))
        | [] => Ok (Action "complete" "Only minor issues remain")
        end
    end.

(** [for x in l: lines.append(...)], stopping at the first exception. *)
Fixpoint for_each {A B} (f : A → result (list B)) (l : list A)
    : result (list B) :=
  match l with
  | [] => Ok []
  | x :: rest =>
      here ← f x;
      later ← for_each f rest;
      Ok (here ++ later)%list
  end.

Definition column_line (col : json) : result (list string) :=
  let flags := [] in
  primary_key ← get col "primary_key" JNull;
  let flags := if truthy primary_key then (flags ++ ["PK"])%list else flags in
  unique ← get col "unique" JNull;
  let flags := if truthy unique then (flags ++ ["UNIQUE"])%list else flags in
  nullable ← get col "nullable" (JBool true);
  let flags := if negb (truthy nullable) then (flags ++ ["NOT NULL"])%list else flags in
  foreign_key ← get col "foreign_key" JNull;
  flags ←
    (if truthy foreign_key then
       target ← getitem col "foreign_key";
       Ok (flags ++ ["FK → " +:+ py_str target])%list
     else Ok flags);
  let flag_str :=
    match flags with
    | [] => ""
    | _ => " [" +:+ join ", " flags +:+ "]"
    end in
  name ← getitem col "name";
  type ← getitem col "type";
  Ok [ "- `" +:+ py_str name +:+ "` (" +:+ py_str type +:+ ")" +:+ flag_str ].

Definition table_lines (table : json) : result (list string) :=
  name ← getitem table "name";
  purpose ← get table "purpose" (JStr "No description");
  columns ← getitem table "columns";
  n ← len columns;
  columns ← getitem table "columns";
  columns ← iter columns;
  col_lines ← for_each column_line columns;
  Ok ([ nl +:+ "## " +:+ py_str name;
        py_str purpose +:+ nl;
        "**Columns (" +:+ pretty n +:+ "):**" ] ++ col_lines)%list.

Definition relationship_line (rel : json) : result (list string) :=
  from_table ← getitem rel "from_table";
  from_column ← getitem rel "from_column";
  to_table ← getitem rel "to_table";
  to_column ← getitem rel "to_column";
  relationship_type ← get rel "relationship_type" (JStr "unknown");
  Ok [ "- " +:+ py_str from_table +:+ "." +:+ py_str from_column +:+ " → "
       +:+ py_str to_table +:+ "." +:+ py_str to_column +:+ " ("
       +:+ py_str relationship_type +:+ ")" ].

Definition _generate_description (plan : json) (fa : file_analysis)
    : result string :=
  let lines := [ "# Database Schema Description" +:+ nl ] in
  tables ← getitem plan "tables";
  n ← len tables;
  let lines := (lines ++ [ "This schema contains " +:+ pretty n +:+ " table(s):" +:+ nl ])%list in
  tables ← getitem plan "tables";
  tables ← iter tables;
  tbl_lines ← for_each table_lines tables;
  let lines := (lines ++ tbl_lines)%list in
  relationships ← get plan "relationships" JNull;
  lines ←
    (if truthy relationships then
       relationships ← getitem plan "relationships";
       relationships ← iter relationships;
       rel_lines ← for_each relationship_line relationships;
       Ok (lines ++ [ nl +:+ "## Relationships" +:+ nl ] ++ rel_lines)%list
     else Ok lines);
  Ok (join nl lines).

(** The local variables of [generate_schema] that outlive a round. *)
Record loop_state := LoopState {
  history : list round_record;
  current_plan : json;
  verification : option json
}.

(** [refinement_history[-1][field] = value] *)
Definition set_last (f : round_record → round_record)
    (h : list round_record) : list round_record :=
  match reverse h with
  | [] => []
  | r :: before => reverse (f r :: before)
  end.

Definition round_label (round_num : nat) : string :=
  "Round " +:+ pretty round_num +:+ "/" +:+ pretty max_rounds.

(** Step 1 of a round: create the plan, or refine it on the report of
    the round before. *)
Definition plan_step (fa : file_analysis) (requirements : string)
    (st : loop_state) : M json :=
  match current_plan st with
  | JNull => _create_initial_plan fa requirements
  | current =>
      last_entry ← lift (match last (history st) with
                         | Some r => Ok r
                         | None => Raise IndexError
                         end);
      let last_verification :=
        match rr_verification last_entry with
        | Some v => v
        | None => JNull
        end in
      _refine_plan current last_verification fa requirements
  end.

(** One pass through the body of the [for] loop; [true] stands for
    [break]. *)
Definition one_round (fa : file_analysis) (requirements : string)
    (round_num : nat) (st : loop_state) : M (bool * loop_state) :=
  notify {| pi_round := round_num; pi_max_rounds := max_rounds;
            pi_stage := if (round_num =? 1)%nat then "planning" else "refining";
            pi_message := round_label round_num +:+ ": Analyzing and planning..." |};;
  plan ← plan_step fa requirements st;
  let h := (history st ++ [ {| rr_round := round_num; rr_plan := plan;
                               rr_verification := None; rr_action := None |} ])%list in
  notify {| pi_round := round_num; pi_max_rounds := max_rounds;
            pi_stage := "generating_code";
            pi_message := round_label round_num +:+ ": Generating SQLAlchemy code..." |};;
  schema_code ← _generate_code plan fa;
  notify {| pi_round := round_num; pi_max_rounds := max_rounds;
            pi_stage := "verifying";
            pi_message := round_label round_num +:+ ": Verifying schema validity..." |};;
  v ← _verify_schema schema_code plan fa requirements;
  let h := set_last (λ r, RoundRecord (rr_round r) (rr_plan r) (Some v) (rr_action r)) h in
  is_sufficient ← lift (getitem v "is_sufficient");
  if truthy is_sufficient then
    mret (true, {| history := h; current_plan := plan; verification := Some v |})
  else
    act ← lift (_route_next_action v);
    let h := set_last (λ r, RoundRecord (rr_round r) (rr_plan r) (rr_verification r) (Some act)) h in
    let short_reason :=
      if (50 <? String.length (action_reason act))%nat
      then String.substring 0 50 (action_reason act) +:+ "..."
      else action_reason act in
    notify {| pi_round := round_num; pi_max_rounds := max_rounds;
              pi_stage := "refining";
              pi_message := "Refining: " +:+ short_reason |};;
    mret (false, {| history := h; current_plan := plan; verification := Some v |}).

(** [for round_num in range(first, first + remaining)] *)
Fixpoint rounds (fa : file_analysis) (requirements : string)
    (remaining first : nat) (st : loop_state) : M loop_state :=
  match remaining with
  | O => mret st
  | S remaining =>
      '(stop, st) ← one_round fa requirements first st;
      if (stop : bool) then mret st
      else rounds fa requirements remaining (S first) st
  end.

Definition generate_schema (fa : file_analysis) (requirements : string)
    : M schema_result :=
  st ← rounds fa requirements max_rounds 1
         {| history := []; current_plan := JNull; verification := None |};
  final_schema ← _generate_code (current_plan st) fa;
  description ← lift (_generate_description (current_plan st) fa);
  v ← lift (match verification st with
            | Some v => Ok v
            | None => Raise (NameError "verification")
            end);
  status ← lift (getitem v "is_sufficient");
  warnings ← lift (get v "warnings" (JList []));
  relationships ← lift (get (current_plan st) "relationships" (JList []));
  mret {| schema_code := final_schema;
          schema_description := description;
          verification_status := status;
          sr_warnings := warnings;
          relationships_detected := relationships;
          refinement_history := history st;
          rounds_taken := length (history st) |}.

End WithService.

End SchemaAgent.

(** ** src/agents/ingestion_orchestrator.py *)

Module IngestionOrchestrator.
Import SchemaAgent DatabaseBuilder.

Inductive stage :=
| Uploaded
| Parsing
| Analyzing
| GeneratingSchema
| AwaitingApproval
| CreatingDatabase
| Completed
| Failed.

Definition stage_name (s : stage) : string :=
  match s with
  | Uploaded => "uploaded"
  | Parsing => "parsing"
  | Analyzing => "analyzing"
  | GeneratingSchema => "generating_schema"
  | AwaitingApproval => "awaiting_approval"
  | CreatingDatabase => "creating_database"
  | Completed => "completed"
  | Failed => "failed"
  end.

Definition STAGES : list stage :=
  [Uploaded; Parsing; Analyzing; GeneratingSchema; AwaitingApproval;
   CreatingDatabase; Completed; Failed].

#[export] Instance stage_eq_dec : EqDecision stage.
Proof. solve_decision. Defined.

Record file_info := FileInfo {
  file_name : string;
  file_path : string
}.

Section WithCollaborators.

(** What [FileAnalyzer.analyze_files] returns. *)
Context {analysis : Type}.

Record IngestionState := State {
  upload_id : string;
  stage_of : stage;
  files : list file_info;
  requirements : string;
  parsed_data : option (list parsed_file);
  file_analysis : option analysis;
  schema_result_of : option schema_result;
  schema_progress : option progress_info;
  database_result : option build_result;
  state_errors : list string
}.

Definition IngestionState_init (upload_id : string) : IngestionState :=
  {| upload_id := upload_id; stage_of := Uploaded; files := [];
     requirements := ""; parsed_data := None; file_analysis := None;
     schema_result_of := None; schema_progress := None;
     database_result := None; state_errors := [] |}.

Definition set_stage (s : IngestionState) (st : stage) : IngestionState :=
  State (upload_id s) st (files s) (requirements s) (parsed_data s)
    (file_analysis s) (schema_result_of s) (schema_progress s)
    (database_result s) (state_errors s).

Definition add_errors (s : IngestionState) (es : list string) : IngestionState :=
  State (upload_id s) (stage_of s) (files s) (requirements s) (parsed_data s)
    (file_analysis s) (schema_result_of s) (schema_progress s)
    (database_result s) (state_errors s ++ es)%list.

Definition set_parsed_data (s : IngestionState) (p : list parsed_file)
    : IngestionState :=
  State (upload_id s) (stage_of s) (files s) (requirements s) (Some p)
    (file_analysis s) (schema_result_of s) (schema_progress s)
    (database_result s) (state_errors s).

Definition set_file_analysis (s : IngestionState) (a : analysis)
    : IngestionState :=
  State (upload_id s) (stage_of s) (files s) (requirements s) (parsed_data s)
    (Some a) (schema_result_of s) (schema_progress s)
    (database_result s) (state_errors s).

Definition set_schema_result (s : IngestionState) (r : schema_result)
    : IngestionState :=
  State (upload_id s) (stage_of s) (files s) (requirements s) (parsed_data s)
    (file_analysis s) (Some r) (schema_progress s)
    (database_result s) (state_errors s).

Definition set_schema_progress (s : IngestionState) (p : progress_info)
    : IngestionState :=
  State (upload_id s) (stage_of s) (files s) (requirements s) (parsed_data s)
    (file_analysis s) (schema_result_of s) (Some p)
    (database_result s) (state_errors s).

Definition set_database_result (s : IngestionState) (r : build_result)
    : IngestionState :=
  State (upload_id s) (stage_of s) (files s) (requirements s) (parsed_data s)
    (file_analysis s) (schema_result_of s) (schema_progress s)
    (Some r) (state_errors s).

(** What the orchestrator does to the outside, in order. *)
Inductive event :=
| Saved (snapshot : IngestionState)
| ParseCalled (path : string)
| AnalyzeCalled (parsed_files : list parsed_file)
| AgentCalled
| BuilderCalled (db_name : string).

(** [self.states], the state files under [state_dir], and the events
    so far. *)
Record orchestrator := Orchestrator {
  states : gmap string IngestionState;
  disk : gmap string IngestionState;
  trace : list event
}.

Inductive response :=
| RespError (error : string) (details : option (list string))
| RespProcessed (upload_id : string) (files_parsed : nat) (a : analysis)
| RespSchema (upload_id : string) (r : schema_result)
| RespMessage (message : string)
| RespFinalized (upload_id db_name : string) (r : build_result).

(** The four collaborators held by the orchestrator. *)
Variable parse_file : string → result parsed_file.
Variable analyze_files : list parsed_file → result analysis.
Variable agent_generate_schema :
  analysis → string → list progress_info * result schema_result.
Variable builder_create_database :
  string → string → option (list parsed_file) → result build_result.

Definition log (o : orchestrator) (e : event) : orchestrator :=
  {| states := states o; disk := disk o; trace := (trace o ++ [e])%list |}.

Definition _get_state (o : orchestrator) (upload_id : string)
    : option IngestionState * orchestrator :=
  match states o !! upload_id with
  | Some state => (Some state, o)
  | None =>
      match disk o !! upload_id with
      | Some state =>
          (Some state,
           {| states := <[ upload_id := state ]> (states o);
              disk := disk o; trace := trace o |})
      | None => (None, o)
      end
  end.

(** [state] is the object held in [self.states], changed in place; the
    model writes it back when it is saved, which every path does
    before it returns. *)
Definition _save_state (o : orchestrator) (state : IngestionState)
    : orchestrator :=
  {| states := <[ upload_id state := state ]> (states o);
     disk := <[ upload_id state := state ]> (disk o);
     trace := (trace o ++ [Saved state])%list |}.

(** [upload_id] is the fresh [uuid4] drawn by the call. *)
Definition start_ingestion (o : orchestrator) (upload_id : string)
    (files : list file_info) (requirements : string)
    : string * orchestrator :=
  let state := IngestionState_init upload_id in
  let state :=
    State upload_id (stage_of state) files requirements (parsed_data state)
      (file_analysis state) (schema_result_of state) (schema_progress state)
      (database_result state) (state_errors state) in
  (upload_id, _save_state o state).

(** The parsing loop of [process_files]. *)
Fixpoint parse_all (fs : list file_info) (parsed_files : list parsed_file)
    (state : IngestionState) (o : orchestrator)
    : list parsed_file * IngestionState * orchestrator :=
  match fs with
  | [] => (parsed_files, state, o)
  | file_info :: rest =>
      let o := log o (ParseCalled (file_path file_info)) in
      match parse_file (file_path file_info) with
      | Ok parsed => parse_all rest (parsed_files ++ [parsed])%list state o
      | Raise e =>
          let error_msg :=
            "Error parsing " +:+ file_name file_info +:+ ": " +:+ exn_str e in
          parse_all rest parsed_files (add_errors state [error_msg]) o
      end
  end.

Definition process_files (o : orchestrator) (upload_id : string)
    : response * orchestrator :=
  match _get_state o upload_id with
  | (None, o) => (RespError "Invalid upload ID" None, o)
  | (Some state, o) =>
      let state := set_stage state Parsing in
      let o := _save_state o state in
      let '(parsed_files, state, o) := parse_all (files state) [] state o in
      match parsed_files with
      | [] =>
          let state := set_stage state Failed in
          let state := add_errors state ["No files successfully parsed"] in
          let o := _save_state o state in
          (RespError "No files successfully parsed" (Some (state_errors state)), o)
      | _ =>
          let state := set_parsed_data state parsed_files in
          let state := set_stage state Analyzing in
          let o := _save_state o state in
          let o := log o (AnalyzeCalled parsed_files) in
          match analyze_files parsed_files with
          | Ok a =>
              let state := set_file_analysis state a in
              let state := set_stage state Analyzing in
              let o := _save_state o state in
              (RespProcessed upload_id (length parsed_files) a, o)
          | Raise e =>
              let state := set_stage state Failed in
              let error_msg := "Processing failed: " +:+ exn_str e in
              let state := add_errors state [error_msg] in
              let o := _save_state o state in
              (RespError error_msg None, o)
          end
      end
  end.

(** The progress callback: remember the report and save. *)
Definition report_progress (acc : IngestionState * orchestrator)
    (info : progress_info) : IngestionState * orchestrator :=
  let state := set_schema_progress (fst acc) info in
  (state, _save_state (snd acc) state).

Definition generate_schema (o : orchestrator) (upload_id : string)
    : response * orchestrator :=
  match _get_state o upload_id with
  | (None, o) => (RespError "Invalid upload ID" None, o)
  | (Some state, o) =>
      match file_analysis state with
      | None => (RespError "Files must be analyzed first" None, o)
      | Some a =>
          let state := set_stage state GeneratingSchema in
          let o := _save_state o state in
          let o := log o AgentCalled in
          let '(reports, outcome) := agent_generate_schema a (requirements state) in
          let '(state, o) := fold_left report_progress reports (state, o) in
          match outcome with
          | Ok r =>
              let state := set_schema_result state r in
              let state := set_stage state AwaitingApproval in
              let o := _save_state o state in
              (RespSchema upload_id r, o)
          | Raise e =>
              let state := set_stage state Failed in
              let error_msg := "Schema generation failed: " +:+ exn_str e in
              let state := add_errors state [error_msg] in
              let o := _save_state o state in
              (RespError error_msg None, o)
          end
      end
  end.

(** [if not db_name: db_name = f"ingestion_{upload_id[:8]}"] *)
Definition choose_db_name (db_name : option string) (upload_id : string) : string :=
  match db_name with
  | Some n =>
      if String.eqb n "" then "ingestion_" +:+ String.substring 0 8 upload_id else n
  | None => "ingestion_" +:+ String.substring 0 8 upload_id
  end.

Definition finalize_ingestion (o : orchestrator) (upload_id : string)
    (db_name : option string) (approved : bool) : response * orchestrator :=
  match _get_state o upload_id with
  | (None, o) => (RespError "Invalid upload ID" None, o)
  | (Some state, o) =>
      if negb approved then
        let state := set_stage state AwaitingApproval in
        let o := _save_state o state in
        (RespMessage "Schema not approved, awaiting edits", o)
      else
        match schema_result_of state with
        | None => (RespError "Schema must be generated first" None, o)
        | Some r =>
            let state := set_stage state CreatingDatabase in
            let o := _save_state o state in
            let db_name := choose_db_name db_name upload_id in
            let o := log o (BuilderCalled db_name) in
            match builder_create_database (schema_code r) db_name (parsed_data state) with
            | Ok db_result =>
                let state := set_database_result state db_result in
                let state :=
                  if success db_result then set_stage state Completed
                  else add_errors (set_stage state Failed) (errors db_result) in
                let o := _save_state o state in
                (RespFinalized upload_id db_name db_result, o)
            | Raise e =>
                let state := set_stage state Failed in
                let error_msg := "Database creation failed: " +:+ exn_str e in
                let state := add_errors state [error_msg] in
                let o := _save_state o state in
                (RespError error_msg None, o)
            end
        end
  end.

End WithCollaborators.

End IngestionOrchestrator.

(** * Definitions used to state the properties *)

Module Claims.
Import FileAnalyzer DatabaseBuilder.

(** A column qualifies as a key of [t]: as many distinct values as
    rows, and no null. *)
Definition qualifies (t : table) (col : column) : Prop :=
  unique_count col = row_count t ∧ null_count col = 0.

(** The similarity score in tenths, from the outcome of the four tests:
    +0.5, +0.3, +0.2, +0.4, capped at 1.0. *)
Definition tenths (name_eq name_sub type_eq fk : bool) : nat :=
  ((if name_eq then 5 else 0) + (if name_sub then 3 else 0)
   + (if type_eq then 2 else 0) + (if fk then 4 else 0)) `min` 10.

Definition similarity_tenths (col1 col2 : column) : nat :=
  tenths (same_name col1 col2) (similar_name col1 col2)
         (same_type col1 col2) (looks_like_fk col1 col2).

(** The naming pattern as the specification words it: one name ends in
    [_id], the other is exactly [id]. *)
Definition claimed_fk_pattern (col1 col2 : column) : bool :=
  let name1_lower := lower (col_name col1) in
  let name2_lower := lower (col_name col2) in
  (endswith name1_lower "_id" && String.eqb name2_lower "id") ||
  (endswith name2_lower "_id" && String.eqb name1_lower "id").

Definition claimed_similarity_tenths (col1 col2 : column) : nat :=
  tenths (same_name col1 col2) (similar_name col1 col2)
         (same_type col1 col2) (claimed_fk_pattern col1 col2).

(** Whether the analyzer reports the column pair as a relationship. *)
Definition reported (col1 col2 : column) : bool :=
  PrimFloat.ltb 0.5 (_calculate_column_similarity col1 col2).

(** The same relationship, read in the other direction. *)
Definition swap_direction (r : relationship) : relationship :=
  {| from_file := to_file r; from_table := to_table r;
     from_column := to_column r;
     to_file := from_file r; to_table := from_table r;
     to_column := from_column r;
     confidence := confidence r; reason := reason r |}.

(** *** The materializer, seen from the database *)

Definition is_done (o : outcome) : bool :=
  match o with Done => true | _ => false end.

Definition is_other (o : outcome) : bool :=
  match o with OtherError _ => true | _ => false end.

(** The number of calls that ended normally. *)
Definition done_count (os : list outcome) : nat :=
  length (List.filter is_done os).

(** The warnings for the rows of [table_name] that the database refused. *)
Definition row_warnings (table_name : string) (os : list outcome) : list string :=
  flat_map (λ o,
    match o with
    | SqliteError e => [ "Error inserting row into " +:+ table_name +:+ ": " +:+ e ]
    | _ => []
    end) os.

(** The errors for the statements that the database refused. *)
Definition statement_errors (os : list outcome) : list string :=
  flat_map (λ o,
    match o with
    | SqliteError e => [ "Error creating table: " +:+ e ]
    | _ => []
    end) os.

Section Outcomes.
Context {conn : Type}.
Variable execute : conn → string → list sql_value → conn * outcome.

(** How the database answers when each statement is executed in turn. *)
Fixpoint statement_outcomes (c : conn) (statements : list string)
    : conn * list outcome :=
  match statements with
  | [] => (c, [])
  | sql :: rest =>
      let '(c, o) := execute c sql [] in
      let '(c', os) := statement_outcomes c rest in
      (c', o :: os)
  end.

(** How the database answers when each row of [data] is inserted in
    turn with the statement [sql] over the columns [col_names]. *)
Fixpoint row_outcomes (c : conn) (sql : string) (col_names : list string)
    (data : list row) : conn * list outcome :=
  match data with
  | [] => (c, [])
  | r :: rest =>
      let '(c, o) := execute c sql (row_values col_names r) in
      let '(c', os) := row_outcomes c sql col_names rest in
      (c', o :: os)
  end.

Definition table_outcomes (c : conn) (t : table) : conn * list outcome :=
  match tbl_data t with
  | [] => (c, [])
  | first :: _ =>
      row_outcomes c (insert_sql (tbl_name t) (keys first)) (keys first)
        (tbl_data t)
  end.

(** Every table with the answers for its rows, table after table. *)
Fixpoint load_outcomes (c : conn) (tables : list table)
    : conn * list (table * list outcome) :=
  match tables with
  | [] => (c, [])
  | t :: rest =>
      let '(c, os) := table_outcomes c t in
      let '(c', oss) := load_outcomes c rest in
      (c', (t, os) :: oss)
  end.

End Outcomes.

(** [result["rows_inserted"][table_name] = inserted], with the count
    read off the answers of the database. *)
Definition record_count (m : gmap string nat) (p : table * list outcome)
    : gmap string nat :=
  <[ tbl_name p.1 := done_count p.2 ]> m.


(** *** The orchestrator, seen from outside *)

Section Journal.
Import IngestionOrchestrator.
Context {analysis : Type}.

(** The stages written to disk, in order. *)
Definition stages_saved (evs : list (@event analysis)) : list stage :=
  flat_map (λ ev,
    match ev with
    | Saved snapshot => [stage_of snapshot]
    | _ => []
    end) evs.


Definition is_analyze_call (ev : @event analysis) : bool :=
  match ev with AnalyzeCalled _ => true | _ => false end.

Definition is_builder_call (ev : @event analysis) : bool :=
  match ev with BuilderCalled _ => true | _ => false end.

Variable parse_file : string → result parsed_file.

(** The files that parse, and the messages for those that do not. *)
Definition parsed_ok (fs : list file_info) : list parsed_file :=
  flat_map (λ f,
    match parse_file (file_path f) with
    | Ok parsed => [parsed]
    | Raise _ => []
    end) fs.

Definition parse_errors (fs : list file_info) : list string :=
  flat_map (λ f,
    match parse_file (file_path f) with
    | Ok _ => []
    | Raise e => [ "Error parsing " +:+ file_name f +:+ ": " +:+ exn_str e ]
    end) fs.

End Journal.

(** *** Shapes of the replies of the synthesis service *)

Section Replies.
Import Json.

Definition is_object (v : json) : bool :=
  match v with JDict _ => true | _ => false end.


(** An issue whose severity is "critical". *)
Definition is_critical (v : json) : bool :=
  match v with
  | JDict fields =>
      match assoc fields "severity" with
      | Some s => eq_str s "critical"
      | None => false
      end
  | _ => false
  end.







End Replies.

(** *** Runs of the schema agent *)

Section Runs.
Import Json SchemaAgent.



End Runs.

End Claims.

(** * Example inputs *)

Module Examples.
Import FileAnalyzer.

Definition users : table :=
  {| tbl_name := "users"; row_count := 3;
     tbl_columns :=
       [ Column "id" "integer" 0 3;
         Column "name" "string" 0 2;
         Column "email" "string" 1 2 ];
     tbl_data := [] |}.

Definition no_rows : table :=
  {| tbl_name := "visits"; row_count := 0;
     tbl_columns := [ Column "id" "integer" 0 0 ];
     tbl_data := [] |}.

Definition old_ref : column := Column "patient_id_old" "string" 0 3.
Definition plain_id : column := Column "id" "integer" 0 3.

(** *** Inputs of the materializer *)

Import DatabaseBuilder.

Definition models_code : string :=
  join nl
    [ "from flask_sqlalchemy import SQLAlchemy";
      "";
      "class Patient(db.Model):";
      "    __tablename__ = 'patients'";
      "    id = db.Column(db.Integer, primary_key=True)";
      "    name = db.Column(db.String(50), nullable=False)";
      "";
      "    def __repr__(self):";
      "        return '<Patient>'";
      "";
      "class Encounter(db.Model):";
      "    __tablename__ = 'encounters'";
      "    patient_id = db.Column(db.Integer)";
      "    department = db.Column(db.String(50))" ].

Definition patient_columns : list column :=
  [ Column "id" "integer" 0 10; Column "name" "string" 1 1 ].

(** Row [i] of ten; the fifth has no name. *)
Definition patient_row (i : nat) : row :=
  [ ("id", PyInt (Z.of_nat i));
    ("name", if (i =? 5)%nat then PyNone else PyStr "Ann") ].

Definition ten_patients : table :=
  Table "patients" patient_columns 10 (map patient_row (seq 1 10)).






(** *** A job for the orchestrator *)

Import SchemaAgent IngestionOrchestrator.

(** A parser that knows one file. *)
Definition parse_one (path : string) : result parsed_file :=
  if String.eqb path "uploads/42/patients.csv"
  then Ok (ParsedFile "patients.csv" "csv" [ten_patients])
  else Raise (Exn "FileNotFoundError" ("File not found: " +:+ path)).

(** An analyzer that only counts the tables. *)
Definition count_tables (parsed_files : list parsed_file) : result nat :=
  Ok (length (flat_map tables parsed_files)).

Definition two_files : list file_info :=
  [ FileInfo "patients.csv" "uploads/42/patients.csv";
    FileInfo "notes.pdf" "uploads/42/notes.pdf" ].

Definition empty_orchestrator : @orchestrator nat :=
  {| states := ∅; disk := ∅; trace := [] |}.

Definition started : @orchestrator nat :=
  (start_ingestion empty_orchestrator "42" two_files "one table of patients").2.

(** A builder that always succeeds with one table. *)
Definition build_ok (schema_code db_name : string)
    (parsed_data : option (list parsed_file)) : result build_result :=
  Ok {| success := true; db_path := Some ("instance/" +:+ db_name +:+ ".db");
        tables_created := 1; rows_inserted := ∅; errors := []; warnings := [] |}.

Definition a_schema : schema_result :=
  {| schema_code := models_code; schema_description := "";
     verification_status := Json.JBool true; sr_warnings := Json.JList [];
     relationships_detected := Json.JList []; refinement_history := [];
     rounds_taken := 1 |}.

(** An agent that converges in one round without reporting progress. *)
Definition agent_ok (a : nat) (requirements : string)
    : list progress_info * result schema_result :=
  ([], Ok a_schema).

(** The job after parsing, analysis and schema generation. *)
Definition awaiting : @orchestrator nat :=
  (IngestionOrchestrator.generate_schema agent_ok
     (process_files parse_one count_tables started "42").2 "42").2.

(** The job when approval is withheld right after the upload. *)
Definition refused_early : @orchestrator nat :=
  (finalize_ingestion build_ok started "42" None false).2.

(** The state of that job once the schema awaits approval. *)
Definition awaiting_state : @IngestionState nat :=
  {| upload_id := "42"; stage_of := AwaitingApproval; files := two_files;
     requirements := "one table of patients";
     parsed_data := Some [ ParsedFile "patients.csv" "csv" [ten_patients] ];
     file_analysis := Some 1;
     schema_result_of := Some a_schema;
     schema_progress := None; database_result := None;
     state_errors :=
       [ "Error parsing notes.pdf: File not found: uploads/42/notes.pdf" ] |}.

(** *** Replies of the synthesis service *)

Import Json.

Definition a_warning : json :=
  JDict [ ("severity", JStr "warning"); ("category", JStr "design");
          ("description", JStr "no index on patient_id");
          ("suggestion", JStr "add an index") ].

(** A report that the service marks insufficient for a warning alone. *)
Definition warned_report : json :=
  JDict [ ("is_sufficient", JBool false); ("issues", JList [a_warning]) ].



Definition service_good (n : nat) : result string :=
  Ok (if (n `mod` 3 =? 0)%nat then "plan"
      else if (n `mod` 3 =? 1)%nat then "code" else "report").

Definition a_plan : json :=
  JDict [ ("tables",
           JList [ JDict [ ("name", JStr "patients");
                           ("purpose", JStr "one row per patient");
                           ("columns",
                            JList [ JDict [ ("name", JStr "id");
                                            ("type", JStr "Integer");
                                            ("primary_key", JBool true) ];
                                    JDict [ ("name", JStr "name");
                                            ("type", JStr "String(50)");
                                            ("nullable", JBool false) ] ]) ] ]);
          ("relationships", JList []) ].

(** [json.loads] on the three texts above. *)
Definition loads (content : string) : result json :=
  if String.eqb content "plan" then Ok a_plan
  else if String.eqb content "report" then Ok warned_report
  else Raise (Exn "JSONDecodeError" "Expecting value: line 1 column 1 (char 0)").

(** [str] on the JSON strings; other values are not printed here. *)
Definition show (v : json) : string :=
  match v with
  | JStr s => s
  | _ => ""
  end.

Definition narrative : SchemaAgent.file_analysis :=
  FileAnalysis "Dataset contains 1 file(s) with 1 table(s) and a total of 10 rows.".

Definition fresh : world := World 0 [].

Definition run_agent (chat : nat → result string) : result schema_result * world :=
  SchemaAgent.generate_schema chat loads show 10 true narrative
    "one table of patients" fresh.

End Examples.

(** ** src/data_ingestion/supported_formats.py *)

Module SupportedFormats.

Inductive FileFormat :=
| CSV
| JSON
| XLSX
| XLS
| TXT
| TSV.

#[export] Instance FileFormat_eq_dec : EqDecision FileFormat.
Proof. solve_decision. Defined.

(** [file_format.value] *)
Definition value (file_format : FileFormat) : string :=
  match file_format with
  | CSV => "csv"
  | JSON => "json"
  | XLSX => "xlsx"
  | XLS => "xls"
  | TXT => "txt"
  | TSV => "tsv"
  end.

(** [str(file_format)] *)
Definition name_of (file_format : FileFormat) : string :=
  match file_format with
  | CSV => "FileFormat.CSV"
  | JSON => "FileFormat.JSON"
  | XLSX => "FileFormat.XLSX"
  | XLS => "FileFormat.XLS"
  | TXT => "FileFormat.TXT"
  | TSV => "FileFormat.TSV"
  end.

Definition EXTENSION_MAP : list (string * FileFormat) :=
  [ (".csv", CSV); (".json", JSON); (".jsonl", JSON); (".xlsx", XLSX);
    (".xls", XLS); (".txt", TXT); (".tsv", TSV) ].

Definition MAX_FILE_SIZES : list (FileFormat * Z) :=
  [ (CSV, 100 * 1024 * 1024); (JSON, 100 * 1024 * 1024);
    (XLSX, 50 * 1024 * 1024); (XLS, 50 * 1024 * 1024);
    (TXT, 100 * 1024 * 1024); (TSV, 100 * 1024 * 1024) ]%Z.

(** [d.get(key)] for a dictionary literal given by its items. *)
Fixpoint dict_get {K V} `{EqDecision K} (d : list (K * V)) (key : K)
    : option V :=
  match d with
  | [] => None
  | (k, v) :: d' => if decide (k = key) then Some v else dict_get d' key
  end.

Definition is_supported (extension : string) : bool :=
  let ext := lower extension in
  let ext := if negb (startswith ext ".") then "." +:+ ext else ext in
  bool_decide (ext ∈ map fst EXTENSION_MAP).

Definition get_format (extension : string) : option FileFormat :=
  let ext := lower extension in
  let ext := if negb (startswith ext ".") then "." +:+ ext else ext in
  dict_get EXTENSION_MAP ext.

Definition get_supported_extensions : list string := map fst EXTENSION_MAP.

Definition get_max_file_size (file_format : FileFormat) : Z :=
  default (10 * 1024 * 1024)%Z (dict_get MAX_FILE_SIZES file_format).

End SupportedFormats.

(** ** src/data_ingestion/file_parser.py: [parse_file] *)

Module FileParser.
Import SupportedFormats.

Definition FileNotFoundError (msg : string) : exn := Exn "FileNotFoundError" msg.
Definition ValueError (msg : string) : exn := Exn "ValueError" msg.

Section WithFiles.

(** The file system as [pathlib] shows it: whether the path exists,
    the size of the file, [Path(p).suffix] and [str(Path(p))]. *)
Variable path_exists : string → bool.
Variable st_size : string → Z.
Variable suffix : string → string.
Variable path_str : string → string.

(** The parsers of the four families of formats. *)
Variable _parse_csv : string → FileFormat → result parsed_file.
Variable _parse_json : string → result parsed_file.
Variable _parse_excel : string → result parsed_file.
Variable _parse_txt : string → result parsed_file.

Definition parse_file (file_path : string) : result parsed_file :=
  if negb (path_exists file_path) then
    Raise (FileNotFoundError ("File not found: " +:+ path_str file_path))
  else
    let extension := lower (suffix file_path) in
    match get_format extension with
    | None => Raise (ValueError ("Unsupported file format: " +:+ extension))
    | Some file_format =>
        let file_size := st_size file_path in
        let max_size := get_max_file_size file_format in
        if (max_size <? file_size)%Z then
          Raise (ValueError ("File size (" +:+ pretty file_size
                             +:+ " bytes) exceeds maximum allowed ("
                             +:+ pretty max_size +:+ " bytes)"))
        else if bool_decide (file_format ∈ [CSV; TSV]) then
          _parse_csv file_path file_format
        else if bool_decide (file_format = JSON) then _parse_json file_path
        else if bool_decide (file_format ∈ [XLSX; XLS]) then
          _parse_excel file_path
        else if bool_decide (file_format = TXT) then _parse_txt file_path
        else Raise (ValueError ("Parser not implemented for format: "
                                +:+ name_of file_format))
    end.

End WithFiles.

End FileParser.

(** ** src/app.py: the filter of the upload route *)

Module App.

Definition ALLOWED_EXTENSIONS : list string :=
  [ "csv"; "json"; "jsonl"; "xlsx"; "xls"; "txt"; "tsv" ].

(** [s.rsplit(sep, 1)] for a separator of one character. *)
Fixpoint rsplit1 (s : string) (sep : ascii) : list string :=
  match s with
  | EmptyString => [""]
  | String c s' =>
      match rsplit1 s' sep with
      | [rest] => if Ascii.eqb c sep then [""; rest] else [String c rest]
      | before :: l => String c before :: l
      | [] => []
      end
  end.

Definition allowed_file (filename : string) : result bool :=
  if str_in "." filename then
    ext ← index (rsplit1 filename "."%char) 1;
    Ok (bool_decide (lower ext ∈ ALLOWED_EXTENSIONS))
  else Ok false.

End App.

(** ** src/agents/ingestion_orchestrator.py: the two queries *)

Module IngestionQueries.
Import SchemaAgent DatabaseBuilder IngestionOrchestrator.

Section Queries.
Context {analysis : Type}.

(** What [IngestionState.to_dict] shows of a job. *)
Record status := Status {
  st_upload_id : string;
  st_stage : string;
  st_files : list file_info;
  st_requirements : string;
  has_parsed_data : bool;
  has_analysis : bool;
  has_schema : bool;
  has_database : bool;
  st_schema_progress : option progress_info;
  st_errors : list string
}.

Definition to_dict (s : @IngestionState analysis) : status :=
  {| st_upload_id := upload_id s;
     st_stage := stage_name (stage_of s);
     st_files := files s;
     st_requirements := requirements s;
     has_parsed_data := match parsed_data s with Some _ => true | None => false end;
     has_analysis := match file_analysis s with Some _ => true | None => false end;
     has_schema := match schema_result_of s with Some _ => true | None => false end;
     has_database := match database_result s with Some _ => true | None => false end;
     st_schema_progress := schema_progress s;
     st_errors := state_errors s |}.

(** Either [{"error": ...}] or the answer. *)
Definition get_status (o : @orchestrator analysis) (upload_id : string)
    : (string + status) * @orchestrator analysis :=
  match _get_state o upload_id with
  | (None, o) => (inl "Invalid upload ID", o)
  | (Some state, o) => (inr (to_dict state), o)
  end.

(** What [get_schema] shows of a schema result. *)
Record schema_view := SchemaView {
  sv_upload_id : string;
  sv_schema_code : string;
  sv_schema_description : string;
  sv_verification_status : Json.json;
  sv_warnings : Json.json;
  sv_relationships : Json.json;
  sv_refinement_history : list round_record;
  sv_rounds_taken : nat
}.

Definition get_schema (o : @orchestrator analysis) (upload_id : string)
    : (string + schema_view) * @orchestrator analysis :=
  match _get_state o upload_id with
  | (None, o) => (inl "Invalid upload ID", o)
  | (Some state, o) =>
      match schema_result_of state with
      | None => (inl "Schema not yet generated", o)
      | Some r =>
          (inr {| sv_upload_id := upload_id;
                  sv_schema_code := schema_code r;
                  sv_schema_description := schema_description r;
                  sv_verification_status := verification_status r;
                  sv_warnings := sr_warnings r;
                  sv_relationships := relationships_detected r;
                  sv_refinement_history := refinement_history r;
                  sv_rounds_taken := rounds_taken r |}, o)
      end
  end.

End Queries.

End IngestionQueries.

(** ** The orchestrator with the schema agent of this repository *)

Module Wiring.
Import SchemaAgent.

Section Wired.
Variable chat : nat → result string.
Variable json_loads : string → result Json.json.
Variable py_str : Json.json → string.
Variable max_rounds : nat.

(** [self.schema_agent.generate_schema(file_analysis=..., requirements=...,
    progress_callback=progress_callback)] as the orchestrator calls it,
    when the service is at its request number [n]: what the callback was
    told, in order, and how the call ended. *)
Definition agent_generate_schema (n : nat) (fa : file_analysis)
    (requirements : string) : list progress_info * result schema_result :=
  let '(outcome, w) :=
    SchemaAgent.generate_schema chat json_loads py_str max_rounds true
      fa requirements {| calls := n; progress := [] |} in
  (progress w, outcome).

End Wired.

End Wiring.

(** ** Notions used to state the properties below *)

Module Properties.
Import DatabaseBuilder.

(** A statement as [_generate_create_table_sql] appends it: built for
    a table name and at least one column. *)
Definition built (sql : string) : Prop :=
  ∃ table_name columns,
    sql = _build_create_table_sql table_name columns ∧
    table_name ≠ "" ∧ columns ≠ [].


Import Json SchemaAgent.

(** A round of the refinement loop that asked for another one: its
    report is not sufficient and the router names a critical issue. *)
Definition refining (rr : round_record) : Prop :=
  ∃ v description,
    rr_verification rr = Some v ∧
    getitem v "is_sufficient" = Ok (JBool false) ∧
    rr_action rr
    = Some (Action "refine" ("Fix critical issue: " +:+ description)).

(** A round that ended the loop: its report is sufficient and no
    action was recorded. *)
Definition settled (rr : round_record) : Prop :=
  ∃ v flag,
    rr_verification rr = Some v ∧
    getitem v "is_sufficient" = Ok flag ∧ truthy flag = true ∧
    rr_action rr = None.

(** [m], when it returns, has sent exactly [k] requests to the service
    and reported no progress. *)
Definition quiet {A} (k : nat) (m : M A) : Prop :=
  ∀ w a w1, m w = (Ok a, w1) →
    calls w1 = calls w + k ∧ progress w1 = progress w.

Section Orchestrator.
Import IngestionOrchestrator.
Context {analysis : Type}.


Definition is_parse_call (ev : @event analysis) : bool :=
  match ev with ParseCalled _ => true | _ => false end.

Definition is_agent_call (ev : @event analysis) : bool :=
  match ev with AgentCalled => true | _ => false end.

Definition is_saved (ev : @event analysis) : bool :=
  match ev with Saved _ => true | _ => false end.

(** How often the events [evs] call a collaborator of the kind [kind]. *)
Definition count_calls (kind : @event analysis → bool)
    (evs : list (@event analysis)) : nat :=
  length (List.filter kind evs).

End Orchestrator.

End Properties.

(** * Properties of the file analyzer *)

Module FileAnalyzerFacts.
Import FileAnalyzer Claims.

Lemma max_by_spec {A} (key : A → nat) (l : list A) : ∀ best,
  let m := max_by key best l in
  (m = best ∨ m ∈ l) ∧ key best ≤ key m ∧ ∀ x, x ∈ l → key x ≤ key m.
Proof.
  induction l as [|x l IH]; intros best; simpl.
  - split; [by left|]. split; [lia|]. intros x Hx. by apply elem_of_nil in Hx.
  - destruct (IH (if (key best <? key x)%nat then x else best)) as (Hin & Hle & Hall).
    destruct (Nat.ltb_spec (key best) (key x)) as [Hlt|Hge].
    + split; [destruct Hin as [->|Hin]; right; [left|by right]|].
      split; [lia|]. intros y [->|Hy]%elem_of_cons; [done|by apply Hall].
    + split; [destruct Hin as [->|Hin]; [by left|right; by right]|].
      split; [done|]. intros y [->|Hy]%elem_of_cons; [lia|by apply Hall].
Qed.

Lemma is_pk_candidate_qualifies t col :
  is_pk_candidate t col = true ↔ qualifies t col.
Proof.
  unfold is_pk_candidate, qualifies.
  rewrite andb_true_iff, !Nat.eqb_eq. done.
Qed.

Lemma elem_of_pk_candidates t c :
  c ∈ pk_candidates t ↔
  ∃ col, col ∈ tbl_columns t ∧ qualifies t col ∧
    c = {| cand_column := col_name col; cand_score := pk_score col;
           cand_reason := "Unique values, no nulls, type: " +:+ col_type col |}.
Proof.
  unfold pk_candidates. rewrite list_elem_of_In, in_flat_map. split.
  - intros (col & Hcol & Hc). exists col.
    apply list_elem_of_In in Hcol. split; [done|].
    destruct (is_pk_candidate t col) eqn:E.
    + apply is_pk_candidate_qualifies in E. split; [done|].
      destruct Hc as [<-|[]]. done.
    + destruct Hc.
  - intros (col & Hcol & Hq & ->). exists col.
    apply list_elem_of_In in Hcol. split; [done|].
    apply is_pk_candidate_qualifies in Hq. rewrite Hq. by left.
Qed.

Lemma pk_score_sum col :
  pk_score col =
    100
    + (if str_in "id" (lower (col_name col)) then 50 else 0)
    + (if endswith (lower (col_name col)) "_id"
          || String.eqb (lower (col_name col)) "id" then 25 else 0)
    + (if String.eqb (col_type col) "integer" then 25 else 0).
Proof.
  unfold pk_score.
  destruct (str_in _ _), (endswith _ _ || _), (String.eqb (col_type col) _);
    reflexivity.
Qed.

Lemma suggest_some t s :
  _suggest_primary_key t = Some s →
  ∃ best, best ∈ tbl_columns t ∧ qualifies t best ∧
    (∀ col, col ∈ tbl_columns t → qualifies t col → pk_score col ≤ pk_score best) ∧
    pk_column s = col_name best ∧
    pk_confidence s = (if 150 <=? pk_score best then "high" else "medium").
Proof.
  unfold _suggest_primary_key.
  destruct (row_count t =? 0); [done|].
  destruct (pk_candidates t) as [|c cs] eqn:Hc; [done|].
  intros [= <-]. simpl.
  destruct (max_by_spec cand_score cs c) as (Hin & _ & Hmax).
  assert (Hbest : max_by cand_score c cs ∈ pk_candidates t).
  { rewrite Hc. destruct Hin as [->|Hin]; [left|by right]. }
  apply elem_of_pk_candidates in Hbest as (best & Hbest & Hq & Heq).
  exists best. rewrite Heq. simpl. repeat split; try done; try apply Hq.
  intros col Hcol Hqc.
  assert (Hcand : {| cand_column := col_name col; cand_score := pk_score col;
                     cand_reason := "Unique values, no nulls, type: " +:+ col_type col |}
                  ∈ pk_candidates t).
  { apply elem_of_pk_candidates. by exists col. }
  rewrite Hc in Hcand. rewrite Heq in Hin, Hmax.
  apply elem_of_cons in Hcand as [Hhd|Htl].
  - destruct (max_by_spec cand_score cs c) as (_ & Hle & _).
    rewrite Heq, <- Hhd in Hle. exact Hle.
  - apply Hmax in Htl. exact Htl.
Qed.

Lemma suggest_none t :
  0 < row_count t →
  _suggest_primary_key t = None ↔
  ∀ col, col ∈ tbl_columns t → ¬ qualifies t col.
Proof.
  intros Hrows. unfold _suggest_primary_key.
  destruct (Nat.eqb_spec (row_count t) 0) as [E|_]; [lia|].
  destruct (pk_candidates t) as [|c cs] eqn:Hc.
  - split; [|done]. intros _ col Hcol Hq.
    assert (Hcand : {| cand_column := col_name col; cand_score := pk_score col;
                       cand_reason := "Unique values, no nulls, type: " +:+ col_type col |}
                    ∈ pk_candidates t).
    { apply elem_of_pk_candidates. by exists col. }
    rewrite Hc in Hcand. by apply elem_of_nil in Hcand.
  - split; [done|]. intros Hno.
    assert (Hin : c ∈ pk_candidates t) by (rewrite Hc; left).
    apply elem_of_pk_candidates in Hin as (col & Hcol & Hq & _).
    by destruct (Hno col Hcol).
Qed.

(** C4: for a table with at least one row, [_suggest_primary_key]
    scores a column as 100, +50 when the lower-cased name contains "id",
    +25 when the lower-cased name is "id" or ends in "_id", +25 when the
    type is "integer"; it gives no suggestion exactly when no column has
    [unique_count = row_count] and [null_count = 0]; a suggestion names a
    qualifying column whose score no qualifying column exceeds, with
    confidence "high" when that score is at least 150 and "medium"
    otherwise; and when the only column with [unique_count = row_count]
    is a null-free column named "id", the suggestion is that column with
    confidence "high". *)
Theorem suggest_primary_key_spec (t : table) :
  0 < row_count t →
  (∀ col, pk_score col =
     100
     + (if str_in "id" (lower (col_name col)) then 50 else 0)
     + (if endswith (lower (col_name col)) "_id"
           || String.eqb (lower (col_name col)) "id" then 25 else 0)
     + (if String.eqb (col_type col) "integer" then 25 else 0)) ∧
  (_suggest_primary_key t = None ↔
     ∀ col, col ∈ tbl_columns t → ¬ qualifies t col) ∧
  (∀ s, _suggest_primary_key t = Some s →
     ∃ best, best ∈ tbl_columns t ∧ qualifies t best ∧
       (∀ col, col ∈ tbl_columns t → qualifies t col →
          pk_score col ≤ pk_score best) ∧
       pk_column s = col_name best ∧
       pk_confidence s = (if 150 <=? pk_score best then "high" else "medium")) ∧
  (∀ pre id_col post,
     tbl_columns t = (pre ++ id_col :: post)%list →
     col_name id_col = "id" → qualifies t id_col →
     (∀ col, col ∈ (pre ++ post)%list → unique_count col ≠ row_count t) →
     ∃ s, _suggest_primary_key t = Some s ∧
          pk_column s = "id" ∧ pk_confidence s = "high").
Proof.
  intros Hrows. split; [exact pk_score_sum|].
  split; [by apply suggest_none|].
  split; [intros s; apply suggest_some|].
  intros pre id_col post Hcols Hname Hq Hothers.
  destruct (_suggest_primary_key t) as [s|] eqn:Hs.
  - exists s. split; [done|].
    destruct (suggest_some t s Hs) as (best & Hbest & Hqb & _ & Hcol & Hconf).
    assert (best = id_col) as ->.
    { rewrite Hcols in Hbest.
      apply elem_of_app in Hbest as [Hin|[->|Hin]%elem_of_cons]; [|done|].
      - destruct (Hothers best); [apply elem_of_app; by left|apply Hqb].
      - destruct (Hothers best); [apply elem_of_app; by right|apply Hqb]. }
    rewrite Hcol, Hconf, pk_score_sum, Hname. split; [done|].
    simpl. by destruct (String.eqb (col_type id_col) "integer").
  - pose proof (proj1 (suggest_none t Hrows) Hs) as Hno.
    destruct (Hno id_col); [|done].
    rewrite Hcols. apply elem_of_app. right. left.
Qed.

(** C4 at a three-column table whose only unique column is [id]. *)
Lemma suggest_primary_key_spec_witness :
  ∃ s, _suggest_primary_key Examples.users = Some s ∧
       pk_column s = "id" ∧ pk_confidence s = "high".
Proof.
  assert (H : 0 < row_count Examples.users) by (simpl; lia).
  apply (proj2 (proj2 (proj2 (suggest_primary_key_spec Examples.users H)))
           [] (Column "id" "integer" 0 3)
           [Column "name" "string" 0 2; Column "email" "string" 1 2]).
  - reflexivity.
  - reflexivity.
  - split; reflexivity.
  - intros col Hcol. simpl in Hcol.
    apply elem_of_cons in Hcol as [->|Hcol]; [simpl; lia|].
    apply elem_of_cons in Hcol as [->|Hcol]; [simpl; lia|].
    by apply elem_of_nil in Hcol.
Defined.

Lemma high_null_issues_empty format_1f t :
  row_count t = 0 → high_null_issues format_1f t = [].
Proof.
  intros Hrows. unfold high_null_issues, null_pct. rewrite Hrows. simpl.
  induction (tbl_columns t) as [|col cols IH]; [done|]. simpl. exact IH.
Qed.

Lemma detect_issues_empty format_1f t :
  row_count t = 0 → _detect_data_quality_issues format_1f t = Ok [].
Proof.
  intros Hrows. unfold _detect_data_quality_issues.
  rewrite high_null_issues_empty by done. rewrite Hrows. simpl.
  by rewrite andb_false_r.
Qed.

Lemma suggest_empty t : row_count t = 0 → _suggest_primary_key t = None.
Proof. intros Hrows. unfold _suggest_primary_key. by rewrite Hrows. Qed.

Lemma suggested_primary_keys_skip l2 : ∀ (l1 : list table_info) ti keys,
  row_count (the_table ti) = 0 →
  fold_left add_pk_suggestion (l1 ++ ti :: l2)%list keys
  = fold_left add_pk_suggestion (l1 ++ l2)%list keys.
Proof.
  induction l1 as [|x l1 IH]; intros ti keys Hrows; simpl.
  - unfold add_pk_suggestion at 2. by rewrite suggest_empty.
  - by apply IH.
Qed.

(** C9: a table with [row_count = 0] gets no primary-key suggestion and
    no data-quality finding, although each of its columns with no
    distinct value and no null meets the qualification rule; in
    [analyze_files] the suggested keys and the findings are those of the
    other tables alone. *)
Theorem empty_table_no_findings (format_1f : float → string) (t : table) :
  row_count t = 0 →
  _suggest_primary_key t = None ∧
  _detect_data_quality_issues format_1f t = Ok [] ∧
  (∀ col, unique_count col = 0 → null_count col = 0 → qualifies t col) ∧
  (∀ file before after,
     suggested_primary_keys (before ++ TableInfo file t :: after)%list
     = suggested_primary_keys (before ++ after)%list ∧
     data_quality_issues format_1f (before ++ TableInfo file t :: after)%list
     = data_quality_issues format_1f (before ++ after)%list).
Proof.
  intros Hrows.
  split; [by apply suggest_empty|].
  split; [by apply detect_issues_empty|].
  split; [intros col Hu Hn; split; congruence|].
  intros file before after. split.
  - unfold suggested_primary_keys. by apply suggested_primary_keys_skip.
  - induction before as [|x before IH]; simpl.
    + rewrite detect_issues_empty by done. simpl.
      by destruct (data_quality_issues format_1f after).
    + by rewrite IH.
Qed.

(** C9 at a table with one column and no row. *)
Lemma empty_table_no_findings_witness :
  _suggest_primary_key Examples.no_rows = None ∧
  _detect_data_quality_issues (λ _, "") Examples.no_rows = Ok [].
Proof.
  assert (H : row_count Examples.no_rows = 0) by reflexivity.
  split.
  - exact (proj1 (empty_table_no_findings (λ _, "") Examples.no_rows H)).
  - exact (proj1 (proj2 (empty_table_no_findings (λ _, "") Examples.no_rows H))).
Defined.

(** *** Relationship detection *)

Lemma reported_tenths col1 col2 :
  reported col1 col2 = (5 <? similarity_tenths col1 col2).
Proof.
  unfold reported, _calculate_column_similarity, similarity_tenths, tenths.
  destruct (same_name col1 col2), (similar_name col1 col2),
    (same_type col1 col2), (looks_like_fk col1 col2);
    vm_compute; reflexivity.
Qed.

Lemma high_tenths col1 col2 :
  PrimFloat.ltb 0.8 (_calculate_column_similarity col1 col2)
  = (8 <? similarity_tenths col1 col2).
Proof.
  unfold _calculate_column_similarity, similarity_tenths, tenths.
  destruct (same_name col1 col2), (similar_name col1 col2),
    (same_type col1 col2), (looks_like_fk col1 col2);
    vm_compute; reflexivity.
Qed.

Lemma similarity_sum col1 col2 :
  _calculate_column_similarity col1 col2 =
    fmin (0
          + (if same_name col1 col2 then 0.5 else 0)
          + (if similar_name col1 col2 then 0.3 else 0)
          + (if same_type col1 col2 then 0.2 else 0)
          + (if looks_like_fk col1 col2 then 0.4 else 0))%float 1%float.
Proof.
  unfold _calculate_column_similarity.
  destruct (same_name col1 col2), (similar_name col1 col2),
    (same_type col1 col2), (looks_like_fk col1 col2);
    vm_compute; reflexivity.
Qed.

Lemma similarity_capped col1 col2 :
  PrimFloat.leb (_calculate_column_similarity col1 col2) 1 = true.
Proof.
  unfold _calculate_column_similarity.
  destruct (same_name col1 col2), (similar_name col1 col2),
    (same_type col1 col2), (looks_like_fk col1 col2);
    vm_compute; reflexivity.
Qed.

Lemma elem_of_relate t1 t2 col1 col2 r :
  r ∈ relate t1 t2 col1 col2 ↔
  5 < similarity_tenths col1 col2 ∧
  r = {| from_file := source_file t1;
         from_table := tbl_name (the_table t1);
         from_column := col_name col1;
         to_file := source_file t2;
         to_table := tbl_name (the_table t2);
         to_column := col_name col2;
         confidence :=
           if 8 <? similarity_tenths col1 col2 then "high" else "medium";
         reason := _get_relationship_reason col1 col2 |}.
Proof.
  unfold relate. rewrite high_tenths.
  pose proof (reported_tenths col1 col2) as Hrep. unfold reported in Hrep.
  rewrite Hrep.
  destruct (Nat.ltb_spec 5 (similarity_tenths col1 col2)) as [Hlt|Hge].
  - rewrite list_elem_of_singleton. split; [intros ->; by split|by intros [_ ->]].
  - split; [by intros ?%elem_of_nil|]. intros [? _]. lia.
Qed.

Lemma elem_of_relate_tables t1 t2 r :
  r ∈ relate_tables t1 t2 ↔
  ∃ col1 col2,
    col1 ∈ tbl_columns (the_table t1) ∧ col2 ∈ tbl_columns (the_table t2) ∧
    r ∈ relate t1 t2 col1 col2.
Proof.
  unfold relate_tables. rewrite list_elem_of_In, in_flat_map. split.
  - intros (col1 & H1 & Hr). apply in_flat_map in Hr as (col2 & H2 & Hr).
    exists col1, col2. by rewrite !list_elem_of_In.
  - intros (col1 & col2 & H1 & H2 & Hr). exists col1.
    split; [by apply list_elem_of_In|].
    apply in_flat_map. exists col2. by rewrite <- !list_elem_of_In.
Qed.

Lemma elem_of_detect all_tables r :
  r ∈ _detect_relationships all_tables ↔
  ∃ l1 t1 l2 t2 l3,
    all_tables = (l1 ++ t1 :: l2 ++ t2 :: l3)%list ∧ r ∈ relate_tables t1 t2.
Proof.
  induction all_tables as [|t rest IH]; simpl.
  - split; [by intros ?%elem_of_nil|].
    intros (l1 & t1 & l2 & t2 & l3 & Heq & _). by destruct l1.
  - rewrite elem_of_app, IH, list_elem_of_In, in_flat_map. split.
    + intros [(t2 & Hin & Hr)|(l1 & t1 & l2 & t2 & l3 & -> & Hr)].
      * apply list_elem_of_In, list_elem_of_split in Hin as (l2 & l3 & ->).
        exists [], t, l2, t2, l3. split; [done|]. by apply list_elem_of_In.
      * exists (t :: l1), t1, l2, t2, l3. done.
    + intros (l1 & t1 & l2 & t2 & l3 & Heq & Hr).
      destruct l1 as [|t0 l1]; simpl in Heq; injection Heq as -> ->.
      * left. exists t2. split; [|by apply list_elem_of_In].
        apply list_elem_of_In, elem_of_app. right. left.
      * right. by exists l1, t1, l2, t2, l3.
Qed.

(** C5, as the code has it: the score of a column pair is +0.5 for
    identical names, +0.3 when one lower-cased name is a substring of the
    other, +0.2 for identical types, +0.4 when one lower-cased name
    contains "_id" and the other lower-cased name is exactly "id", capped
    at 1.0; over every pair of tables taken once, in list order, and every
    pair of their columns, a relationship is reported exactly when the
    score is above 0.5, with confidence "high" when it is above 0.8 and
    "medium" otherwise. *)
Theorem detect_relationships_spec :
  (∀ col1 col2,
     similarity_tenths col1 col2 =
       ((if String.eqb (col_name col1) (col_name col2) then 5 else 0)
        + (if str_in (lower (col_name col1)) (lower (col_name col2))
              || str_in (lower (col_name col2)) (lower (col_name col1))
           then 3 else 0)
        + (if String.eqb (col_type col1) (col_type col2) then 2 else 0)
        + (if (str_in "_id" (lower (col_name col1))
               && String.eqb (lower (col_name col2)) "id")
              || (str_in "_id" (lower (col_name col2))
                  && String.eqb (lower (col_name col1)) "id")
           then 4 else 0)) `min` 10) ∧
  (∀ col1 col2,
     _calculate_column_similarity col1 col2 =
       fmin (0
             + (if same_name col1 col2 then 0.5 else 0)
             + (if similar_name col1 col2 then 0.3 else 0)
             + (if same_type col1 col2 then 0.2 else 0)
             + (if looks_like_fk col1 col2 then 0.4 else 0))%float 1%float ∧
     PrimFloat.leb (_calculate_column_similarity col1 col2) 1 = true ∧
     PrimFloat.ltb 0.5 (_calculate_column_similarity col1 col2)
     = (5 <? similarity_tenths col1 col2) ∧
     PrimFloat.ltb 0.8 (_calculate_column_similarity col1 col2)
     = (8 <? similarity_tenths col1 col2)) ∧
  (∀ all_tables r,
     r ∈ _detect_relationships all_tables ↔
     ∃ l1 t1 l2 t2 l3 col1 col2,
       all_tables = (l1 ++ t1 :: l2 ++ t2 :: l3)%list ∧
       col1 ∈ tbl_columns (the_table t1) ∧
       col2 ∈ tbl_columns (the_table t2) ∧
       5 < similarity_tenths col1 col2 ∧
       r = {| from_file := source_file t1;
              from_table := tbl_name (the_table t1);
              from_column := col_name col1;
              to_file := source_file t2;
              to_table := tbl_name (the_table t2);
              to_column := col_name col2;
              confidence :=
                if 8 <? similarity_tenths col1 col2 then "high" else "medium";
              reason := _get_relationship_reason col1 col2 |}).
Proof.
  split; [reflexivity|].
  split.
  { intros col1 col2. split; [apply similarity_sum|].
    split; [apply similarity_capped|].
    split; [apply reported_tenths|apply high_tenths]. }
  intros all_tables r. rewrite elem_of_detect. split.
  - intros (l1 & t1 & l2 & t2 & l3 & Heq & Hr).
    apply elem_of_relate_tables in Hr as (col1 & col2 & H1 & H2 & Hr).
    apply elem_of_relate in Hr as [Hlt ->].
    by exists l1, t1, l2, t2, l3, col1, col2.
  - intros (l1 & t1 & l2 & t2 & l3 & col1 & col2 & Heq & H1 & H2 & Hlt & ->).
    exists l1, t1, l2, t2, l3. split; [done|].
    apply elem_of_relate_tables. exists col1, col2.
    split; [done|]. split; [done|]. by apply elem_of_relate.
Qed.

(** C5 as the specification words it fails: "patient_id_old" does not
    end in "_id", so against "id" of another type the score would be 0.3
    and the pair not reported; the code tests for "_id" anywhere in the
    name, scores 0.7 and reports the pair with confidence "medium". *)
Lemma similarity_claim_counterexample :
  claimed_similarity_tenths Examples.old_ref Examples.plain_id = 3 ∧
  reported Examples.old_ref Examples.plain_id = true ∧
  map confidence
    (_detect_relationships
       [ TableInfo "a.csv" (Table "a" [Examples.old_ref] 3 []);
         TableInfo "b.csv" (Table "b" [Examples.plain_id] 3 []) ])
  = ["medium"] ∧
  ¬ (reported Examples.old_ref Examples.plain_id = true ↔
     5 < claimed_similarity_tenths Examples.old_ref Examples.plain_id).
Proof.
  assert (H3 : claimed_similarity_tenths Examples.old_ref Examples.plain_id = 3)
    by (vm_compute; reflexivity).
  assert (Hr : reported Examples.old_ref Examples.plain_id = true)
    by (vm_compute; reflexivity).
  split; [exact H3|]. split; [exact Hr|].
  split; [vm_compute; reflexivity|].
  rewrite H3. intros [Hlt _]. specialize (Hlt Hr). lia.
Qed.

(** *** Symmetry of relationship detection *)

Lemma similarity_sym col1 col2 :
  _calculate_column_similarity col1 col2 = _calculate_column_similarity col2 col1.
Proof.
  unfold _calculate_column_similarity, same_name, similar_name, same_type,
    looks_like_fk.
  rewrite (String.eqb_sym (col_name col1)), (String.eqb_sym (col_type col1)).
  rewrite (orb_comm (str_in (lower (col_name col1)) _)).
  rewrite (orb_comm (str_in "_id" (lower (col_name col1)) && _)).
  reflexivity.
Qed.

Lemma reason_sym col1 col2 :
  _get_relationship_reason col1 col2 = _get_relationship_reason col2 col1.
Proof.
  unfold _get_relationship_reason.
  rewrite (String.eqb_sym (col_name col1)).
  rewrite (orb_comm (str_in (lower (col_name col1)) _)).
  rewrite (orb_comm (str_in "_id" (lower (col_name col1)))).
  destruct (String.eqb_spec (col_type col1) (col_type col2)) as [Heq|Hne].
  - rewrite Heq, String.eqb_refl. reflexivity.
  - destruct (String.eqb_spec (col_type col2) (col_type col1)); [congruence|].
    reflexivity.
Qed.

Lemma relate_swap t1 t2 col1 col2 :
  map swap_direction (relate t1 t2 col1 col2) = relate t2 t1 col2 col1.
Proof.
  unfold relate. rewrite (similarity_sym col2 col1), (reason_sym col2 col1).
  by destruct (PrimFloat.ltb 0.5 _).
Qed.

Lemma flat_map_app_perm {A B} (g h : A → list B) l :
  flat_map (λ x, g x ++ h x)%list l ≡ₚ (flat_map g l ++ flat_map h l)%list.
Proof.
  induction l as [|x l IH]; simpl; [done|].
  rewrite IH, <- !(assoc_L (++)%list). f_equiv.
  rewrite !(assoc_L (++)%list). f_equiv. apply Permutation_app_comm.
Qed.

Lemma flat_map_swap {A B C} (f : A → B → list C) la lb :
  flat_map (λ a, flat_map (f a) lb) la
  ≡ₚ flat_map (λ b, flat_map (λ a, f a b) la) lb.
Proof.
  induction la as [|a la IH]; simpl.
  - induction lb as [|b lb IHb]; simpl; done.
  - rewrite IH. symmetry.
    apply (flat_map_app_perm (f a) (λ b, flat_map (λ a, f a b) la)).
Qed.

Lemma map_flat_map {A B C} (g : B → C) (f : A → list B) l :
  map g (flat_map f l) = flat_map (λ x, map g (f x)) l.
Proof.
  induction l as [|x l IH]; simpl; [done|]. by rewrite map_app, IH.
Qed.

Lemma relate_tables_swap t1 t2 :
  map swap_direction (relate_tables t1 t2) ≡ₚ relate_tables t2 t1.
Proof.
  unfold relate_tables. rewrite map_flat_map.
  erewrite flat_map_ext; last first.
  { intros col1. rewrite map_flat_map.
    apply flat_map_ext. intros col2. apply relate_swap. }
  apply (flat_map_swap (λ col1 col2, relate t2 t1 col2 col1)).
Qed.

Lemma swap_direction_involutive r : swap_direction (swap_direction r) = r.
Proof. by destruct r. Qed.

Lemma detect_pair t1 t2 : _detect_relationships [t1; t2] = relate_tables t1 t2.
Proof. simpl. by rewrite !app_nil_r. Qed.

(** C6: analyzing [[A, B]] and [[B, A]] finds the same relationships:
    reading every relationship of one run in the other direction gives
    the relationships of the other run, each as often, with the same
    column pair, the same confidence and the same reason. *)
Theorem detect_relationships_symmetric (A B : table_info) :
  map swap_direction (_detect_relationships [A; B])
    ≡ₚ _detect_relationships [B; A] ∧
  (∀ r, r ∈ _detect_relationships [A; B] ↔
        swap_direction r ∈ _detect_relationships [B; A]) ∧
  (∀ r, confidence (swap_direction r) = confidence r ∧
        from_column (swap_direction r) = to_column r ∧
        to_column (swap_direction r) = from_column r ∧
        from_table (swap_direction r) = to_table r ∧
        to_table (swap_direction r) = from_table r).
Proof.
  rewrite !detect_pair.
  split; [apply relate_tables_swap|]. split; [|done].
  intros r. split; intros Hr.
  - rewrite <- (relate_tables_swap A B). apply list_elem_of_fmap. by exists r.
  - rewrite <- (relate_tables_swap B A).
    rewrite <- (swap_direction_involutive r).
    apply list_elem_of_fmap. by exists (swap_direction r).
Qed.

End FileAnalyzerFacts.

(** * Properties of the database materializer *)

Module DatabaseBuilderFacts.
Import DatabaseBuilder Claims.

Section WithSqlite.
Context {conn : Type}.
Variable execute : conn → string → list sql_value → conn * outcome.

Lemma row_outcomes_length sql cols : ∀ data c,
  length (row_outcomes execute c sql cols data).2 = length data.
Proof.
  induction data as [|r rest IH]; intros c; simpl; [done|].
  destruct (execute c sql (row_values cols r)) as [c1 o].
  specialize (IH c1).
  destruct (row_outcomes execute c1 sql cols rest) as [c' os].
  simpl in *. by rewrite IH.
Qed.

Lemma insert_rows_spec table_name sql cols : ∀ data c n errs,
  let ro := row_outcomes execute c sql cols data in
  match insert_rows execute c table_name sql cols data n errs with
  | (c', Ok (n', errs')) =>
      c' = ro.1 ∧ (∀ e, OtherError e ∉ ro.2) ∧
      n' = n + done_count ro.2 ∧
      errs' = (errs ++ row_warnings table_name ro.2)%list
  | (_, Raise e) => OtherError e ∈ ro.2
  end.
Proof.
  induction data as [|r rest IH]; intros c n errs; simpl.
  - split; [done|]. split; [intros e He; by apply elem_of_nil in He|].
    split; [unfold done_count; simpl; lia|by rewrite app_nil_r].
  - destruct (execute c sql (row_values cols r)) as [c1 o].
    destruct o as [|msg|e].
    + specialize (IH c1 (n + 1) errs). simpl in IH.
      destruct (insert_rows execute c1 table_name sql cols rest (n + 1) errs)
        as [c' [[n' errs']|e]];
        destruct (row_outcomes execute c1 sql cols rest) as [c'' os]; simpl in *.
      * destruct IH as (-> & Hno & -> & ->). split; [done|].
        split; [intros e [?|?]%elem_of_cons; [done|by eapply Hno]|].
        split; [unfold done_count; simpl; lia|done].
      * by right.
    + specialize (IH c1 n
        (errs ++ ["Error inserting row into " +:+ table_name +:+ ": " +:+ msg])%list).
      simpl in IH.
      destruct (insert_rows execute c1 table_name sql cols rest n _)
        as [c' [[n' errs']|e]];
        destruct (row_outcomes execute c1 sql cols rest) as [c'' os]; simpl in *.
      * destruct IH as (-> & Hno & -> & ->). split; [done|].
        split; [intros e [?|?]%elem_of_cons; [done|by eapply Hno]|].
        split; [done|]. by rewrite <- app_assoc.
      * by right.
    + destruct (row_outcomes execute c1 sql cols rest) as [c'' os]. simpl. left.
Qed.

Lemma insert_data_spec (t : table) c :
  let ro := table_outcomes execute c t in
  match _insert_data execute c (tbl_name t) (tbl_data t) (tbl_columns t) with
  | (c', Ok (n', errs')) =>
      c' = ro.1 ∧ (∀ e, OtherError e ∉ ro.2) ∧
      n' = done_count ro.2 ∧ errs' = row_warnings (tbl_name t) ro.2
  | (_, Raise e) => OtherError e ∈ ro.2
  end.
Proof.
  unfold _insert_data, table_outcomes.
  destruct (tbl_data t) as [|first rest].
  - simpl. split; [done|]. split; [intros e He; by apply elem_of_nil in He|done].
  - apply (insert_rows_spec (tbl_name t)
             (insert_sql (tbl_name t) (keys first)) (keys first) (first :: rest) c 0 []).
Qed.

Lemma table_outcomes_length t c :
  length (table_outcomes execute c t).2 = length (tbl_data t).
Proof.
  unfold table_outcomes. destruct (tbl_data t) as [|first rest] eqn:E; [done|].
  apply row_outcomes_length.
Qed.




(** What the loop over the statements does to the result. *)
Lemma create_tables_spec : ∀ statements c r,
  let so := statement_outcomes execute c statements in
  match create_tables execute c statements r with
  | (c', r', None) =>
      c' = so.1 ∧ (∀ e, OtherError e ∉ so.2) ∧
      success r' = success r ∧ db_path r' = db_path r ∧
      tables_created r' = tables_created r + done_count so.2 ∧
      rows_inserted r' = rows_inserted r ∧
      errors r' = (errors r ++ statement_errors so.2)%list ∧
      warnings r' = warnings r
  | (_, r', Some e) => OtherError e ∈ so.2 ∧ success r' = success r
  end.
Proof.
  induction statements as [|sql rest IH]; intros c r; simpl.
  - split; [done|]. split; [intros e He; by apply elem_of_nil in He|].
    unfold done_count. simpl. rewrite app_nil_r.
    repeat split; try done; lia.
  - destruct (execute c sql []) as [c1 o]. destruct o as [|msg|e].
    + match goal with |- context [create_tables execute c1 rest ?r1] =>
        specialize (IH c1 r1) end.
      simpl in IH.
      destruct (create_tables execute c1 rest _) as [[c' r'] [e|]];
        destruct (statement_outcomes execute c1 rest) as [c'' os]; simpl in *.
      * destruct IH as [He ->]. split; [by right|done].
      * destruct IH as (-> & Hno & -> & -> & -> & -> & -> & ->).
        split; [done|].
        split; [intros e [?|?]%elem_of_cons; [done|by eapply Hno]|].
        unfold done_count. simpl. repeat split; try done; lia.
    + match goal with |- context [create_tables execute c1 rest ?r1] =>
        specialize (IH c1 r1) end.
      simpl in IH.
      destruct (create_tables execute c1 rest _) as [[c' r'] [e|]];
        destruct (statement_outcomes execute c1 rest) as [c'' os]; simpl in *.
      * destruct IH as [He ->]. split; [by right|done].
      * destruct IH as (-> & Hno & -> & -> & -> & -> & -> & ->).
        split; [done|].
        split; [intros e [?|?]%elem_of_cons; [done|by eapply Hno]|].
        unfold done_count. simpl. rewrite <- app_assoc.
        repeat split; try done.
    + destruct (statement_outcomes execute c1 rest) as [c'' os]. simpl.
      split; [left|done].
Qed.

(** What the loop over the parsed tables does to the result. *)
Lemma populate_spec : ∀ tbls c r,
  let lo := load_outcomes execute c tbls in
  match populate execute c tbls r with
  | (c', r', None) =>
      c' = lo.1 ∧ (∀ p e, p ∈ lo.2 → OtherError e ∉ p.2) ∧
      success r' = success r ∧ db_path r' = db_path r ∧
      tables_created r' = tables_created r ∧
      rows_inserted r' = fold_left record_count lo.2 (rows_inserted r) ∧
      errors r' = errors r ∧
      warnings r' =
        (warnings r ++ flat_map (λ p, row_warnings (tbl_name p.1) p.2) lo.2)%list
  | (_, r', Some e) =>
      (∃ p, p ∈ lo.2 ∧ OtherError e ∈ p.2) ∧ success r' = success r
  end.
Proof.
  induction tbls as [|t rest IH]; intros c r; simpl.
  - split; [done|]. split; [intros p e Hp; by apply elem_of_nil in Hp|].
    rewrite app_nil_r. done.
  - pose proof (insert_data_spec t c) as Hins. simpl in Hins.
    destruct (_insert_data execute c (tbl_name t) (tbl_data t) (tbl_columns t))
      as [c1 [[n errs]|e]];
      destruct (table_outcomes execute c t) as [c1' os]; simpl in Hins.
    + destruct Hins as (-> & Hno1 & -> & ->).
      match goal with |- context [populate execute c1' rest ?r1] =>
        specialize (IH c1' r1) end.
      simpl in IH.
      destruct (populate execute c1' rest _) as [[c' r'] [e|]];
        destruct (load_outcomes execute c1' rest) as [c'' oss]; simpl in *.
      * destruct IH as [(p & Hp & He) ->]. split; [|done].
        exists p. split; [by right|done].
      * destruct IH as (-> & Hno & -> & -> & -> & -> & -> & ->).
        split; [done|].
        split; [intros p e [->|Hp]%elem_of_cons; [apply Hno1|by eapply Hno]|].
        rewrite <- app_assoc. done.
    + destruct (load_outcomes execute c1' rest) as [c'' oss]. simpl.
      split; [|done]. exists (t, os). split; [left|done].
Qed.





End WithSqlite.



(** *** The columns of the INSERT statement *)






End DatabaseBuilderFacts.

(** * Properties of the ingestion state machine *)

Module IngestionOrchestratorFacts.
Import SchemaAgent DatabaseBuilder Claims IngestionOrchestrator.

Section WithCollaborators.
Context {analysis : Type}.
Variable parse_file : string → result parsed_file.
Variable analyze_files : list parsed_file → result analysis.
Variable builder_create_database :
  string → string → option (list parsed_file) → result build_result.

#[local] Abbreviation state := (@IngestionState analysis).
#[local] Abbreviation orch := (@orchestrator analysis).

Lemma add_errors_nil (s : state) : add_errors s [] = s.
Proof. destruct s. unfold add_errors. simpl. by rewrite app_nil_r. Qed.

Lemma add_errors_app (s : state) a b :
  add_errors (add_errors s a) b = add_errors s (a ++ b)%list.
Proof. unfold add_errors. simpl. by rewrite app_assoc. Qed.

Lemma set_stage_same (s : state) : set_stage s (stage_of s) = s.
Proof. by destruct s. Qed.

(** The parsing loop: every file is handed to the parser, the files
    that parse are kept in order, the others leave one error each. *)
Lemma parse_all_spec : ∀ fs acc (s : state) (o : orch),
  parse_all parse_file fs acc s o
  = ((acc ++ parsed_ok parse_file fs)%list,
     add_errors s (parse_errors parse_file fs),
     {| states := states o; disk := disk o;
        trace := (trace o ++ map (λ f, ParseCalled (file_path f)) fs)%list |}).
Proof.
  induction fs as [|f fs IH]; intros acc s o; simpl.
  - rewrite !app_nil_r, add_errors_nil. by destruct o.
  - destruct (parse_file (file_path f)) as [parsed|e]; rewrite IH; simpl.
    + by rewrite <- !app_assoc.
    + by rewrite add_errors_app, <- !app_assoc.
Qed.

Lemma get_state_spec (o : orch) id r o1 :
  _get_state o id = (r, o1) → trace o1 = trace o ∧ disk o1 = disk o.
Proof.
  unfold _get_state.
  destruct (states o !! id); [by intros [= <- <-]|].
  destruct (disk o !! id); by intros [= <- <-].
Qed.







(** C8, as the code has it: for a job in stage [awaiting_approval],
    finalization with approval withheld saves the job unchanged, still
    in [awaiting_approval], and builds nothing; with approval granted and
    a schema result present it saves the stage [creating_database], calls
    the builder once and saves the stage [completed] when the builder
    reports success, [failed] when it reports failure or raises; with
    approval granted and no schema result it changes nothing and answers
    "Schema must be generated first". *)
Theorem finalize_from_awaiting_approval (o : orch) (id : string) (s : state)
    (o1 : orch) (db_name : option string) :
  _get_state o id = (Some s, o1) →
  stage_of s = AwaitingApproval →
  (let res := finalize_ingestion builder_create_database o id db_name false in
   res.1 = RespMessage "Schema not approved, awaiting edits" ∧
   trace res.2 = (trace o ++ [Saved s])%list ∧
   disk res.2 !! upload_id s = Some s ∧
   states res.2 !! upload_id s = Some s) ∧
  (∀ r, schema_result_of s = Some r →
     let res := finalize_ingestion builder_create_database o id db_name true in
     let name := choose_db_name db_name id in
     ∃ s',
       trace res.2
       = (trace o ++ [ Saved (set_stage s CreatingDatabase);
                       BuilderCalled name; Saved s' ])%list ∧
       disk res.2 !! upload_id s = Some s' ∧
       states res.2 !! upload_id s = Some s' ∧
       match builder_create_database (schema_code r) name (parsed_data s) with
       | Ok db_result =>
           database_result s' = Some db_result ∧
           stage_of s' = (if success db_result then Completed else Failed) ∧
           state_errors s'
           = (state_errors s ++ if success db_result then [] else errors db_result)%list ∧
           res.1 = RespFinalized id name db_result
       | Raise e =>
           database_result s' = database_result s ∧
           stage_of s' = Failed ∧
           state_errors s'
           = (state_errors s ++ [ "Database creation failed: " +:+ exn_str e ])%list
       end) ∧
  (schema_result_of s = None →
     finalize_ingestion builder_create_database o id db_name true
     = (RespError "Schema must be generated first" None, o1)).
Proof.
  intros Hget Hstage. apply get_state_spec in Hget as Htrace.
  destruct Htrace as [Htr _].
  unfold finalize_ingestion. rewrite Hget. simpl.
  split; [|split].
  - rewrite <- Hstage, set_stage_same, Htr, !lookup_insert_eq. done.
  - intros r Hr. rewrite Hr.
    destruct (builder_create_database (schema_code r) (choose_db_name db_name id)
                (parsed_data s)) as [db_result|e]; simpl.
    + destruct (success db_result) eqn:Hsucc; simpl.
      * eexists. split; [by rewrite Htr, <- !app_assoc|].
        rewrite !lookup_insert_eq. simpl. by rewrite app_nil_r.
      * eexists. split; [by rewrite Htr, <- !app_assoc|].
        rewrite !lookup_insert_eq. done.
    + eexists. split; [by rewrite Htr, <- !app_assoc|].
      rewrite !lookup_insert_eq. done.
  - intros Hr. by rewrite Hr.
Qed.

End WithCollaborators.


(** C8 at a job that went through parsing, analysis and schema
    generation, approved with a builder that succeeds. *)
Lemma finalize_from_awaiting_approval_witness :
  ∃ s', disk (finalize_ingestion Examples.build_ok Examples.awaiting "42"
                None true).2 !! "42" = Some s' ∧
        stage_of s' = Completed.
Proof.
  assert (Hget : _get_state Examples.awaiting "42"
                 = (Some Examples.awaiting_state, Examples.awaiting))
    by (vm_compute; reflexivity).
  destruct (proj1 (proj2 (finalize_from_awaiting_approval Examples.build_ok
              Examples.awaiting "42" _ _ None Hget eq_refl))
              Examples.a_schema eq_refl)
    as (s' & _ & Hdisk & _ & Hres).
  exists s'. split; [exact Hdisk|].
  simpl in Hres. by destruct Hres as (_ & Hstage & _).
Defined.

(** C8 as the specification words it fails: withholding approval right
    after the upload puts the job in [awaiting_approval] with no schema
    result; granting approval then answers "Schema must be generated
    first" and leaves the job where it is: nothing more is saved, in
    particular no stage [creating_database], [completed] or [failed]. *)
Lemma finalize_claim_counterexample :
  stage_of <$> (states Examples.refused_early !! "42") = Some AwaitingApproval ∧
  (finalize_ingestion Examples.build_ok Examples.refused_early "42" None true).1
  = RespError "Schema must be generated first" None ∧
  stage_of <$>
    (states (finalize_ingestion Examples.build_ok Examples.refused_early "42"
               None true).2 !! "42") = Some AwaitingApproval ∧
  stages_saved
    (trace (finalize_ingestion Examples.build_ok Examples.refused_early "42"
              None true).2) = [Uploaded; AwaitingApproval].
Proof. vm_compute. repeat split; reflexivity. Qed.

End IngestionOrchestratorFacts.

(** * Properties of the schema refinement loop *)

Module SchemaAgentFacts.
Import Json SchemaAgent Claims.

Lemma assoc_set_same d key x : assoc (assoc_set d key x) key = Some x.
Proof.
  induction d as [|[k v] d IH]; simpl.
  - by rewrite String.eqb_refl.
  - destruct (String.eqb_spec k key) as [->|Hne]; simpl.
    + by rewrite String.eqb_refl.
    + destruct (String.eqb_spec k key); [done|]. exact IH.
Qed.

(** Without a critical issue the filter keeps nothing. *)
Lemma with_severity_none issues :
  forallb is_object issues = true →
  existsb is_critical issues = false →
  with_severity "critical" issues = Ok [].
Proof.
  induction issues as [|i issues IH]; simpl; [done|].
  intros [Hobj Hall]%andb_true_iff [Hcrit Hnone]%orb_false_iff.
  destruct i as [| | | | | |fields]; try done. simpl.
  rewrite IH by done. simpl.
  unfold is_critical in Hcrit.
  destruct (assoc fields "severity") as [sev|]; simpl; [by rewrite Hcrit|done].
Qed.

(** C2: when the report of the synthesis service has no issue of
    severity "critical", the report that [_verify_schema] hands to the
    loop has a true [is_sufficient]: the constant [True] whenever the
    service sent a boolean, [null] or nothing for it, and in every case
    a value that the loop's test takes as true. *)
Theorem is_sufficient_forced (fields : list (string * json)) (issues : list json) :
  get (JDict fields) "issues" (JList []) = Ok (JList issues) →
  forallb is_object issues = true →
  existsb is_critical issues = false →
  ∃ delivered flag,
    force_sufficient (JDict fields) = Ok delivered ∧
    getitem delivered "is_sufficient" = Ok flag ∧
    truthy flag = true ∧
    (match assoc fields "is_sufficient" with
     | None | Some JNull | Some (JBool _) => flag = JBool true
     | Some sent => flag = JBool true ∨ flag = sent
     end) ∧
    (∀ chat json_loads content code plan fa requirements w,
       chat (calls w) = Ok content →
       json_loads content = Ok (JDict fields) →
       (_verify_schema chat json_loads code plan fa requirements w).1
       = Ok delivered).
Proof.
  intros Hissues Hobj Hcrit. unfold force_sufficient.
  simpl in Hissues. simpl.
  destruct (assoc fields "is_sufficient") as [sent|] eqn:Hsent.
  - destruct (truthy sent) eqn:Htruthy; simpl.
    + exists (JDict fields), sent. simpl. rewrite Hsent.
      split; [done|]. split; [done|]. split; [done|]. split.
      * destruct sent as [|b| | | | |]; try (by right); try done.
        simpl in Htruthy. by rewrite Htruthy.
      * intros chat json_loads content code plan fa requirements w Hchat Hloads.
        unfold _verify_schema, chat_completion, mbind, M_bind, lift. simpl.
        rewrite Hchat, Hloads. unfold force_sufficient. simpl.
        by rewrite Hsent, Htruthy.
    + injection Hissues as Hiss. rewrite Hiss. simpl.
      rewrite with_severity_none by done. simpl.
      exists (JDict (assoc_set fields "is_sufficient" (JBool true))), (JBool true).
      simpl. rewrite assoc_set_same.
      split; [done|]. split; [done|]. split; [done|]. split.
      * destruct sent as [|b| | | | |]; try (by left); done.
      * intros chat json_loads content code plan fa requirements w Hchat Hloads.
        unfold _verify_schema, chat_completion, mbind, M_bind, lift. simpl.
        rewrite Hchat, Hloads. unfold force_sufficient. simpl.
        rewrite Hsent, Htruthy. simpl. rewrite Hiss. simpl.
        by rewrite with_severity_none.
  - simpl. injection Hissues as Hiss. rewrite Hiss. simpl.
    rewrite with_severity_none by done. simpl.
    exists (JDict (assoc_set fields "is_sufficient" (JBool true))), (JBool true).
    simpl. rewrite assoc_set_same.
    split; [done|]. split; [done|]. split; [done|]. split; [done|].
    intros chat json_loads content code plan fa requirements w Hchat Hloads.
    unfold _verify_schema, chat_completion, mbind, M_bind, lift. simpl.
    rewrite Hchat, Hloads. unfold force_sufficient. simpl.
    rewrite Hsent. simpl. rewrite Hiss. simpl. by rewrite with_severity_none.
Qed.

(** C2 at a report that the service marks insufficient for a warning. *)
Lemma is_sufficient_forced_witness :
  ∃ delivered,
    force_sufficient Examples.warned_report = Ok delivered ∧
    getitem delivered "is_sufficient" = Ok (JBool true).
Proof.
  destruct (is_sufficient_forced
              [ ("is_sufficient", JBool false);
                ("issues", JList [ Examples.a_warning ]) ]
              [ Examples.a_warning ] eq_refl eq_refl eq_refl)
    as (delivered & flag & Hforce & Hflag & _ & Hsent & _).
  exists delivered. simpl in Hsent. subst flag. split; [exact Hforce|exact Hflag].
Defined.

(** *** Requests to the service *)



Lemma bind_ok_inv {A B} (m : M A) (f : A → M B) w b w2 :
  (m ≫= f) w = (Ok b, w2) → ∃ a w1, m w = (Ok a, w1) ∧ f a w1 = (Ok b, w2).
Proof.
  unfold mbind, M_bind. destruct (m w) as [[a|e] w1]; [|done].
  intros H. by exists a, w1.
Qed.





(** *** A result when the service behaves *)

Lemma split_go_cons sep : ∀ s skip cur, ∃ x l, split_go sep s skip cur = x :: l.
Proof.
  induction s as [|c s IH]; intros skip cur; cbn [split_go]; [by eexists _, _|].
  destruct skip as [|k]; [|apply IH].
  destruct (startswith (String c s) sep); [by eexists _, _|apply IH].
Qed.

Lemma split_startswith s sep :
  sep ≠ "" → startswith s sep = true → ∃ a b l, split s sep = a :: b :: l.
Proof.
  intros Hsep Hstart. unfold split. destruct s as [|c s].
  - destruct sep; [done|]. simpl in Hstart. done.
  - cbn [split_go]. rewrite Hstart.
    destruct (split_go_cons sep s (String.length sep - 1) "") as (x & l & ->).
    by exists "", x, l.
Qed.




Section Rendering.
Variable py_str : json → string.





End Rendering.

Lemma assoc_set_other d key key' x :
  key ≠ key' → assoc (assoc_set d key x) key' = assoc d key'.
Proof.
  intros Hne. induction d as [|[k v] d IH]; simpl.
  - destruct (String.eqb_spec key key'); [done|done].
  - destruct (String.eqb_spec k key) as [->|Hk]; simpl.
    + destruct (String.eqb_spec key key'); [done|done].
    + destruct (String.eqb_spec k key'); [done|exact IH].
Qed.



Section Routing.
Variable py_str : json → string.


End Routing.

Section WithService.
Variable chat : nat → result string.
Variable json_loads : string → result json.
Variable py_str : json → string.
Variable max_rounds : nat.
Variable progress_callback : bool.


























End WithService.




End SchemaAgentFacts.

(** * Facts about the Python built-ins *)

Module PyFacts.

Lemma startswith_nil s : startswith s "" = true.
Proof. by destruct s. Qed.

Lemma startswith_refl s : startswith s s = true.
Proof. induction s as [|c s IH]; simpl; [done|]. by rewrite Ascii.eqb_refl. Qed.

Lemma startswith_prefix p : ∀ q, startswith (p +:+ q) p = true.
Proof.
  induction p as [|c p IH]; intros q; simpl; [apply startswith_nil|].
  by rewrite Ascii.eqb_refl, IH.
Qed.

Lemma startswith_app s p q : startswith s (p +:+ q) = true → startswith s p = true.
Proof.
  revert s. induction p as [|c p IH]; intros s; [by rewrite startswith_nil|].
  destruct s as [|d s]; [done|]. simpl.
  intros [Hd H]%andb_true_iff. rewrite Hd. simpl. by apply IH.
Qed.

Lemma str_in_refl s : str_in s s = true.
Proof. destruct s; simpl; [done|]. by rewrite Ascii.eqb_refl, startswith_refl. Qed.

(** A text that contains [p ++ q] contains [p]. *)
Lemma str_in_app_l p q : ∀ s, str_in (p +:+ q) s = true → str_in p s = true.
Proof.
  induction s as [|c s IH]; cbn [str_in].
  - rewrite !orb_false_r. apply startswith_app.
  - intros [H|H]%orb_true_iff.
    + apply startswith_app in H. by rewrite H.
    + rewrite (IH H). by rewrite orb_true_r.
Qed.

(** A text that contains [c :: p] contains [p]. *)
Lemma str_in_tail c p : ∀ s, str_in (String c p) s = true → str_in p s = true.
Proof.
  induction s as [|d s IH]; cbn [str_in]; [done|].
  intros [H|H]%orb_true_iff.
  - simpl in H. apply andb_true_iff in H as [_ H].
    apply orb_true_iff. right.
    destruct s; cbn [str_in]; rewrite H; done.
  - rewrite (IH H). by rewrite orb_true_r.
Qed.

Lemma startswith_join sep x l : startswith (join sep (x :: l)) x = true.
Proof.
  destruct l as [|y l]; cbn [join]; [apply startswith_refl|apply startswith_prefix].
Qed.

End PyFacts.

(** * Further properties of the file analyzer *)

Module FileAnalyzerMore.
Import FileAnalyzer Claims PyFacts FileAnalyzerFacts.

Lemma same_name_similar col1 col2 :
  same_name col1 col2 = true → similar_name col1 col2 = true.
Proof.
  unfold same_name, similar_name. intros ->%String.eqb_eq.
  by rewrite str_in_refl.
Qed.

Lemma same_name_not_fk col1 col2 :
  same_name col1 col2 = true → looks_like_fk col1 col2 = false.
Proof.
  unfold same_name, looks_like_fk. intros ->%String.eqb_eq.
  destruct (String.eqb_spec (lower (col_name col2)) "id") as [->|_]; [done|].
  by rewrite andb_false_r.
Qed.

Lemma fk_similar col1 col2 :
  looks_like_fk col1 col2 = true → similar_name col1 col2 = true.
Proof.
  unfold looks_like_fk, similar_name.
  intros [[H1 ->%String.eqb_eq]%andb_true_iff|[H2 ->%String.eqb_eq]%andb_true_iff]%orb_true_iff.
  - apply str_in_tail in H1. rewrite H1. by rewrite orb_true_r.
  - apply str_in_tail in H2. by rewrite H2.
Qed.

(** X1: a pair of columns is reported as a relationship exactly when
    the two names are identical or follow the key pattern (one
    lower-cased name is "id", the other contains "_id"); the inferred
    types never decide whether a pair is reported, only its confidence,
    which is "high" exactly when the types are identical; and the reason
    given for a reported pair starts with a name match, never with the
    fall-back text. *)
Theorem relationship_iff_names_linked (t1 t2 : table_info) (col1 col2 : column) :
  let linked := same_name col1 col2 || looks_like_fk col1 col2 in
  relate t1 t2 col1 col2 =
    (if linked then
       [ {| from_file := source_file t1;
            from_table := tbl_name (the_table t1);
            from_column := col_name col1;
            to_file := source_file t2;
            to_table := tbl_name (the_table t2);
            to_column := col_name col2;
            confidence := if same_type col1 col2 then "high" else "medium";
            reason := _get_relationship_reason col1 col2 |} ]
     else []) ∧
  (linked = true →
   startswith (_get_relationship_reason col1 col2)
     (if same_name col1 col2 then "identical column names"
      else "similar column names") = true ∧
   _get_relationship_reason col1 col2 ≠ "column similarity detected").
Proof.
  pose proof (same_name_similar col1 col2) as Hss.
  pose proof (same_name_not_fk col1 col2) as Hsf.
  pose proof (fk_similar col1 col2) as Hfs.
  simpl. split.
  - unfold relate. rewrite high_tenths.
    pose proof (reported_tenths col1 col2) as Hrep. unfold reported in Hrep.
    rewrite Hrep. unfold similarity_tenths, tenths.
    destruct (same_name col1 col2), (similar_name col1 col2),
      (same_type col1 col2), (looks_like_fk col1 col2);
      try (specialize (Hss eq_refl); discriminate Hss);
      try (specialize (Hsf eq_refl); discriminate Hsf);
      try (specialize (Hfs eq_refl); discriminate Hfs);
      reflexivity.
  - intros Hlinked.
    assert (Hstart : startswith (_get_relationship_reason col1 col2)
              (if same_name col1 col2 then "identical column names"
               else "similar column names") = true).
    { unfold _get_relationship_reason.
      fold (same_name col1 col2). fold (same_type col1 col2).
      destruct (same_name col1 col2) eqn:Hsame.
      - simpl.
        destruct (same_type col1 col2), (str_in "_id" (lower (col_name col1))
                    || str_in "_id" (lower (col_name col2)));
          simpl; first [reflexivity|apply startswith_join].
      - simpl in Hlinked. specialize (Hfs Hlinked).
        unfold similar_name in Hfs. simpl. rewrite Hfs. simpl.
        destruct (same_type col1 col2), (str_in "_id" (lower (col_name col1))
                    || str_in "_id" (lower (col_name col2)));
          simpl; first [reflexivity|apply startswith_join]. }
    split; [exact Hstart|]. intros Heq. rewrite Heq in Hstart.
    by destruct (same_name col1 col2).
Qed.

Lemma high_null_issues_shape format_1f t i :
  i ∈ high_null_issues format_1f t → startswith i "Column '" = true.
Proof.
  unfold high_null_issues. rewrite list_elem_of_In, in_flat_map.
  intros (col & _ & Hi).
  destruct (PrimFloat.ltb 50 (null_pct t col)); [|destruct Hi].
  destruct Hi as [<-|[]]. apply startswith_prefix.
Qed.

Lemma high_null_issues_length format_1f t :
  length (high_null_issues format_1f t) ≤ length (tbl_columns t).
Proof.
  unfold high_null_issues.
  induction (tbl_columns t) as [|col cols IH]; simpl; [done|].
  rewrite length_app.
  destruct (PrimFloat.ltb 50 (null_pct t col)); simpl; lia.
Qed.

Lemma has_unique_col_qualifies t :
  existsb (λ col, (unique_count col =? row_count t) && (null_count col =? 0))
    (tbl_columns t) = false ↔
  ∀ col, col ∈ tbl_columns t → ¬ qualifies t col.
Proof.
  rewrite <- not_true_iff_false, existsb_exists. split.
  - intros Hno col Hcol Hq. apply Hno. exists col.
    split; [by apply list_elem_of_In|]. by apply is_pk_candidate_qualifies.
  - intros Hno (col & Hcol & Hq). apply (Hno col); [by apply list_elem_of_In|].
    by apply is_pk_candidate_qualifies.
Qed.

Lemma no_key_finding_iff_columns format_1f t :
  0 < row_count t → tbl_columns t ≠ [] →
  ∃ issues,
    _detect_data_quality_issues format_1f t = Ok issues ∧
    (("No obvious primary key candidate found" ∈ issues
      ↔ _suggest_primary_key t = None) ∧
     length issues ≤ length (tbl_columns t) + 2).
Proof.
  intros Hrows Hcols. unfold _detect_data_quality_issues.
  destruct (Nat.ltb_spec 0 (row_count t)) as [_|Hle]; [|lia].
  destruct (Nat.eqb_spec (length (tbl_columns t)) 0) as [Hlen|_].
  { destruct (tbl_columns t); [done|discriminate Hlen]. }
  assert (Hiff : _suggest_primary_key t = None ↔
            existsb (λ col, (unique_count col =? row_count t)
                            && (null_count col =? 0)) (tbl_columns t) = false).
  { by rewrite (suggest_none t Hrows), <- has_unique_col_qualifies. }
  pose proof (high_null_issues_length format_1f t) as Hbound.
  assert (Hnot : "No obvious primary key candidate found"
                 ∉ high_null_issues format_1f t).
  { intros Hin. by apply high_null_issues_shape in Hin. }
  set (dup := PrimFloat.ltb _ 10 && (10 <? row_count t)).
  destruct dup; simpl;
    destruct (existsb _ (tbl_columns t)); simpl;
    eexists; (split; [reflexivity|]); rewrite ?length_app; simpl;
    (split; [|lia]); rewrite Hiff.
  - split; [|done]. rewrite elem_of_app, list_elem_of_singleton.
    intros [Hin|Hin]; [done|discriminate Hin].
  - split; [done|]. intros _. apply elem_of_app. right. left.
  - split; [|done]. intros Hin. done.
  - split; [done|]. intros _. apply elem_of_app. right. left.
Qed.

(** X2: for a table with at least one row and one column the
    data-quality findings are computed without error, there are at most
    one per column and two more, and the finding "No obvious primary key
    candidate found" is among them exactly when [_suggest_primary_key]
    suggests nothing for the table. *)
Theorem no_key_finding_iff_no_suggestion (format_1f : float → string) (t : table) :
  0 < row_count t → tbl_columns t ≠ [] →
  ∃ issues,
    _detect_data_quality_issues format_1f t = Ok issues ∧
    ("No obvious primary key candidate found" ∈ issues
     ↔ _suggest_primary_key t = None) ∧
    length issues ≤ length (tbl_columns t) + 2.
Proof.
  intros Hrows Hcols.
  destruct (no_key_finding_iff_columns format_1f t Hrows Hcols)
    as (issues & Hrun & Hiff & Hlen).
  exists issues. split; [exact Hrun|]. split; [exact Hiff|exact Hlen].
Qed.

(** X2 at the three-column table whose [id] is unique: no finding, and
    a suggestion. *)
Lemma no_key_finding_iff_no_suggestion_witness :
  ∃ issues,
    _detect_data_quality_issues (λ _, "") Examples.users = Ok issues ∧
    "No obvious primary key candidate found" ∉ issues.
Proof.
  assert (H1 : 0 < row_count Examples.users) by (simpl; lia).
  assert (H2 : tbl_columns Examples.users ≠ []) by done.
  destruct (no_key_finding_iff_no_suggestion (λ _, "") Examples.users H1 H2)
    as (issues & Hrun & Hiff & _).
  exists issues. split; [exact Hrun|].
  intros Hin. apply Hiff in Hin. vm_compute in Hin. discriminate Hin.
Defined.

Lemma detect_issues_columnless format_1f t :
  0 < row_count t → tbl_columns t = [] →
  _detect_data_quality_issues format_1f t = Raise ZeroDivisionError.
Proof.
  intros Hrows Hcols. unfold _detect_data_quality_issues.
  destruct (Nat.ltb_spec 0 (row_count t)) as [_|Hle]; [|lia].
  by rewrite Hcols.
Qed.

(** X3: the loop of [analyze_files] over the data-quality findings
    fails with [ZeroDivisionError] when some table has rows but no
    column, and only then; otherwise every finding it returns bears the
    file and the name of a table that has rows. *)
Theorem data_quality_issues_total (format_1f : float → string)
    (all_tables : list table_info) :
  (Exists (λ ti, 0 < row_count (the_table ti)
                 ∧ tbl_columns (the_table ti) = []) all_tables →
   ∃ e, data_quality_issues format_1f all_tables = Raise e ∧
        exn_class e = "ZeroDivisionError") ∧
  (Forall (λ ti, 0 < row_count (the_table ti)
                 → tbl_columns (the_table ti) ≠ []) all_tables →
   ∃ found,
     data_quality_issues format_1f all_tables = Ok found ∧
     ∀ q, q ∈ found →
       ∃ ti, ti ∈ all_tables ∧ 0 < row_count (the_table ti) ∧
             issue_file q = source_file ti ∧
             issue_table q = tbl_name (the_table ti)).
Proof.
  split.
  - induction all_tables as [|ti rest IH]; intros Hex; [by inversion Hex|].
    simpl.
    destruct (Nat.eq_dec (row_count (the_table ti)) 0) as [Hzero|Hpos].
    + rewrite detect_issues_empty by done. simpl.
      apply Exists_cons in Hex as [[Hrows _]|Hex]; [lia|].
      destruct (IH Hex) as (e & -> & Hclass). by exists e.
    + destruct (tbl_columns (the_table ti)) as [|c cs] eqn:Hcols.
      * rewrite detect_issues_columnless by (done || lia).
        by exists ZeroDivisionError.
      * destruct (no_key_finding_iff_columns format_1f (the_table ti))
          as (issues & -> & _); [lia|by rewrite Hcols|].
        simpl. apply Exists_cons in Hex as [[_ Hnil]|Hex]; [congruence|].
        destruct (IH Hex) as (e & -> & Hclass). by exists e.
  - induction all_tables as [|ti rest IH]; intros Hall; simpl.
    { exists []. split; [done|]. intros q Hq. by apply elem_of_nil in Hq. }
    apply Forall_cons in Hall as [Hti Hall].
    destruct (IH Hall) as (later & -> & Hlater).
    destruct (Nat.eq_dec (row_count (the_table ti)) 0) as [Hzero|Hpos].
    + rewrite detect_issues_empty by done. simpl. exists later.
      split; [done|]. intros q Hq.
      destruct (Hlater q Hq) as (tj & Hin & H). exists tj. split; [by right|done].
    + destruct (no_key_finding_iff_columns format_1f (the_table ti))
        as (issues & -> & _); [lia|apply Hti; lia|].
      simpl. eexists. split; [reflexivity|].
      intros q [Hq|Hq]%elem_of_app.
      * apply list_elem_of_fmap in Hq as (i & -> & _). exists ti.
        split; [left|]. split; [lia|done].
      * destruct (Hlater q Hq) as (tj & Hin & H). exists tj.
        split; [by right|done].
Qed.

(** X3 at a table with one row and no column. *)
Lemma data_quality_issues_total_witness :
  ∃ e, data_quality_issues (λ _, "")
         [ TableInfo "empty.csv" (Table "empty" [] 1 []) ] = Raise e ∧
       exn_class e = "ZeroDivisionError".
Proof.
  apply (proj1 (data_quality_issues_total (λ _, "")
                  [ TableInfo "empty.csv" (Table "empty" [] 1 []) ])).
  apply Exists_cons_hd. simpl. split; [lia|reflexivity].
Defined.

Lemma fold_pk_sound : ∀ (l : list table_info) m k s,
  fold_left add_pk_suggestion l m !! k = Some s →
  m !! k = Some s ∨
  ∃ ti, ti ∈ l ∧
        source_file ti +:+ "." +:+ tbl_name (the_table ti) = k ∧
        _suggest_primary_key (the_table ti) = Some s.
Proof.
  induction l as [|ti l IH]; intros m k s H; simpl in H; [by left|].
  apply IH in H as [H|(tj & Hin & Hk & Hs)].
  - unfold add_pk_suggestion in H.
    destruct (_suggest_primary_key (the_table ti)) as [s0|] eqn:Hs0; [|by left].
    destruct (decide (source_file ti +:+ "." +:+ tbl_name (the_table ti) = k))
      as [Hk|Hk].
    + rewrite Hk, lookup_insert_eq in H. injection H as ->.
      right. exists ti. split; [left|done].
    + rewrite lookup_insert_ne in H by done. by left.
  - right. exists tj. split; [by right|done].
Qed.

Lemma fold_pk_skip : ∀ (l : list table_info) m k,
  (∀ tj, tj ∈ l →
     source_file tj +:+ "." +:+ tbl_name (the_table tj) = k →
     _suggest_primary_key (the_table tj) = None) →
  fold_left add_pk_suggestion l m !! k = m !! k.
Proof.
  induction l as [|ti l IH]; intros m k Hno; simpl; [done|].
  rewrite IH by (intros tj Hin; apply Hno; by right).
  unfold add_pk_suggestion.
  destruct (_suggest_primary_key (the_table ti)) as [s0|] eqn:Hs0; [|done].
  destruct (decide (source_file ti +:+ "." +:+ tbl_name (the_table ti) = k))
    as [Hk|Hk].
  - rewrite (Hno ti) in Hs0; [done|left|done].
  - by rewrite lookup_insert_ne.
Qed.

Lemma fold_pk_keeps : ∀ (l : list table_info) m k,
  is_Some (m !! k) → is_Some (fold_left add_pk_suggestion l m !! k).
Proof.
  induction l as [|ti l IH]; intros m k H; simpl; [done|].
  apply IH. unfold add_pk_suggestion.
  destruct (_suggest_primary_key (the_table ti)) as [s0|]; [|done].
  destruct (decide (source_file ti +:+ "." +:+ tbl_name (the_table ti) = k))
    as [<-|Hk].
  - rewrite lookup_insert_eq. by eexists.
  - by rewrite lookup_insert_ne.
Qed.

(** X4: in [analyze_files] the suggested primary keys are filed under
    "file.table".  Every entry is the suggestion of a table with that
    key; every table that gets a suggestion has an entry under its key;
    and the entry is the suggestion of the last such table, so that of
    two tables with one key (two files of one name with equally named
    tables, or "a.b"/"c" and "a"/"b.c") only the later suggestion is
    kept. *)
Theorem suggested_primary_keys_lookup (all_tables : list table_info) :
  let key := λ ti, source_file ti +:+ "." +:+ tbl_name (the_table ti) in
  (∀ k s, suggested_primary_keys all_tables !! k = Some s →
     ∃ ti, ti ∈ all_tables ∧ key ti = k ∧
           _suggest_primary_key (the_table ti) = Some s) ∧
  (∀ ti, ti ∈ all_tables →
     is_Some (_suggest_primary_key (the_table ti)) →
     is_Some (suggested_primary_keys all_tables !! key ti)) ∧
  (∀ before ti after s,
     all_tables = (before ++ ti :: after)%list →
     _suggest_primary_key (the_table ti) = Some s →
     (∀ tj, tj ∈ after → key tj = key ti →
        _suggest_primary_key (the_table tj) = None) →
     suggested_primary_keys all_tables !! key ti = Some s).
Proof.
  simpl. unfold suggested_primary_keys. split; [|split].
  - intros k s H. apply fold_pk_sound in H as [H|H]; [|done].
    by rewrite lookup_empty in H.
  - intros ti Hin [s Hs].
    apply list_elem_of_split in Hin as (l1 & l2 & ->).
    rewrite fold_left_app. simpl. apply fold_pk_keeps.
    unfold add_pk_suggestion at 1. rewrite Hs, lookup_insert_eq. by eexists.
  - intros before ti after s -> Hs Hlater.
    rewrite fold_left_app. simpl. rewrite fold_pk_skip by done.
    unfold add_pk_suggestion at 1. by rewrite Hs, lookup_insert_eq.
Qed.

End FileAnalyzerMore.

(** * Further properties of the database builder *)

Module DatabaseBuilderMore.
Import DatabaseBuilder Claims Properties PyFacts DatabaseBuilderFacts.

(** X5: the SQL definition that [_parse_column_definition] gives for a
    line is a type word followed by constraints, separated by blanks; the
    type word is INTEGER, TEXT, REAL or DATE, never DATETIME: a line
    with [db.DateTime] matches the earlier test for [db.Date]; the
    constraints are taken, in this order, from PRIMARY KEY, UNIQUE,
    NOT NULL and AUTOINCREMENT. *)
Theorem column_definition_shape (line : string) :
  (∃ ty constraints,
     _parse_column_definition line = join " " (ty :: constraints) ∧
     ty ∈ [ "INTEGER"; "TEXT"; "REAL"; "DATE" ] ∧
     constraints `sublist_of`
       [ "PRIMARY KEY"; "UNIQUE"; "NOT NULL"; "AUTOINCREMENT" ]) ∧
  startswith (_parse_column_definition line) "DATETIME" = false ∧
  (str_in "db.DateTime" line = true →
   str_in "db.Integer" line = false → str_in "db.String" line = false →
   str_in "db.Float" line = false → str_in "db.Boolean" line = false →
   startswith (_parse_column_definition line) "DATE" = true).
Proof.
  assert (Hdate : str_in "db.DateTime" line = true → str_in "db.Date" line = true)
    by apply (str_in_app_l "db.Date" "Time").
  unfold _parse_column_definition.
  set (ty := if str_in "db.Integer" line then "INTEGER" else _).
  set (cs := if str_in "autoincrement=True" line || _ then _ else _).
  assert (Hty : ty ∈ [ "INTEGER"; "TEXT"; "REAL"; "DATE" ]).
  { subst ty.
    destruct (str_in "db.Integer" line); [set_solver|].
    destruct (str_in "db.String" line); [set_solver|].
    destruct (str_in "db.Float" line); [set_solver|].
    destruct (str_in "db.Boolean" line); [set_solver|].
    destruct (str_in "db.Date" line); [set_solver|].
    destruct (str_in "db.DateTime" line); [by specialize (Hdate eq_refl)|].
    destruct (str_in "db.Text" line); set_solver. }
  assert (Hcs : cs `sublist_of`
            [ "PRIMARY KEY"; "UNIQUE"; "NOT NULL"; "AUTOINCREMENT" ]).
  { subst cs.
    destruct (str_in "primary_key=True" line), (str_in "unique=True" line),
      (str_in "nullable=False" line), (str_in "autoincrement=True" line),
      (str_in "Integer" line); simpl;
      repeat first [ apply sublist_nil | apply sublist_skip | apply sublist_cons ]. }
  assert (Hjoin : match cs with
                  | [] => ty
                  | _ :: _ => ty +:+ " " +:+ join " " cs
                  end = join " " (ty :: cs)).
  { by destruct cs. }
  rewrite Hjoin. split; [by exists ty, cs|].
  split.
  - apply elem_of_cons in Hty as [->|Hty]; [by destruct cs|].
    apply elem_of_cons in Hty as [->|Hty]; [by destruct cs|].
    apply elem_of_cons in Hty as [->|Hty]; [by destruct cs|].
    apply list_elem_of_singleton in Hty as ->.
    destruct cs as [|c cs']; [done|]. cbn [join]. by destruct cs'.
  - intros Hdt Hi Hs Hf Hb. subst ty. rewrite Hi, Hs, Hf, Hb, (Hdate Hdt).
    apply startswith_join.
Qed.

(** *** The scan of the model text *)

Lemma split_nonempty s sep : ∃ x l, split s sep = x :: l.
Proof. apply SchemaAgentFacts.split_go_cons. Qed.

Lemma index_split_0 s sep : ∃ x, index (split s sep) 0 = Ok x.
Proof. destruct (split_nonempty s sep) as (x & l & ->). by exists x. Qed.

Lemma split_go_two sep : sep ≠ "" → ∀ s cur,
  str_in sep s = true → ∃ a b l, split_go sep s 0 cur = a :: b :: l.
Proof.
  intros Hsep. induction s as [|c s IH]; intros cur Hin.
  - destruct sep; [done|]. simpl in Hin. done.
  - cbn [split_go]. cbn [str_in] in Hin.
    destruct (startswith (String c s) sep) eqn:Hstart.
    + destruct (SchemaAgentFacts.split_go_cons sep s (String.length sep - 1) "")
        as (x & l & ->).
      by exists cur, x, l.
    + simpl in Hin. by apply IH.
Qed.

Lemma index_split_1 s sep e :
  sep ≠ "" → index (split s sep) 1 = Raise e →
  e = IndexError ∧ str_in sep s = false.
Proof.
  intros Hsep Hidx. destruct (str_in sep s) eqn:Hin.
  - destruct (split_go_two sep Hsep s "" Hin) as (a & b & l & Hsplit).
    unfold split in Hidx. rewrite Hsplit in Hidx. done.
  - unfold index in Hidx. destruct (split s sep !! 1); [done|].
    by injection Hidx as <-.
Qed.

Lemma close_class_built table_name columns statements :
  Forall built statements →
  Forall built (close_class table_name columns statements).
Proof.
  intros H. unfold close_class.
  destruct table_name as [name|]; [|done].
  destruct columns as [|c cs]; [done|].
  destruct (String.eqb_spec name "") as [->|Hne]; [done|].
  apply Forall_app. split; [done|]. constructor; [|constructor].
  by exists name, (c :: cs).
Qed.

Lemma close_class_length table_name columns statements :
  length (close_class table_name columns statements) ≤ S (length statements).
Proof.
  unfold close_class.
  destruct table_name as [name|]; [|lia].
  destruct columns as [|c cs]; [lia|].
  destruct (String.eqb name ""); [lia|]. rewrite length_app. simpl. lia.
Qed.

(** What the scan returns: statements as [close_class] builds them, at
    most one for the class being read and one for each class line still
    to come; it fails only on a [__tablename__] line without "=". *)
Lemma scan_lines_inv : ∀ lines cur statements,
  Forall built statements →
  match scan_lines lines cur statements with
  | Ok out =>
      Forall built out ∧
      length out ≤ length statements
                   + (match cur with Some _ => 1 | None => 0 end)
                   + length (List.filter (λ l, is_model_class (strip l)) lines)
  | Raise e =>
      e = IndexError ∧
      ∃ l, l ∈ lines ∧ startswith (strip l) "__tablename__" = true ∧
           str_in "=" (strip l) = false
  end.
Proof.
  induction lines as [|l rest IH]; intros cur statements Hbuilt;
    cbn [scan_lines].
  - destruct cur as [[table_name columns]|]; simpl.
    + split; [by apply close_class_built|].
      pose proof (close_class_length table_name columns statements). lia.
    + split; [done|lia].
  - cbn [List.filter].
    assert (Hcount : length (List.filter (λ l, is_model_class (strip l)) rest)
              ≤ length (if is_model_class (strip l)
                        then l :: List.filter (λ l, is_model_class (strip l)) rest
                        else List.filter (λ l, is_model_class (strip l)) rest)).
    { destruct (is_model_class (strip l)); simpl; lia. }
    assert (Hlater : ∀ e : exn,
              (e = IndexError ∧
               ∃ l0, l0 ∈ rest ∧ startswith (strip l0) "__tablename__" = true ∧
                     str_in "=" (strip l0) = false) →
              e = IndexError ∧
              ∃ l0, l0 ∈ l :: rest ∧ startswith (strip l0) "__tablename__" = true ∧
                    str_in "=" (strip l0) = false).
    { intros e (-> & l0 & Hin & H). split; [done|]. exists l0.
      split; [by right|done]. }
    destruct cur as [[table_name columns]|].
    + destruct (startswith (strip l) "__tablename__") eqn:Htn.
      { destruct (index (split (strip l) "=") 1) as [name|e] eqn:Hidx; simpl.
        - specialize (IH (Some (Some (strip_by is_quote (strip name)), columns))
                        statements Hbuilt).
          destruct (scan_lines rest _ statements) as [out|e].
          + destruct IH as [Hout Hlen]. split; [done|]. simpl in Hlen. lia.
          + by apply Hlater.
        - apply index_split_1 in Hidx as [-> Hno]; [|done].
          split; [done|]. exists l. split; [left|done]. }
      destruct (str_in "= db.Column(" (strip l)) eqn:Hcol.
      { destruct (index_split_0 (strip l) "=") as (col_name & ->). simpl.
        match goal with |- context [scan_lines rest ?c statements] =>
          specialize (IH c statements Hbuilt);
          destruct (scan_lines rest c statements) as [out|e] end.
        - destruct IH as [Hout Hlen]. split; [done|]. simpl in Hlen. lia.
        - by apply Hlater. }
      destruct (startswith (strip l) "class "
                || negb (String.eqb (strip l) "") && negb (startswith (strip l) "#")
                   && negb (str_in "=" (strip l)) && negb (startswith (strip l) "def"))
        eqn:Hend.
      * pose proof (close_class_built table_name columns statements Hbuilt) as Hb.
        pose proof (close_class_length table_name columns statements) as Hl.
        destruct (is_model_class (strip l)) eqn:Hmodel.
        -- specialize (IH (Some (None, [])) _ Hb).
           destruct (scan_lines rest _ _) as [out|e].
           ++ destruct IH as [Hout Hlen]. split; [done|]. simpl in *. lia.
           ++ by apply Hlater.
        -- specialize (IH None _ Hb).
           destruct (scan_lines rest _ _) as [out|e].
           ++ destruct IH as [Hout Hlen]. split; [done|]. simpl in *. lia.
           ++ by apply Hlater.
      * specialize (IH (Some (table_name, columns)) statements Hbuilt).
        destruct (scan_lines rest _ statements) as [out|e].
        -- destruct IH as [Hout Hlen]. split; [done|]. simpl in *. lia.
        -- by apply Hlater.
    + destruct (is_model_class (strip l)) eqn:Hmodel.
      * specialize (IH (Some (None, [])) statements Hbuilt).
        destruct (scan_lines rest _ statements) as [out|e].
        -- destruct IH as [Hout Hlen]. split; [done|]. simpl in *. lia.
        -- by apply Hlater.
      * specialize (IH None statements Hbuilt).
        destruct (scan_lines rest _ statements) as [out|e].
        -- destruct IH as [Hout Hlen]. split; [done|]. simpl in *. lia.
        -- by apply Hlater.
Qed.


Lemma extract_models_length schema_code :
  length (_extract_models_from_code schema_code)
  = length (List.filter (λ l, is_model_class (strip l)) (split schema_code nl)).
Proof.
  unfold _extract_models_from_code.
  induction (split schema_code nl) as [|l rest IH]; [done|].
  cbn [flat_map List.filter]. rewrite length_app, IH.
  destruct (is_model_class (strip l)) eqn:Hmodel; [|done].
  unfold is_model_class in Hmodel. apply andb_true_iff in Hmodel as [Hstart _].
  destruct (SchemaAgentFacts.split_startswith (strip l) "class ")
    as (a & b & rest' & ->); [done|done|].
  destruct (split_nonempty b "(") as (x & l' & ->). done.
Qed.



(** X7: every statement that [_generate_create_table_sql] returns is a
    CREATE TABLE built for a non-empty table name and at least one
    column, and there are never more statements than model classes found
    by [_extract_models_from_code]. *)
Theorem create_table_sql_statements (schema_code : string)
    (statements : list string) :
  _generate_create_table_sql schema_code = Ok statements →
  Forall built statements ∧
  length statements ≤ length (_extract_models_from_code schema_code).
Proof.
  intros H.
  pose proof (scan_lines_inv (split schema_code nl) None [] (List.Forall_nil _)) as Hinv.
  unfold _generate_create_table_sql in H. rewrite H in Hinv.
  destruct Hinv as [Hbuilt Hlen]. split; [done|].
  rewrite extract_models_length. simpl in Hlen. lia.
Qed.

(** X7 at a model text with two classes. *)
Lemma create_table_sql_statements_witness :
  ∃ statements,
    _generate_create_table_sql Examples.models_code = Ok statements ∧
    Forall built statements ∧ length statements ≤ 2.
Proof.
  eexists. split; [vm_compute; reflexivity|].
  apply (create_table_sql_statements Examples.models_code).
  vm_compute. reflexivity.
Defined.

(** *** What the result of a load can say *)

Section WithSqlite.
Context {conn : Type}.
Variable execute : conn → string → list sql_value → conn * outcome.







Lemma done_count_le os : done_count os ≤ length os.
Proof.
  unfold done_count. induction os as [|o os IH]; simpl; [done|].
  destruct (is_done o); simpl; lia.
Qed.

Lemma create_tables_bounds : ∀ statements c r,
  let out := create_tables execute c statements r in
  rows_inserted out.1.2 = rows_inserted r ∧
  tables_created r ≤ tables_created out.1.2 ∧
  tables_created out.1.2 ≤ tables_created r + length statements.
Proof.
  induction statements as [|sql rest IH]; intros c r; simpl; [split; [done|lia]|].
  destruct (execute c sql []) as [c1 [|msg|e]]; simpl.
  - match goal with |- context [create_tables execute c1 rest ?r1] =>
      destruct (IH c1 r1) as (H1 & H2 & H3) end.
    simpl in *. split; [done|]. lia.
  - match goal with |- context [create_tables execute c1 rest ?r1] =>
      destruct (IH c1 r1) as (H1 & H2 & H3) end.
    simpl in *. split; [done|]. lia.
  - split; [done|]. lia.
Qed.

Lemma populate_bounds : ∀ tbls c r,
  let out := populate execute c tbls r in
  tables_created out.1.2 = tables_created r ∧
  (∀ name n, rows_inserted out.1.2 !! name = Some n →
     rows_inserted r !! name = Some n ∨
     ∃ t, t ∈ tbls ∧ tbl_name t = name ∧ n ≤ length (tbl_data t)) ∧
  (out.2 = None →
   ∀ name, is_Some (rows_inserted r !! name) ∨ name ∈ map tbl_name tbls →
           is_Some (rows_inserted out.1.2 !! name)).
Proof.
  induction tbls as [|t rest IH]; intros c r; simpl.
  { split; [done|]. split; [intros; by left|].
    intros _ name [H|H]; [done|by apply elem_of_nil in H]. }
  pose proof (insert_data_spec execute t c) as Hins. simpl in Hins.
  pose proof (table_outcomes_length execute t c) as Hlen.
  destruct (_insert_data execute c (tbl_name t) (tbl_data t) (tbl_columns t))
    as [c1 [[n errs]|e]].
  - destruct Hins as (_ & _ & -> & _).
    match goal with |- context [populate execute c1 rest ?r1] =>
      destruct (IH c1 r1) as (H1 & H2 & H3) end.
    simpl in *. split; [done|]. split.
    + intros name n Hn. apply H2 in Hn as [Hn|(t' & Hin & Hname & Hle)].
      * destruct (decide (tbl_name t = name)) as [Hk|Hk].
        -- rewrite Hk, lookup_insert_eq in Hn. injection Hn as <-.
           right. exists t. split; [left|]. split; [done|].
           rewrite <- Hlen. apply done_count_le.
        -- rewrite lookup_insert_ne in Hn by done. by left.
      * right. exists t'. split; [by right|done].
    + intros Hnone name Hname. apply (H3 Hnone).
      destruct (decide (tbl_name t = name)) as [Hk|Hk].
      * left. rewrite Hk, lookup_insert_eq. by eexists.
      * rewrite lookup_insert_ne by done.
        destruct Hname as [H|[H|H]%elem_of_cons]; [by left|congruence|by right].
  - simpl. split; [done|]. split; [intros; by left|done].
Qed.

(** X9: whether the load succeeds or is cut short, [rows_inserted]
    never names a table that was not parsed and never counts more rows
    than a parsed table of that name holds, and [tables_created] never
    exceeds the number of CREATE statements; after a success every
    parsed table has its entry. *)
Theorem load_counts_bounded (connect : string → conn)
    (db_directory schema_code db_name : string)
    (parsed_data : list parsed_file) :
  let res := (create_database_from_schema execute connect db_directory
                schema_code db_name parsed_data).1 in
  (∀ name n, rows_inserted res !! name = Some n →
     ∃ t, t ∈ flat_map tables parsed_data ∧ tbl_name t = name ∧
          n ≤ length (tbl_data t)) ∧
  (∀ statements, _generate_create_table_sql schema_code = Ok statements →
     tables_created res ≤ length statements) ∧
  (_generate_create_table_sql schema_code = Raise IndexError →
   tables_created res = 0) ∧
  (success res = true →
   ∀ t, t ∈ flat_map tables parsed_data →
        is_Some (rows_inserted res !! tbl_name t)).
Proof.
  simpl. unfold create_database_from_schema.
  destruct (_generate_create_table_sql schema_code) as [statements|e0].
  2:{ simpl. split; [intros name n H; by rewrite lookup_empty in H|].
      split; [done|]. split; [done|done]. }
  set (c0 := connect (db_directory +:+ "/" +:+ db_name +:+ ".db")).
  set (r0 := {| success := false;
                db_path := Some (db_directory +:+ "/" +:+ db_name +:+ ".db");
                tables_created := 0; rows_inserted := ∅; errors := [];
                warnings := [] |}).
  pose proof (create_tables_bounds statements c0 r0) as (Hri & _ & Htc).
  pose proof (create_tables_spec execute statements c0 r0) as Hct.
  simpl in Hct, Hri, Htc.
  destruct (create_tables execute c0 statements r0) as [[c1 r1] [e1|]].
  { simpl in *. destruct Hct as [_ Hs]. rewrite Hri.
    split; [intros name n H; by rewrite lookup_empty in H|].
    split; [by intros ? [= <-]|]. split; [done|]. by rewrite Hs. }
  pose proof (populate_bounds (flat_map tables parsed_data) c1 r1)
    as (Htc2 & Hb & Hall).
  pose proof (populate_spec execute (flat_map tables parsed_data) c1 r1) as Hpop.
  simpl in Hpop, Htc2, Hb, Hall, Hri, Htc.
  destruct (populate execute c1 (flat_map tables parsed_data) r1)
    as [[c2 r2] [e2|]]; simpl in *.
  - destruct Hct as (_ & _ & Hs1 & _). destruct Hpop as [_ Hs2].
    split.
    { intros name n H. apply Hb in H as [H|H]; [|done].
      by rewrite Hri, lookup_empty in H. }
    split; [intros ? [= <-]; lia|]. split; [done|]. by rewrite Hs2, Hs1.
  - split.
    { intros name n H. apply Hb in H as [H|H]; [|done].
      by rewrite Hri, lookup_empty in H. }
    split; [intros ? [= <-]; lia|]. split; [done|].
    intros _ t Ht. apply (Hall eq_refl). right.
    apply list_elem_of_fmap. by exists t.
Qed.

End WithSqlite.


End DatabaseBuilderMore.

(** * Further properties of the schema agent *)

Module SchemaAgentMore.
Import Json SchemaAgent Claims Properties PyFacts SchemaAgentFacts.

(** *** The verifier *)

Lemma with_severity_critical issues :
  forallb is_object issues = true →
  with_severity "critical" issues = Ok (List.filter is_critical issues).
Proof.
  induction issues as [|i issues IH]; simpl; [done|].
  intros [Hobj Hall]%andb_true_iff.
  destruct i as [| | | | | |fields]; try done. simpl.
  rewrite IH by done. simpl.
  destruct (assoc fields "severity") as [sev|]; simpl; [|done].
  by destruct (eq_str sev "critical").
Qed.

Lemma with_severity_not_object severity issues :
  forallb is_object issues = false →
  ∃ e, with_severity severity issues = Raise e ∧ exn_class e = "AttributeError".
Proof.
  induction issues as [|i issues IH]; simpl; [done|].
  intros [Hobj|Hall]%andb_false_iff.
  - destruct i; try done; simpl; by eexists.
  - destruct (IH Hall) as (e & He & Hclass).
    destruct i as [| | | | | |fields]; simpl; try (by eexists).
    rewrite He. simpl. by exists e.
Qed.

Lemma filter_length_zero {A} (f : A → bool) l :
  (length (List.filter f l) =? 0) = negb (existsb f l).
Proof. induction l as [|x l IH]; simpl; [done|]. by destruct (f x). Qed.

(** X10: [_verify_schema] trusts a true-like [is_sufficient] from the
    service: the report is handed on untouched and its issues are not
    looked at, so that it stays sufficient even when it lists critical
    issues.  Only a missing or false-like flag is replaced, by whether the
    issue list is free of critical entries; an issue that is not an
    object then raises [AttributeError]. *)
Theorem verify_schema_flag (chat : nat → result string)
    (json_loads : string → result json) (schema_code : string) (plan : json)
    (fa : file_analysis) (requirements : string) (w : world)
    (content : string) (fields : list (string * json)) :
  chat (calls w) = Ok content →
  json_loads content = Ok (JDict fields) →
  let flag := default JNull (assoc fields "is_sufficient") in
  let delivered :=
    (_verify_schema chat json_loads schema_code plan fa requirements w).1 in
  (truthy flag = true → delivered = Ok (JDict fields)) ∧
  (truthy flag = false →
   ∀ issues,
     default (JList []) (assoc fields "issues") = JList issues →
     (forallb is_object issues = true →
      delivered
      = Ok (JDict (assoc_set fields "is_sufficient"
                     (JBool (negb (existsb is_critical issues)))))) ∧
     (forallb is_object issues = false →
      ∃ e, delivered = Raise e ∧ exn_class e = "AttributeError")).
Proof.
  intros Hchat Hloads. simpl.
  assert (Hrun : (_verify_schema chat json_loads schema_code plan fa requirements w).1
                 = force_sufficient (JDict fields)).
  { unfold _verify_schema, chat_completion, mbind, M_bind, lift. simpl.
    by rewrite Hchat, Hloads. }
  rewrite Hrun. clear Hrun. unfold force_sufficient. simpl.
  destruct (assoc fields "is_sufficient") as [sent|]; simpl; split.
  - by intros ->.
  - intros ->. simpl. intros issues Hissues.
    destruct (assoc fields "issues") as [v|]; simpl in *; subst; simpl; split.
    + intros Hobj. rewrite with_severity_critical by done. simpl.
      by rewrite filter_length_zero.
    + intros Hobj.
      destruct (with_severity_not_object "critical" issues Hobj) as (e & -> & Hc).
      by exists e.
    + injection Hissues as <-. done.
    + injection Hissues as <-. done.
  - done.
  - intros _ issues Hissues.
    destruct (assoc fields "issues") as [v|]; simpl in *; subst; simpl; split.
    + intros Hobj. rewrite with_severity_critical by done. simpl.
      by rewrite filter_length_zero.
    + intros Hobj.
      destruct (with_severity_not_object "critical" issues Hobj) as (e & -> & Hc).
      by exists e.
    + injection Hissues as <-. done.
    + injection Hissues as <-. done.
Qed.

(** X10 at a report that the service calls sufficient although it
    lists a critical issue. *)
Lemma verify_schema_flag_witness :
  (_verify_schema (λ _, Ok "report")
     (λ _, Ok (JDict [ ("is_sufficient", JBool true);
                       ("issues", JList [ JDict [ ("severity", JStr "critical") ] ]) ]))
     "" JNull Examples.narrative "" Examples.fresh).1
  = Ok (JDict [ ("is_sufficient", JBool true);
                ("issues", JList [ JDict [ ("severity", JStr "critical") ] ]) ]).
Proof.
  exact (proj1 (verify_schema_flag (λ _, Ok "report")
                  (λ _, Ok (JDict [ ("is_sufficient", JBool true);
                                    ("issues", JList [ JDict [ ("severity", JStr "critical") ] ]) ]))
                  "" JNull Examples.narrative "" Examples.fresh "report"
                  [ ("is_sufficient", JBool true);
                    ("issues", JList [ JDict [ ("severity", JStr "critical") ] ]) ]
                  eq_refl eq_refl) eq_refl).
Defined.

(** *** The code fences *)












(** *** The rounds of the loop *)

Lemma quiet_ret {A} (a : A) : quiet 0 (mret a : M A).
Proof. intros w a' w1 [= <- <-]. split; [lia|done]. Qed.

Lemma quiet_lift {A} (r : result A) : quiet 0 (lift r).
Proof. intros w a w1 [= -> <-]. split; [lia|done]. Qed.

Lemma quiet_bind {A B} k1 k2 (m : M A) (f : A → M B) :
  quiet k1 m → (∀ a, quiet k2 (f a)) → quiet (k1 + k2) (m ≫= f).
Proof.
  intros Hm Hf w b w2 H.
  apply bind_ok_inv in H as (a & w1 & H1 & H2).
  apply Hm in H1 as [Hc1 Hp1]. apply Hf in H2 as [Hc2 Hp2].
  split; [lia|congruence].
Qed.

Section WithService.
Variable chat : nat → result string.
Variable json_loads : string → result json.
Variable py_str : json → string.
Variable max_rounds : nat.
Variable progress_callback : bool.

Lemma quiet_chat : quiet 1 (chat_completion chat).
Proof.
  intros w a w1 H. unfold chat_completion in H.
  injection H as _ <-. simpl. split; [lia|done].
Qed.

Lemma quiet_plan_step fa requirements st :
  quiet 1 (plan_step chat json_loads fa requirements st).
Proof.
  unfold plan_step, _create_initial_plan, _refine_plan.
  destruct (current_plan st);
    try (apply (quiet_bind 1 0); [apply quiet_chat|intros c; apply quiet_lift]);
    (apply (quiet_bind 0 1); [apply quiet_lift|]; intros r;
     apply (quiet_bind 1 0); [apply quiet_chat|intros c; apply quiet_lift]).
Qed.

Lemma quiet_code plan fa : quiet 1 (_generate_code chat plan fa).
Proof.
  apply (quiet_bind 1 0); [apply quiet_chat|]. intros code.
  destruct (startswith code (fence +:+ "python")).
  - apply (quiet_bind 0 0); [apply quiet_lift|]. intros p1.
    apply (quiet_bind 0 0); [apply quiet_lift|]. intros p2. apply quiet_ret.
  - destruct (startswith code fence); [|apply quiet_ret].
    apply (quiet_bind 0 0); [apply quiet_lift|]. intros p1.
    apply (quiet_bind 0 0); [apply quiet_lift|]. intros p2. apply quiet_ret.
Qed.

Lemma quiet_verify code plan fa requirements :
  quiet 1 (_verify_schema chat json_loads code plan fa requirements).
Proof.
  apply (quiet_bind 1 0); [apply quiet_chat|]. intros c.
  apply (quiet_bind 0 0); [apply quiet_lift|]. intros v. apply quiet_lift.
Qed.

Lemma verify_forced code plan fa requirements w v w1 :
  _verify_schema chat json_loads code plan fa requirements w = (Ok v, w1) →
  ∃ verification, force_sufficient verification = Ok v.
Proof.
  unfold _verify_schema. intros H.
  apply bind_ok_inv in H as (content & w2 & _ & H).
  apply bind_ok_inv in H as (verification & w3 & _ & H).
  unfold lift in H. injection H as H _. by exists verification.
Qed.

Lemma notify_effect info w u w1 :
  notify progress_callback info w = (Ok u, w1) →
  calls w1 = calls w ∧
  progress w1 = (progress w ++ if progress_callback then [info] else [])%list.
Proof.
  unfold notify. destruct progress_callback; intros [= _ <-]; simpl.
  - done.
  - by rewrite app_nil_r.
Qed.

Lemma with_severity_from severity : ∀ items kept,
  with_severity severity items = Ok kept → kept ≠ [] → items ≠ [].
Proof. intros [|i items] kept; simpl; [by intros [= <-]|done]. Qed.

(** When the report handed to the loop is not sufficient, its flag is
    the constant [False] and the router asks to fix a critical issue. *)
Lemma insufficient_routes verification v flag :
  force_sufficient verification = Ok v →
  getitem v "is_sufficient" = Ok flag → truthy flag = false →
  flag = JBool false ∧
  ∀ act, _route_next_action py_str v = Ok act →
    ∃ description,
      act = Action "refine" ("Fix critical issue: " +:+ description).
Proof.
  unfold force_sufficient.
  destruct verification as [| | | | | |fields]; try done. simpl.
  set (sent := match assoc fields "is_sufficient" with
               | Some x => x
               | None => JNull
               end).
  set (issues0 := match assoc fields "issues" with
                  | Some x => x
                  | None => JList []
                  end).
  destruct (truthy sent) eqn:Hsent; simpl.
  { intros [= <-]. simpl. subst sent.
    destruct (assoc fields "is_sufficient") as [x|]; [|done].
    intros [= <-]. congruence. }
  destruct (iter issues0) as [items|e] eqn:Hiter; [|done]. simpl.
  destruct (with_severity "critical" items) as [crit|e] eqn:Hcrit; [|done].
  simpl. intros [= <-]. simpl. rewrite assoc_set_same.
  intros [= <-]. simpl. intros Hlen.
  split; [by rewrite Hlen|].
  destruct crit as [|first crit]; [done|].
  pose proof (with_severity_from _ _ _ Hcrit ltac:(done)) as Hitems.
  intros act. unfold _route_next_action. simpl.
  rewrite assoc_set_other by done. fold issues0.
  assert (Htruthy : truthy issues0 = true).
  { destruct issues0 as [| | | |s|l|d]; try done; simpl in *;
      injection Hiter as <-.
    - by destruct s.
    - by destruct l.
    - by destruct d. }
  rewrite Htruthy. simpl. rewrite Hiter. simpl. rewrite Hcrit. simpl.
  destruct (getitem first "description") as [description|e]; [|done].
  simpl. intros [= <-]. by eexists.
Qed.

Lemma set_last_snoc f (h : list round_record) x :
  set_last f (h ++ [x])%list = (h ++ [f x])%list.
Proof.
  unfold set_last. rewrite reverse_snoc, reverse_cons.
  by rewrite reverse_involutive.
Qed.

(** What a round that completes has done: three requests, three
    progress reports and a fourth when it asks for another round, and
    one more entry in the history. *)
Lemma one_round_shape fa requirements round_num st w stop st1 w1 :
  one_round chat json_loads py_str max_rounds progress_callback
    fa requirements round_num st w = (Ok (stop, st1), w1) →
  ∃ rr reports,
    history st1 = (history st ++ [rr])%list ∧
    rr_round rr = round_num ∧
    current_plan st1 = rr_plan rr ∧
    verification st1 = rr_verification rr ∧
    (if stop then settled rr else refining rr) ∧
    calls w1 = calls w + 3 ∧
    progress w1 = (progress w ++ reports)%list ∧
    length reports
    = (if progress_callback then if stop then 3 else 4 else 0) ∧
    Forall (λ p, pi_round p = round_num ∧ pi_max_rounds p = max_rounds) reports.
Proof.
  unfold one_round. intros H.
  apply bind_ok_inv in H as (u1 & w2 & Hn1 & H).
  apply bind_ok_inv in H as (plan & w3 & Hplan & H).
  apply bind_ok_inv in H as (u2 & w4 & Hn2 & H).
  apply bind_ok_inv in H as (code & w5 & Hcode & H).
  apply bind_ok_inv in H as (u3 & w6 & Hn3 & H).
  apply bind_ok_inv in H as (v & w7 & Hverify & H).
  apply bind_ok_inv in H as (flag & w8 & Hflag & H).
  apply notify_effect in Hn1 as [Hc1 Hp1].
  apply quiet_plan_step in Hplan as [Hc2 Hp2].
  apply notify_effect in Hn2 as [Hc3 Hp3].
  apply quiet_code in Hcode as [Hc4 Hp4].
  apply notify_effect in Hn3 as [Hc5 Hp5].
  pose proof (verify_forced _ _ _ _ _ _ _ Hverify) as (verification & Hforce).
  apply quiet_verify in Hverify as [Hc6 Hp6].
  unfold lift in Hflag. injection Hflag as Hflag <-.
  rewrite !set_last_snoc in H. cbn [rr_round rr_plan rr_verification rr_action] in H.
  destruct (truthy flag) eqn:Htruthy.
  - injection H as <- <- <-. simpl.
    eexists _, _. split; [reflexivity|]. simpl.
    split; [done|]. split; [done|]. split; [done|].
    split; [by exists v, flag|]. split; [lia|].
    split.
    { rewrite Hp6, Hp5, Hp4, Hp3, Hp2, Hp1, <- !app_assoc. reflexivity. }
    destruct progress_callback; simpl; [|done].
    split; [done|]. repeat constructor.
  - apply bind_ok_inv in H as (act & w9 & Hact & H).
    apply bind_ok_inv in H as (u4 & w10 & Hn4 & H).
    unfold lift in Hact. injection Hact as Hact <-.
    apply notify_effect in Hn4 as [Hc7 Hp7].
    destruct (insufficient_routes _ _ _ Hforce Hflag Htruthy) as [-> Hroute].
    destruct (Hroute act Hact) as (description & ->).
    rewrite set_last_snoc in H. cbn [rr_round rr_plan rr_verification rr_action] in H.
    injection H as <- <- <-. simpl.
    eexists _, _. split; [reflexivity|]. simpl.
    split; [done|]. split; [done|]. split; [done|].
    split; [by exists v, description|]. split; [lia|].
    split.
    { rewrite Hp7, Hp6, Hp5, Hp4, Hp3, Hp2, Hp1, <- !app_assoc. reflexivity. }
    destruct progress_callback; simpl; [|done].
    split; [done|]. repeat constructor.
Qed.

(** What the loop that completes has done. *)
Lemma rounds_shape fa requirements : ∀ remaining first st w st' w',
  rounds chat json_loads py_str max_rounds progress_callback
    fa requirements remaining first st w = (Ok st', w') →
  (remaining = 0 ∧ st' = st ∧ w' = w) ∨
  ∃ earlier last reports (stopped : bool),
    history st' = (history st ++ earlier ++ [last])%list ∧
    Forall refining earlier ∧
    map rr_round (earlier ++ [last])%list = seq first (S (length earlier)) ∧
    S (length earlier) ≤ remaining ∧
    current_plan st' = rr_plan last ∧
    verification st' = rr_verification last ∧
    (if stopped then settled last
     else refining last ∧ S (length earlier) = remaining) ∧
    calls w' = calls w + 3 * S (length earlier) ∧
    progress w' = (progress w ++ reports)%list ∧
    length reports
    = (if progress_callback
       then 4 * S (length earlier) - (if stopped then 1 else 0) else 0) ∧
    Forall (λ p, first ≤ pi_round p ∧ pi_round p ≤ first + length earlier ∧
                 pi_max_rounds p = max_rounds) reports.
Proof.
  induction remaining as [|n IH]; intros first st w st' w' H; simpl in H.
  { left. by injection H as <- <-. }
  right. apply bind_ok_inv in H as ([stop st1] & w1 & Hround & H).
  apply one_round_shape in Hround
    as (rr & reports1 & Hh & Hnum & Hplan & Hv & Hkind & Hc & Hp & Hlen & Hall).
  assert (Hall1 : ∀ k, Forall (λ p, first ≤ pi_round p
                                    ∧ pi_round p ≤ first + k
                                    ∧ pi_max_rounds p = max_rounds) reports1).
  { intros k. eapply Forall_impl; [exact Hall|]. intros p [-> ->].
    split; [lia|]. split; [lia|done]. }
  destruct stop.
  - injection H as <- <-.
    exists [], rr, reports1, true. simpl. rewrite Hnum.
    split; [done|]. split; [done|]. split; [done|]. split; [lia|].
    split; [done|]. split; [done|]. split; [done|]. split; [lia|].
    split; [done|]. split; [by destruct progress_callback|]. apply Hall1.
  - apply IH in H
      as [(-> & -> & ->)
         |(earlier & last & reports & stopped & Hh' & Hearlier & Hnums & Hle
           & Hplan' & Hv' & Hkind' & Hc' & Hp' & Hlen' & Hall')].
    + exists [], rr, reports1, false. simpl. rewrite Hnum.
      split; [done|]. split; [done|]. split; [done|]. split; [lia|].
      split; [done|]. split; [done|]. split; [done|]. split; [lia|].
      split; [done|]. split; [by destruct progress_callback|]. apply Hall1.
    + exists (rr :: earlier), last, (reports1 ++ reports)%list, stopped.
      split; [by rewrite Hh', Hh, <- app_assoc|].
      split; [by constructor|].
      split; [simpl; by rewrite Hnum, Hnums|].
      split; [simpl; lia|].
      split; [done|]. split; [done|].
      split; [destruct stopped; [done|]; destruct Hkind' as [? ?];
              split; [done|simpl; lia]|].
      split; [simpl; lia|].
      split; [by rewrite Hp', Hp, <- app_assoc|].
      split.
      { rewrite length_app, Hlen, Hlen'. simpl.
        destruct progress_callback; [|done]. destruct stopped; lia. }
      apply Forall_app. split; [apply Hall1|].
      eapply Forall_impl; [exact Hall'|]. intros p (H1 & H2 & H3).
      simpl. split; [lia|]. split; [lia|done].
Qed.

(** What a run that returns a result has done. *)
Lemma generate_schema_shape fa requirements w r w' :
  generate_schema chat json_loads py_str max_rounds progress_callback
    fa requirements w = (Ok r, w') →
  ∃ earlier last reports (stopped : bool),
    refinement_history r = (earlier ++ [last])%list ∧
    Forall refining earlier ∧
    map rr_round (refinement_history r) = seq 1 (rounds_taken r) ∧
    (if stopped then settled last ∧ truthy (verification_status r) = true
     else refining last ∧ verification_status r = JBool false
          ∧ rounds_taken r = max_rounds) ∧
    calls w' = calls w + 3 * rounds_taken r + 1 ∧
    progress w' = (progress w ++ reports)%list ∧
    length reports
    = (if progress_callback
       then 4 * rounds_taken r - (if stopped then 1 else 0) else 0) ∧
    Forall (λ p, 1 ≤ pi_round p ∧ pi_round p ≤ rounds_taken r ∧
                 pi_max_rounds p = max_rounds) reports.
Proof.
  unfold generate_schema. intros H.
  apply bind_ok_inv in H as (st & w1 & Hrounds & H).
  apply bind_ok_inv in H as (code & w2 & Hcode & H).
  apply bind_ok_inv in H as (description & w3 & Hdescr & H).
  apply bind_ok_inv in H as (v & w4 & Hv & H).
  apply bind_ok_inv in H as (status & w5 & Hstatus & H).
  apply bind_ok_inv in H as (warnings & w6 & Hwarn & H).
  apply bind_ok_inv in H as (relationships & w7 & Hrel & H).
  injection H as <- <-. simpl.
  apply quiet_code in Hcode as [Hc2 Hp2].
  unfold lift in Hdescr, Hv, Hstatus, Hwarn, Hrel.
  injection Hdescr as _ <-. injection Hv as Hv <-.
  injection Hstatus as Hstatus <-. injection Hwarn as _ <-.
  injection Hrel as _ <-.
  apply rounds_shape in Hrounds
    as [(_ & -> & _)
       |(earlier & last & reports & stopped & Hh & Hearlier & Hnums & Hle
         & Hplan & Hver & Hkind & Hc & Hp & Hlen & Hall)].
  { simpl in Hv. done. }
  simpl in Hh. rewrite Hh, length_app. simpl.
  replace (length earlier + 1) with (S (length earlier)) by lia.
  exists earlier, last, reports, stopped.
  split; [done|]. split; [done|]. split; [done|].
  split.
  { rewrite Hver in Hv. destruct stopped.
    - destruct Hkind as (v' & flag & Hv' & Hflag & Htruthy & Hact).
      split; [by exists v', flag|].
      rewrite Hv' in Hv. destruct v' ; simpl in Hv; try done;
        injection Hv as <-; rewrite Hflag in Hstatus; by injection Hstatus as <-.
    - destruct Hkind as [(v' & d & Hv' & Hflag & Hact) Hmax].
      split; [by exists v', d|].
      rewrite Hv' in Hv. injection Hv as <-.
      rewrite Hflag in Hstatus. injection Hstatus as <-. split; [done|lia]. }
  split; [lia|]. split; [congruence|]. split; [done|].
  eapply Forall_impl; [exact Hall|]. intros p (H1 & H2 & H3).
  split; [lia|]. split; [lia|done].
Qed.

(** X12: in every result of [generate_schema] the history numbers the
    rounds 1, 2, ... without gap; every round before the last has a
    report whose [is_sufficient] is the constant [False] and the action
    "refine" with the reason "Fix critical issue: ..." (the router's
    other answers never occur in a history); the last round either has a
    sufficient report and no action, and the result's status is
    true-like, or it is the round [max_rounds], has a report with
    [False] and the same action, and the result's status is [False]. *)
Theorem refinement_history_shape (fa : file_analysis) (requirements : string)
    (w : world) (r : schema_result) (w' : world) :
  generate_schema chat json_loads py_str max_rounds progress_callback
    fa requirements w = (Ok r, w') →
  ∃ earlier last,
    refinement_history r = (earlier ++ [last])%list ∧
    Forall refining earlier ∧
    map rr_round (refinement_history r) = seq 1 (rounds_taken r) ∧
    ((settled last ∧ truthy (verification_status r) = true) ∨
     (refining last ∧ verification_status r = JBool false
      ∧ rounds_taken r = max_rounds)).
Proof.
  intros H. apply generate_schema_shape in H
    as (earlier & last & reports & stopped & Hh & Hearlier & Hnums & Hkind & _).
  exists earlier, last. split; [done|]. split; [done|]. split; [done|].
  destruct stopped; [by left|by right].
Qed.

(** X13: a run of [generate_schema] that returns a result after [k]
    rounds has sent exactly [3 k + 1] requests to the service; when a
    progress callback was given it has received [4 k] reports, one fewer
    when the last report was sufficient, each bearing a round number
    between 1 and [k]; without a callback nothing is reported. *)
Theorem generate_schema_cost (fa : file_analysis) (requirements : string)
    (w : world) (r : schema_result) (w' : world) :
  generate_schema chat json_loads py_str max_rounds progress_callback
    fa requirements w = (Ok r, w') →
  calls w' = calls w + 3 * rounds_taken r + 1 ∧
  ∃ reports,
    progress w' = (progress w ++ reports)%list ∧
    length reports
    = (if progress_callback
       then 4 * rounds_taken r
            - (if truthy (verification_status r) then 1 else 0)
       else 0) ∧
    Forall (λ p, 1 ≤ pi_round p ∧ pi_round p ≤ rounds_taken r ∧
                 pi_max_rounds p = max_rounds) reports.
Proof.
  intros H. apply generate_schema_shape in H
    as (earlier & last & reports & stopped & _ & _ & _ & Hkind & Hc & Hp
        & Hlen & Hall).
  split; [done|]. exists reports. split; [done|]. split; [|done].
  rewrite Hlen. destruct stopped.
  - destruct Hkind as [_ ->]. done.
  - destruct Hkind as (_ & -> & _). done.
Qed.

End WithService.

(** X12 with a service that answers as asked. *)
Lemma refinement_history_shape_witness :
  ∃ r w' last,
    Examples.run_agent Examples.service_good = (Ok r, w') ∧
    refinement_history r = [last] ∧ settled last.
Proof.
  destruct (Examples.run_agent Examples.service_good) as [[r|e] w'] eqn:Hrun;
    [|vm_compute in Hrun; discriminate Hrun].
  unfold Examples.run_agent in Hrun.
  destruct (refinement_history_shape _ _ _ _ _ _ _ _ _ _ Hrun)
    as (earlier & last & Hh & _ & _ & Hkind).
  exists r, w', last. split; [reflexivity|].
  vm_compute in Hrun. injection Hrun as <- <-.
  destruct earlier as [|rr earlier]; [|by destruct earlier].
  split; [exact Hh|].
  destruct Hkind as [[Hs _]|(_ & Hf & _)]; [exact Hs|discriminate Hf].
Defined.

(** X13 with the same service: one round, four requests, three
    reports. *)
Lemma generate_schema_cost_witness :
  ∃ r w',
    Examples.run_agent Examples.service_good = (Ok r, w') ∧
    calls w' = 4 ∧ length (progress w') = 3.
Proof.
  destruct (Examples.run_agent Examples.service_good) as [[r|e] w'] eqn:Hrun;
    [|vm_compute in Hrun; discriminate Hrun].
  unfold Examples.run_agent in Hrun.
  destruct (generate_schema_cost _ _ _ _ _ _ _ _ _ _ Hrun)
    as (Hc & reports & Hp & Hlen & _).
  exists r, w'. split; [reflexivity|].
  rewrite Hc, Hp, length_app, Hlen.
  vm_compute in Hrun. injection Hrun as <- <-. split; reflexivity.
Defined.

End SchemaAgentMore.

(** * Further properties of the ingestion orchestrator *)

Module IngestionOrchestratorMore.
Import SchemaAgent DatabaseBuilder Claims Properties IngestionOrchestrator
  IngestionQueries IngestionOrchestratorFacts.

Section WithCollaborators.
Context {analysis : Type}.
Variable parse_file : string → result parsed_file.
Variable analyze_files : list parsed_file → result analysis.
Variable agent_generate_schema :
  analysis → string → list progress_info * result schema_result.
Variable builder_create_database :
  string → string → option (list parsed_file) → result build_result.

#[local] Abbreviation state := (@IngestionState analysis).
#[local] Abbreviation orch := (@orchestrator analysis).

Lemma get_state_unknown (o : orch) id :
  states o !! id = None → disk o !! id = None → _get_state o id = (None, o).
Proof. intros H1 H2. unfold _get_state. by rewrite H1, H2. Qed.


(** X14: for an identifier that is neither in memory nor on disk,
    every operation of the orchestrator answers "Invalid upload ID" and
    leaves memory, disk and journal as they were; nothing is parsed,
    generated or built. *)
Theorem unknown_upload_id (o : orch) (id : string) (db_name : option string)
    (approved : bool) :
  states o !! id = None → disk o !! id = None →
  process_files parse_file analyze_files o id
  = (RespError "Invalid upload ID" None, o) ∧
  IngestionOrchestrator.generate_schema agent_generate_schema o id
  = (RespError "Invalid upload ID" None, o) ∧
  finalize_ingestion builder_create_database o id db_name approved
  = (RespError "Invalid upload ID" None, o) ∧
  get_status o id = (inl "Invalid upload ID", o) ∧
  get_schema o id = (inl "Invalid upload ID", o).
Proof.
  intros H1 H2.
  unfold process_files, IngestionOrchestrator.generate_schema,
    finalize_ingestion, get_status, get_schema.
  by rewrite get_state_unknown.
Qed.

(** *** Memory and disk *)







(** *** Schema generation as a stage *)

Lemma set_schema_progress_twice (s : state) p q :
  set_schema_progress (set_schema_progress s p) q = set_schema_progress s q.
Proof. done. Qed.

(** The progress callback, report after report: each one is saved, the
    last one stays. *)
Lemma progress_fold (reports : list progress_info) : ∀ (s : state) (o : orch),
  let out := fold_left report_progress reports (s, o) in
  let s' := match last reports with
            | Some p => set_schema_progress s p
            | None => s
            end in
  out.1 = s' ∧
  trace out.2
  = (trace o ++ map (λ p, Saved (set_schema_progress s p)) reports)%list ∧
  states out.2 = (if reports is [] then states o
                  else <[ upload_id s := s' ]> (states o)) ∧
  disk out.2 = (if reports is [] then disk o
                else <[ upload_id s := s' ]> (disk o)).
Proof.
  induction reports as [|p reports IH]; intros s o.
  { simpl. by rewrite app_nil_r. }
  cbn zeta. cbn [fold_left].
  change (report_progress (s, o) p)
    with (set_schema_progress s p, _save_state o (set_schema_progress s p)).
  destruct (IH (set_schema_progress s p)
               (_save_state o (set_schema_progress s p)))
    as (H1 & H2 & H3 & H4).
  rewrite H1, H2, H3, H4. clear IH H1 H2 H3 H4.
  change (upload_id (set_schema_progress s p)) with (upload_id s).
  destruct reports as [|q reports].
  - simpl. by rewrite <- app_assoc.
  - change (last (p :: q :: reports)) with (last (q :: reports)).
    destruct (last (q :: reports)) as [x|] eqn:Hlast;
      [|by apply last_None in Hlast].
    split; [done|].
    split; [simpl; by rewrite <- app_assoc|].
    simpl states. simpl disk. by rewrite !insert_insert_eq.
Qed.

Lemma generate_schema_stage_run (o : orch) (id : string) (s : state) (o1 : orch) :
  _get_state o id = (Some s, o1) →
  let res := IngestionOrchestrator.generate_schema agent_generate_schema o id in
  match file_analysis s with
  | None => res = (RespError "Files must be analyzed first" None, o1)
  | Some a =>
      let reports := (agent_generate_schema a (requirements s)).1 in
      ∃ s',
        states res.2 !! upload_id s = Some s' ∧
        disk res.2 !! upload_id s = Some s' ∧
        trace res.2
        = (trace o
           ++ [ Saved (set_stage s GeneratingSchema); AgentCalled ]
           ++ map (λ p, Saved (set_schema_progress
                                 (set_stage s GeneratingSchema) p)) reports
           ++ [ Saved s' ])%list ∧
        schema_progress s'
        = (if last reports is Some p then Some p else schema_progress s) ∧
        match (agent_generate_schema a (requirements s)).2 with
        | Ok r =>
            stage_of s' = AwaitingApproval ∧ schema_result_of s' = Some r ∧
            state_errors s' = state_errors s ∧
            res.1 = RespSchema id r
        | Raise e =>
            stage_of s' = Failed ∧ schema_result_of s' = schema_result_of s ∧
            state_errors s'
            = (state_errors s ++ [ "Schema generation failed: " +:+ exn_str e ])%list ∧
            res.1 = RespError ("Schema generation failed: " +:+ exn_str e) None
        end
  end.
Proof.
  intros Hget. apply get_state_spec in Hget as Htrace.
  destruct Htrace as [Htr _].
  unfold IngestionOrchestrator.generate_schema. rewrite Hget.
  destruct (file_analysis s) as [a|]; [|done].
  cbn [requirements set_stage].
  destruct (agent_generate_schema a (requirements s)) as [reports outcome].
  destruct (progress_fold reports (set_stage s GeneratingSchema)
              (log (_save_state o1 (set_stage s GeneratingSchema)) AgentCalled))
    as (H1 & H2 & H3 & H4).
  destruct (fold_left report_progress reports _) as [s2 o2].
  simpl in H1, H2, H3, H4. simpl.
  assert (Hid : upload_id s2 = upload_id s)
    by (subst s2; by destruct (last reports)).
  assert (Hprog : schema_progress s2
                  = (if last reports is Some p then Some p else schema_progress s))
    by (subst s2; by destruct (last reports)).
  assert (Hkeep : schema_result_of s2 = schema_result_of s
                  ∧ state_errors s2 = state_errors s)
    by (subst s2; by destruct (last reports)).
  destruct Hkeep as [Hres Herrs].
  destruct outcome as [r|e]; simpl; eexists;
    rewrite Hid, !lookup_insert_eq, H2, Htr, <- !app_assoc; simpl;
    (split; [reflexivity|]); (split; [reflexivity|]);
    (split; [reflexivity|]); simpl; rewrite ?Herrs; done.
Qed.

(** X16: [generate_schema] of the orchestrator is the boundary of the
    stage.  Without an analysis it answers "Files must be analyzed
    first" and changes nothing.  With one it saves the stage
    [generating_schema], calls the agent once, saves the job at each
    progress report, and then either stores the result and saves the
    stage [awaiting_approval], or, when the agent raises, saves the stage
    [failed] with the error "Schema generation failed: ..." and keeps
    the schema result the job had; the exception never leaves the
    orchestrator. *)
Theorem generate_schema_stage (o : orch) (id : string) (s : state) (o1 : orch) :
  _get_state o id = (Some s, o1) →
  let res := IngestionOrchestrator.generate_schema agent_generate_schema o id in
  match file_analysis s with
  | None => res = (RespError "Files must be analyzed first" None, o1)
  | Some a =>
      let reports := (agent_generate_schema a (requirements s)).1 in
      ∃ s',
        states res.2 !! upload_id s = Some s' ∧
        disk res.2 !! upload_id s = Some s' ∧
        trace res.2
        = (trace o
           ++ [ Saved (set_stage s GeneratingSchema); AgentCalled ]
           ++ map (λ p, Saved (set_schema_progress
                                 (set_stage s GeneratingSchema) p)) reports
           ++ [ Saved s' ])%list ∧
        schema_progress s'
        = (if last reports is Some p then Some p else schema_progress s) ∧
        match (agent_generate_schema a (requirements s)).2 with
        | Ok r =>
            stage_of s' = AwaitingApproval ∧ schema_result_of s' = Some r ∧
            state_errors s' = state_errors s ∧
            res.1 = RespSchema id r
        | Raise e =>
            stage_of s' = Failed ∧ schema_result_of s' = schema_result_of s ∧
            state_errors s'
            = (state_errors s ++ [ "Schema generation failed: " +:+ exn_str e ])%list ∧
            res.1 = RespError ("Schema generation failed: " +:+ exn_str e) None
        end
  end.
Proof. apply generate_schema_stage_run. Qed.

(** *** What an operation leaves untouched *)

Lemma get_state_some (o : orch) id s o1 :
  _get_state o id = (Some s, o1) → states o1 !! id = Some s.
Proof.
  unfold _get_state. destruct (states o !! id) as [s0|] eqn:Hs.
  - by intros [= <- <-].
  - destruct (disk o !! id); intros [= <- <-]. simpl.
    by rewrite lookup_insert_eq.
Qed.

(** X17: no operation changes the identifier, the files or the
    requirements of a job, and none removes an error: the errors before
    are a prefix of the errors after.  Each stage writes its own fields
    only: processing the files leaves the schema result, the progress
    and the database result alone; generating the schema leaves the
    parsed data, the analysis and the database result alone; finalizing
    leaves the parsed data, the analysis, the schema result and the
    progress alone. *)
Theorem job_fields_preserved (o : orch) (id : string) (s : state) (o1 : orch)
    (db_name : option string) (approved : bool) :
  _get_state o id = (Some s, o1) → upload_id s = id →
  (∃ s', states (process_files parse_file analyze_files o id).2 !! id = Some s' ∧
         upload_id s' = id ∧ files s' = files s ∧
         requirements s' = requirements s ∧
         state_errors s `prefix_of` state_errors s' ∧
         schema_result_of s' = schema_result_of s ∧
         schema_progress s' = schema_progress s ∧
         database_result s' = database_result s) ∧
  (∃ s', states (IngestionOrchestrator.generate_schema
                   agent_generate_schema o id).2 !! id = Some s' ∧
         upload_id s' = id ∧ files s' = files s ∧
         requirements s' = requirements s ∧
         state_errors s `prefix_of` state_errors s' ∧
         parsed_data s' = parsed_data s ∧
         file_analysis s' = file_analysis s ∧
         database_result s' = database_result s) ∧
  (∃ s', states (finalize_ingestion builder_create_database o id
                   db_name approved).2 !! id = Some s' ∧
         upload_id s' = id ∧ files s' = files s ∧
         requirements s' = requirements s ∧
         state_errors s `prefix_of` state_errors s' ∧
         parsed_data s' = parsed_data s ∧
         file_analysis s' = file_analysis s ∧
         schema_result_of s' = schema_result_of s ∧
         schema_progress s' = schema_progress s).
Proof.
  intros Hget Hid. pose proof (get_state_some _ _ _ _ Hget) as Hmem.
  split; [|split].
  - unfold process_files. rewrite Hget, parse_all_spec. simpl.
    destruct (parsed_ok parse_file (files s)) as [|p ps]; simpl.
    + eexists. rewrite Hid, lookup_insert_eq. split; [reflexivity|]. simpl.
      repeat split; try done. rewrite <- app_assoc. by apply prefix_app_r.
    + destruct (analyze_files (p :: ps)); simpl; eexists;
        rewrite Hid, lookup_insert_eq; (split; [reflexivity|]); simpl;
        repeat split; try done; rewrite <- ?app_assoc; by apply prefix_app_r.
  - unfold IngestionOrchestrator.generate_schema. rewrite Hget.
    destruct (file_analysis s) as [a|] eqn:Ha.
    2:{ exists s. by rewrite Ha. }
    cbn [requirements set_stage].
    destruct (agent_generate_schema a (requirements s)) as [reports outcome].
    destruct (progress_fold reports (set_stage s GeneratingSchema)
                (log (_save_state o1 (set_stage s GeneratingSchema)) AgentCalled))
      as (H1 & _).
    destruct (fold_left report_progress reports _) as [s2 o2].
    simpl in H1.
    assert (Hs2 : upload_id s2 = id ∧ files s2 = files s ∧
                  requirements s2 = requirements s ∧
                  state_errors s2 = state_errors s ∧
                  parsed_data s2 = parsed_data s ∧
                  file_analysis s2 = file_analysis s ∧
                  database_result s2 = database_result s).
    { subst s2. destruct (last reports); simpl; by rewrite Ha. }
    destruct Hs2 as (E1 & E2 & E3 & E4 & E5 & E6 & E7).
    destruct outcome as [r|e]; simpl; eexists;
      rewrite E1, lookup_insert_eq; (split; [reflexivity|]); simpl;
      rewrite ?E4, <- ?Ha; repeat split; try done; by apply prefix_app_r.
  - unfold finalize_ingestion. rewrite Hget.
    destruct approved; cbn [negb].
    + destruct (schema_result_of s) as [r|] eqn:Hr.
      2:{ exists s. by rewrite Hr. }
      destruct (builder_create_database _ _ _) as [db|e]; simpl.
      * destruct (success db); simpl; rewrite Hid, lookup_insert_eq;
          eexists; (split; [reflexivity|]); simpl; repeat split; try done;
          by apply prefix_app_r.
      * eexists. rewrite Hid, lookup_insert_eq. split; [reflexivity|]. simpl.
        repeat split; try done. by apply prefix_app_r.
    + simpl. eexists. rewrite Hid, lookup_insert_eq. split; [reflexivity|].
      simpl. repeat split; try done.
Qed.

(** *** The whole pipeline *)






(** *** Which collaborator an operation calls *)

Lemma forallb_parse_calls (kind : @event analysis → bool) (fs : list file_info) :
  (∀ path, kind (ParseCalled path) = true) →
  forallb kind (map (λ f, ParseCalled (file_path f)) fs) = true.
Proof. intros H. induction fs as [|f fs IH]; simpl; [done|]. by rewrite H. Qed.

Lemma count_parse_calls (kind : @event analysis → bool) (fs : list file_info) :
  (∀ path, kind (ParseCalled path) = false) →
  count_calls kind (map (λ f, ParseCalled (file_path f)) fs) = 0.
Proof.
  intros H. unfold count_calls.
  induction fs as [|f fs IH]; simpl; [done|]. by rewrite H.
Qed.

Lemma forallb_saved (kind : @event analysis → bool) {A} (f : A → state) l :
  (∀ s, kind (Saved s) = true) →
  forallb kind (map (λ x, Saved (f x)) l) = true.
Proof. intros H. induction l as [|x l IH]; simpl; [done|]. by rewrite H. Qed.

Lemma count_saved (kind : @event analysis → bool) {A} (f : A → state) l :
  (∀ s, kind (Saved s) = false) →
  count_calls kind (map (λ x, Saved (f x)) l) = 0.
Proof.
  intros H. unfold count_calls.
  induction l as [|x l IH]; simpl; [done|]. by rewrite H.
Qed.

Lemma count_calls_app (kind : @event analysis → bool) a b :
  count_calls kind (a ++ b)%list = count_calls kind a + count_calls kind b.
Proof. unfold count_calls. by rewrite List.filter_app, length_app. Qed.

Lemma nothing_added (o o1 : orch) (kind allowed : @event analysis → bool) n :
  trace o1 = trace o →
  ∃ evs, trace o1 = (trace o ++ evs)%list ∧
         forallb allowed evs = true ∧ count_calls kind evs ≤ n.
Proof.
  intros ->. exists []. rewrite app_nil_r.
  split; [done|]. split; [done|]. unfold count_calls. simpl. lia.
Qed.

(** X19: each operation only adds to the journal, and calls no
    collaborator but its own: processing the files saves, parses and
    calls the analyzer at most once, but never the agent or the builder;
    generating the schema saves and calls the agent at most once, nothing
    else; finalizing saves and calls the builder at most once, and not at
    all when approval is withheld; the two queries write nothing. *)
Theorem operations_call_own_collaborators (o : orch) (id : string)
    (db_name : option string) (approved : bool) :
  (∃ evs,
     trace (process_files parse_file analyze_files o id).2
     = (trace o ++ evs)%list ∧
     forallb (λ ev, is_saved ev || is_parse_call ev || is_analyze_call ev) evs
     = true ∧
     count_calls is_analyze_call evs ≤ 1) ∧
  (∃ evs,
     trace (IngestionOrchestrator.generate_schema agent_generate_schema o id).2
     = (trace o ++ evs)%list ∧
     forallb (λ ev, is_saved ev || is_agent_call ev) evs = true ∧
     count_calls is_agent_call evs ≤ 1) ∧
  (∃ evs,
     trace (finalize_ingestion builder_create_database o id db_name approved).2
     = (trace o ++ evs)%list ∧
     forallb (λ ev, is_saved ev || is_builder_call ev) evs = true ∧
     count_calls is_builder_call evs ≤ (if approved then 1 else 0)) ∧
  trace (get_status o id).2 = trace o ∧
  trace (get_schema o id).2 = trace o.
Proof.
  destruct (_get_state o id) as [[s|] o1] eqn:Hget;
    pose proof (get_state_spec _ _ _ _ Hget) as [Htr _].
  2:{ unfold process_files, IngestionOrchestrator.generate_schema,
        finalize_ingestion, get_status, get_schema.
      rewrite Hget. simpl.
      split; [by apply nothing_added|]. split; [by apply nothing_added|].
      split; [by apply nothing_added|]. done. }
  split; [|split; [|split; [|split]]].
  - unfold process_files. rewrite Hget, parse_all_spec. simpl.
    destruct (parsed_ok parse_file (files s)) as [|p ps]; simpl.
    + eexists. rewrite Htr, <- !app_assoc. split; [reflexivity|].
      rewrite !count_calls_app, count_parse_calls by done.
      simpl. rewrite forallb_app, forallb_parse_calls by done.
      split; [done|]. unfold count_calls. simpl. lia.
    + destruct (analyze_files (p :: ps)); simpl; eexists;
        rewrite Htr, <- !app_assoc; (split; [reflexivity|]);
        rewrite !count_calls_app, count_parse_calls by done;
        simpl; rewrite forallb_app, forallb_parse_calls by done;
        (split; [done|]); unfold count_calls; simpl; lia.
  - destruct (file_analysis s) as [a|] eqn:Ha.
    2:{ unfold IngestionOrchestrator.generate_schema. rewrite Hget, Ha. simpl.
        by apply nothing_added. }
    pose proof (generate_schema_stage_run o id s o1 Hget) as H.
    cbn zeta in H. rewrite Ha in H. destruct H as (s' & _ & _ & -> & _).
    eexists. split; [reflexivity|].
    cbn [forallb is_saved is_agent_call orb andb app].
    rewrite forallb_app, forallb_saved by done.
    split; [done|].
    change (Saved (set_stage s GeneratingSchema) :: AgentCalled :: ?l)
      with ([Saved (set_stage s GeneratingSchema); AgentCalled] ++ l)%list.
    rewrite !count_calls_app, count_saved by done.
    unfold count_calls. simpl. lia.
  - unfold finalize_ingestion. rewrite Hget. destruct approved; cbn [negb].
    + destruct (schema_result_of s) as [r|].
      2:{ simpl. by apply nothing_added. }
      destruct (builder_create_database _ _ _); simpl; eexists;
        rewrite Htr, <- !app_assoc; (split; [reflexivity|]); simpl;
        (split; [done|]); unfold count_calls; simpl; lia.
    + simpl. eexists. rewrite Htr. split; [reflexivity|]. simpl.
      split; [done|]. unfold count_calls. simpl. lia.
  - unfold get_status. by rewrite Hget.
  - unfold get_schema. rewrite Hget. by destruct (schema_result_of s).
Qed.

End WithCollaborators.

(** *** The orchestrator with the schema agent *)

Section WithAgent.
Variable chat : nat → result string.
Variable json_loads : string → result Json.json.
Variable py_str : Json.json → string.
Variable max_rounds : nat.




End WithAgent.



(** X17 at the job that was just uploaded. *)
Lemma job_fields_preserved_witness :
  ∃ s', states (process_files Examples.parse_one Examples.count_tables
                  Examples.started "42").2 !! "42" = Some s' ∧
        files s' = Examples.two_files ∧
        requirements s' = "one table of patients".
Proof.
  assert (Hget : _get_state Examples.started "42"
                 = (Some (State "42" Uploaded Examples.two_files
                            "one table of patients" None None None None None []),
                    Examples.started))
    by (vm_compute; reflexivity).
  destruct (proj1 (job_fields_preserved Examples.parse_one Examples.count_tables
                     Examples.agent_ok Examples.build_ok
                     Examples.started "42" _ _ None true Hget eq_refl))
    as (s' & Hs & _ & Hfiles & Hreq & _).
  exists s'. split; [exact Hs|]. split; [exact Hfiles|exact Hreq].
Defined.

(** X16 at the job whose files were processed, with an agent that
    converges at once. *)
Lemma generate_schema_stage_witness :
  ∃ s', states Examples.awaiting !! "42" = Some s' ∧
        stage_of s' = AwaitingApproval ∧
        schema_result_of s' = Some Examples.a_schema.
Proof.
  destruct (process_files Examples.parse_one Examples.count_tables
              Examples.started "42") as [resp o2] eqn:Hproc.
  assert (Hget : ∃ s, _get_state o2 "42" = (Some s, o2) ∧ upload_id s = "42"
                      ∧ file_analysis s = Some 1).
  { vm_compute in Hproc. injection Hproc as _ <-. eexists.
    split; [vm_compute; reflexivity|]. split; reflexivity. }
  destruct Hget as (s & Hget & Hid & Han).
  pose proof (generate_schema_stage Examples.agent_ok o2 "42" s o2 Hget) as H.
  simpl in H. rewrite Han in H. destruct H as (s' & Hs & _ & _ & _ & H).
  simpl in H. destruct H as (Hstage & Hres & _).
  exists s'. unfold Examples.awaiting. rewrite Hproc. simpl.
  rewrite Hid in Hs. done.
Defined.


(** X14 at the empty orchestrator. *)
Lemma unknown_upload_id_witness :
  process_files Examples.parse_one Examples.count_tables
    Examples.empty_orchestrator "42"
  = (RespError "Invalid upload ID" None, Examples.empty_orchestrator).
Proof.
  exact (proj1 (unknown_upload_id Examples.parse_one Examples.count_tables
                  Examples.agent_ok Examples.build_ok
                  Examples.empty_orchestrator "42" None true
                  (lookup_empty _) (lookup_empty _))).
Defined.

End IngestionOrchestratorMore.

(** * Properties of the format registry, of [parse_file] and of the
      upload filter *)

Module FormatsFacts.
Import SupportedFormats FileParser App PyFacts.

Lemma dict_get_is_Some {K V} `{EqDecision K} (d : list (K * V)) key :
  is_Some (dict_get d key) ↔ key ∈ map fst d.
Proof.
  induction d as [|[k v] d IH]; simpl.
  - split; [by intros [? ?]|by intros ?%elem_of_nil].
  - destruct (decide (k = key)) as [->|Hne].
    + split; [intros _; left|by eexists].
    + rewrite IH. split; [by right|].
      intros [?|?]%elem_of_cons; [congruence|done].
Qed.

Lemma ascii_lower_dot c : ascii_lower c = "."%char ↔ c = "."%char.
Proof.
  split; [|by intros ->].
  destruct c as [[] [] [] [] [] [] [] []]; vm_compute; congruence.
Qed.

Lemma lower_idem s : lower (lower s) = lower s.
Proof.
  induction s as [|c s IH]; simpl; [done|]. rewrite IH. f_equal.
  destruct c as [[] [] [] [] [] [] [] []]; vm_compute; reflexivity.
Qed.

Lemma startswith_lower_dot s : startswith (lower s) "." = startswith s ".".
Proof.
  destruct s as [|c s]; simpl; [done|].
  rewrite !startswith_nil, !andb_true_r.
  destruct (Ascii.eqb_spec (ascii_lower c) "."%char) as [H|H];
    destruct (Ascii.eqb_spec c "."%char) as [H'|H']; try done.
  - destruct H'. by apply (proj1 (ascii_lower_dot c)).
  - destruct H. by apply (proj2 (ascii_lower_dot c)).
Qed.

Lemma is_supported_get_format extension :
  is_supported extension = true ↔ is_Some (get_format extension).
Proof.
  unfold is_supported, get_format. rewrite bool_decide_eq_true.
  by rewrite dict_get_is_Some.
Qed.

(** X21: an extension is supported exactly when the registry has a
    format for it; both answers ignore the letter case of the extension
    and whether it is given with its leading dot; every extension that
    [get_supported_extensions] lists is supported; and every format has a
    size limit of its own (100 MiB, 50 MiB for the two Excel formats), so
    the default of 10 MiB is never used. *)
Theorem supported_extensions (extension : string) :
  (is_supported extension = true ↔ is_Some (get_format extension)) ∧
  (is_supported (lower extension) = is_supported extension ∧
   get_format (lower extension) = get_format extension) ∧
  (startswith extension "." = false →
   is_supported ("." +:+ extension) = is_supported extension ∧
   get_format ("." +:+ extension) = get_format extension) ∧
  Forall (λ e, is_supported e = true) get_supported_extensions ∧
  (∀ f, get_max_file_size f
        = if bool_decide (f ∈ [XLSX; XLS])
          then (50 * 1024 * 1024)%Z else (100 * 1024 * 1024)%Z).
Proof.
  split; [|split; [|split; [|split]]].
  - apply is_supported_get_format.
  - unfold is_supported, get_format. by rewrite lower_idem.
  - intros Hdot. unfold is_supported, get_format.
    change (lower ("." +:+ extension)) with ("." +:+ lower extension).
    rewrite startswith_lower_dot, Hdot.
    rewrite (startswith_prefix "." (lower extension)). done.
  - unfold get_supported_extensions. repeat constructor.
  - intros []; reflexivity.
Qed.

Section WithFiles.
Variable path_exists : string → bool.
Variable st_size : string → Z.
Variable suffix : string → string.
Variable path_str : string → string.
Variable _parse_csv : string → FileFormat → result parsed_file.
Variable _parse_json : string → result parsed_file.
Variable _parse_excel : string → result parsed_file.
Variable _parse_txt : string → result parsed_file.

(** X22: [parse_file] checks, in this order, that the file exists
    ([FileNotFoundError]), that its suffix, whatever its letter case, is
    a supported extension ([ValueError] "Unsupported file format") and
    that its size does not exceed the limit of the format, a file of
    exactly the limit being accepted; it then hands the file to the
    parser of its format: [.csv] and [.tsv] to the CSV parser, [.json]
    and [.jsonl] to the JSON parser, [.xlsx] and [.xls] to the Excel
    parser, [.txt] to the text parser.  The branch "Parser not
    implemented" is never taken. *)
Theorem parse_file_dispatch (file_path : string) :
  let run := parse_file path_exists st_size suffix path_str
               _parse_csv _parse_json _parse_excel _parse_txt file_path in
  (path_exists file_path = false →
   run = Raise (FileNotFoundError ("File not found: " +:+ path_str file_path))) ∧
  (path_exists file_path = true →
   is_supported (suffix file_path) = false →
   run = Raise (ValueError ("Unsupported file format: "
                            +:+ lower (suffix file_path)))) ∧
  (path_exists file_path = true →
   ∀ f, get_format (suffix file_path) = Some f →
     ((get_max_file_size f < st_size file_path)%Z →
      ∃ e, run = Raise e ∧ exn_class e = "ValueError") ∧
     ((st_size file_path ≤ get_max_file_size f)%Z →
      run = match f with
            | CSV | TSV => _parse_csv file_path f
            | JSON => _parse_json file_path
            | XLSX | XLS => _parse_excel file_path
            | TXT => _parse_txt file_path
            end)).
Proof.
  simpl. unfold parse_file.
  assert (Hfmt : get_format (lower (suffix file_path))
                 = get_format (suffix file_path)).
  { unfold get_format. by rewrite lower_idem. }
  rewrite Hfmt. split; [|split].
  - by intros ->.
  - intros -> Hno. simpl.
    destruct (get_format (suffix file_path)) as [f|] eqn:Hf; [|done].
    assert (Hyes : is_supported (suffix file_path) = true).
    { apply is_supported_get_format. rewrite Hf. by eexists. }
    congruence.
  - intros -> f ->. simpl. split.
    + intros Hbig. apply Z.ltb_lt in Hbig. rewrite Hbig. by eexists.
    + intros Hfits. apply Z.ltb_ge in Hfits. rewrite Hfits.
      by destruct f.
Qed.

End WithFiles.

(** *** The upload filter *)

Lemma rsplit1_no_sep c : ∀ s,
  str_in (String c "") s = false → rsplit1 s c = [s].
Proof.
  induction s as [|d s IH]; cbn [str_in rsplit1]; [done|].
  intros [Hd Hs]%orb_false_iff. rewrite (IH Hs).
  simpl in Hd. rewrite startswith_nil, andb_true_r in Hd. by rewrite Hd.
Qed.

Lemma rsplit1_last c ext : ∀ stem,
  str_in (String c "") ext = false →
  rsplit1 (stem +:+ String c ext) c = [stem; ext].
Proof.
  intros stem Hno. induction stem as [|d stem IH].
  - change ("" +:+ String c ext) with (String c ext). cbn [rsplit1].
    by rewrite (rsplit1_no_sep c ext Hno), Ascii.eqb_refl.
  - change (String d stem +:+ String c ext)
      with (String d (stem +:+ String c ext)).
    cbn [rsplit1]. by rewrite IH.
Qed.

Lemma rsplit1_cases c : ∀ s,
  (str_in (String c "") s = false ∧ rsplit1 s c = [s]) ∨
  (∃ stem ext, s = stem +:+ String c ext ∧
               str_in (String c "") ext = false ∧
               str_in (String c "") s = true ∧
               rsplit1 s c = [stem; ext]).
Proof.
  induction s as [|d s IH].
  - left. done.
  - destruct IH as [[Hno Hsplit]|(stem & ext & -> & Hno & Hin & Hsplit)].
    + destruct (Ascii.eqb_spec d c) as [->|Hne].
      * right. exists "", s. split; [done|]. split; [done|].
        split; [|by apply (rsplit1_last c s "")].
        cbn [str_in]. simpl. by rewrite Ascii.eqb_refl, startswith_nil.
      * left. split; [|apply rsplit1_no_sep]; cbn [str_in]; rewrite Hno;
          simpl; rewrite startswith_nil, andb_true_r, orb_false_r;
          by apply Ascii.eqb_neq.
    + right. exists (String d stem), ext. split; [done|]. split; [done|].
      split; [cbn [str_in]; by rewrite Hin, orb_true_r|].
      by apply (rsplit1_last c ext (String d stem)).
Qed.

Lemma allowed_iff_mapped x :
  x ∈ ALLOWED_EXTENSIONS ↔ "." +:+ x ∈ map fst EXTENSION_MAP.
Proof.
  unfold ALLOWED_EXTENSIONS, EXTENSION_MAP. simpl.
  rewrite !elem_of_cons, !elem_of_nil.
  change ("." +:+ x) with (String "."%char x).
  split; intros H; repeat (destruct H as [H|H]; [subst; auto 10|]); try done;
    injection H as ->; auto 10.
Qed.

(** X23: the filter of the upload route never fails, and it accepts a
    file name exactly when the name has a dot and the text after its last
    dot is an extension that the registry of the parser supports
    ([is_supported]), in whatever letter case. *)
Theorem allowed_file_iff_supported (filename : string) :
  ∃ accepted,
    allowed_file filename = Ok accepted ∧
    (accepted = true ↔
     ∃ stem ext,
       filename = stem +:+ "." +:+ ext ∧ str_in "." ext = false ∧
       is_supported ext = true).
Proof.
  assert (Hsup : ∀ ext, str_in "." ext = false →
            is_supported ext = bool_decide (lower ext ∈ ALLOWED_EXTENSIONS)).
  { intros ext Hno. unfold is_supported.
    assert (Hstart : startswith (lower ext) "." = false).
    { rewrite startswith_lower_dot. destruct ext as [|c ext]; [done|].
      cbn [str_in] in Hno. by apply orb_false_iff in Hno as [? _]. }
    rewrite Hstart. simpl. apply bool_decide_ext. symmetry.
    apply allowed_iff_mapped. }
  unfold allowed_file.
  destruct (rsplit1_cases "."%char filename)
    as [[Hno Hsplit]|(stem & ext & -> & Hno & Hin & Hsplit)].
  - rewrite Hno. exists false. split; [done|]. split; [done|].
    intros (stem & ext & -> & Hext & _).
    pose proof (rsplit1_last "."%char ext stem Hext) as Hlast.
    change (stem +:+ "." +:+ ext) with (stem +:+ String "."%char ext) in Hsplit.
    rewrite Hlast in Hsplit. done.
  - rewrite Hin, Hsplit. simpl. eexists. split; [reflexivity|].
    rewrite <- (Hsup ext Hno). split.
    + intros Hyes. by exists stem, ext.
    + intros (stem' & ext' & Heq & Hext' & Hyes).
      pose proof (rsplit1_last "."%char ext' stem' Hext') as Hlast.
      change (stem' +:+ "." +:+ ext') with (stem' +:+ String "."%char ext') in Heq.
      rewrite <- Heq, Hsplit in Hlast. by injection Hlast as _ ->.
Qed.

End FormatsFacts.
